(** * Measurement and scaling model of the graph comparison tool

    A shallow embedding of the point registry and of the metrics engine of
    [sci_viz_tool.py] (class [AnnotatorApp]): the five named points, the
    click handler that places them, [clear_marks], and [compute_metrics]
    with its local helpers [height], [pct] and [base_norm].

    Python floats are IEEE 754 binary64 values; they are modelled by the
    executable specification [spec_float] of the standard library, so that
    rounding, signed zeros, infinities and NaN behave as in the interpreter.
    Python exceptions are modelled by an error monad. *)

From Stdlib Require Import ZArith Bool List Lia.
From Stdlib Require Import Floats.SpecFloat.
From stdpp Require Import base option gmap strings.

Open Scope Z_scope.

(** ** Exceptions *)

Inductive exn : Set :=
| ZeroDivisionError
| OverflowError
| ValueError
| KeyError.

Inductive result (A : Type) : Type :=
| Return (a : A)
| Raise (e : exn).
Arguments Return {A} a.
Arguments Raise {A} e.

#[global] Instance result_ret : MRet result := fun _ a => Return a.
#[global] Instance result_bind : MBind result := fun _ _ f r =>
  match r with
  | Return a => f a
  | Raise e => Raise e
  end.

(** [try: e except Exception: d] *)
Definition try_except {A : Type} (e : result A) (d : A) : A :=
  match e with
  | Return a => a
  | Raise _ => d
  end.

(** ** Python floats *)

(** A Python [float] is a binary64 value. *)
Definition float : Type := spec_float.

Module PyFloat.

Definition prec : Z := 53.
Definition emax : Z := 1024.

Definition zero : float := S754_zero false.

(** The binary64 value nearest to an integer (ties to even). *)
Definition round_int (n : Z) : float := binary_normalize prec emax n 0 false.

(** [float(n)] for an [int]: rounds to nearest even and raises
    [OverflowError] when the integer is too large. *)
Definition of_int (n : Z) : result float :=
  match round_int n with
  | S754_infinity _ => Raise OverflowError
  | f => Return f
  end.

(** Literals [1.0] and [100.0]. *)
Definition one : float := round_int 1.
Definition hundred : float := round_int 100.

Definition sub (a b : float) : float := SFsub prec emax a b.
Definition mul (a b : float) : float := SFmul prec emax a b.
Definition abs (a : float) : float := SFabs a.

(** [a == b], [a != 0], [a > b] *)
Definition eqb (a b : float) : bool := SFeqb a b.
Definition is_zero (a : float) : bool := eqb a zero.
Definition gtb (a b : float) : bool := SFltb b a.

(** [bool(a)]: a float is falsy exactly when it compares equal to zero. *)
Definition truthy (a : float) : bool := negb (is_zero a).

(** [a / b]: raises [ZeroDivisionError] when [b == 0.0]. *)
Definition truediv (a b : float) : result float :=
  if is_zero b then Raise ZeroDivisionError
  else Return (SFdiv prec emax a b).

(** [int(a)]: truncation towards zero; infinities and NaN raise. *)
Definition to_int (a : float) : result Z :=
  match a with
  | S754_zero _ => Return 0
  | S754_infinity _ => Raise OverflowError
  | S754_nan => Raise ValueError
  | S754_finite s m e =>
      let mag := match e with
                 | Zneg k => Z.shiftr (Zpos m) (Zpos k)
                 | _ => Z.shiftl (Zpos m) e
                 end in
      Return (if s then - mag else mag)
  end.

(** [a.is_integer()] *)
Definition is_integer (a : float) : bool :=
  match a with
  | S754_zero _ => true
  | S754_finite _ m (Zneg k) => Z.eqb (Z.land (Zpos m) (Z.ones (Zpos k))) 0
  | S754_finite _ _ _ => true
  | _ => false
  end.

(** The integer a float stands for, when its value is exactly an integer. *)
Definition exact_int (a : float) : option Z :=
  if is_integer a then
    match to_int a with
    | Return z => Some z
    | Raise _ => None
    end
  else None.

Definition is_finite (a : float) : bool :=
  match a with
  | S754_zero _ | S754_finite _ _ _ => true
  | _ => false
  end.

(** [a > 0] and [a < 0] *)
Definition is_positive (a : float) : bool := gtb a zero.
Definition is_negative (a : float) : bool := gtb zero a.

(** Zero, or a finite float of at most 53 digits and exponent at most [hi]. *)
Definition within (hi : Z) (f : float) : Prop :=
  match f with
  | S754_zero _ => True
  | S754_finite _ m e => Zpos m < 2 ^ 53 /\ e <= hi
  | _ => False
  end.

(** A normal float: sign [s], a mantissa of exactly 53 digits, an exponent
    between [lo] and [hi]. *)
Definition normal (s : bool) (lo hi : Z) (f : float) : Prop :=
  match f with
  | S754_finite s' m e => s' = s /\ 2 ^ 52 <= Zpos m < 2 ^ 53 /\ lo <= e <= hi
  | _ => False
  end.

(** [max(l)] over a non-empty sequence whose first item is [x]: the
    running maximum is replaced only by a strictly greater item. *)
Definition max_from (x : float) (l : list float) : float :=
  fold_left (fun best item => if gtb item best then item else best) l x.

End PyFloat.

(** ** Data model *)

(** [class Point]: a user-selected point and the canvas items drawn for it.
    [xy] is in image space; the three ids are handles of Tk canvas items. *)
Record Point : Type := mkPoint {
  name : string;
  xy : option (Z * Z);
  line_id : option Z;
  dot_id : option Z;
  label_id : option Z
}.

(** The state of [AnnotatorApp] that the point and metrics methods read or
    write.  [image] keeps the size [(w, h)] of the working image, which is
    all these methods use of it; [canvas_next] is the id the Tk canvas will
    give to the next item it creates (Tk numbers its items consecutively). *)
Record AnnotatorApp : Type := mkApp {
  image : option (Z * Z);
  display_scale : float * float;
  points : gmap string Point;
  axis_value : float;
  current_mode : option string;
  overlay_items : list Z;
  canvas_next : Z
}.

(** The tuple ("Baseline", "Control", "A", "B", "Axis") of [set_mode] and
    [on_canvas_click]. *)
Definition POINT_NAMES : list string :=
  ["Baseline"; "Control"; "A"; "B"; "Axis"]%string.

Definition fresh_point (n : string) : Point :=
  mkPoint n None None None None.

(** [__init__]: no image, unit display scale, the five empty points, axis
    value 100.0, no mode, no overlay. *)
Definition init : AnnotatorApp :=
  {| image := None;
     display_scale := (PyFloat.one, PyFloat.one);
     points := <["Baseline" := fresh_point "Baseline"]>
               (<["Control" := fresh_point "Control"]>
               (<["A" := fresh_point "A"]>
               (<["B" := fresh_point "B"]>
               (<["Axis" := fresh_point "Axis"]> ∅))))%string;
     axis_value := PyFloat.hundred;
     current_mode := None;
     overlay_items := [];
     canvas_next := 1 |}.

(** The dictionary returned by [compute_metrics], one field per key. *)
Record Metrics : Type := mkMetrics {
  height_Baseline_y : option float;
  height_Control_px : option float;
  height_A_px : option float;
  height_B_px : option float;
  height_Axis_px : option float;
  axis_auto_used : bool;
  A_as_pct_of_B : option float;
  B_as_pct_of_A : option float;
  delta_A_vs_B_pct : option float;
  delta_B_vs_A_pct : option float;
  A_as_pct_of_Control : option float;
  Control_as_pct_of_A : option float;
  delta_A_vs_Control_pct : option float;
  delta_Control_vs_A_pct : option float;
  B_as_pct_of_Control : option float;
  Control_as_pct_of_B : option float;
  delta_B_vs_Control_pct : option float;
  delta_Control_vs_B_pct : option float;
  BaseNorm_Control : option float;
  BaseNorm_A : option float;
  BaseNorm_B : option float;
  Axis_Value : option float
}.

(** ** Metrics engine *)

(** [self.points[n].xy]; a missing key raises [KeyError]. *)
Definition point_xy (self : AnnotatorApp) (n : string) : result (option (Z * Z)) :=
  match points self !! n with
  | Some pt => Return (xy pt)
  | None => Raise KeyError
  end.

(** The local function [height] of [compute_metrics], closed over [base_y]. *)
Definition height (base_y : option Z) (y_top : Z) : result (option float) :=
  match base_y with
  | None => Return None
  | Some b => f ← PyFloat.of_int (b - y_top); Return (Some f)
  end.

(** [height(P[1]) if P is not None else None] *)
Definition height_of (base_y : option Z) (P : option (Z * Z)) : result (option float) :=
  match P with
  | Some p => height base_y (snd p)
  | None => Return None
  end.

(** The axis span in pixels (Baseline -> Axis): the [try] block that first
    assigns [hAxis].  A span of zero, and any exception, give [None]. *)
Definition axis_span (base_y axis_y : option Z) : option float :=
  match base_y, axis_y with
  | Some b, Some a =>
      try_except
        (span ← PyFloat.of_int (b - a);
         Return (if negb (PyFloat.is_zero span) then Some span else None))
        None
  | _, _ => None
  end.

(** [candidates = [v for v in (hA, hB, hC) if v is not None]] *)
Definition candidates (hA hB hC : option float) : list float :=
  omap id [hA; hB; hC].

(** The auto scale fallback: the pair [(hAxis, auto_used)] after the block
    that replaces a missing span by the largest absolute candidate, or by
    1.0 when there is no candidate. *)
Definition auto_scale (span : option float) (hA hB hC : option float) : float * bool :=
  match span with
  | Some s => (s, false)
  | None =>
      match candidates hA hB hC with
      | v :: vs => (PyFloat.max_from (PyFloat.abs v) (map PyFloat.abs vs), true)
      | [] => (PyFloat.one, true)
      end
  end.

(** The local helper [pct]: [None] if an input is missing or the divisor is
    zero, else [100.0 * n / d]; any exception gives [None]. *)
Definition pct (n d : option float) : option float :=
  match n, d with
  | Some n, Some d =>
      try_except
        (if PyFloat.is_zero d then Return None
         else q ← PyFloat.truediv (PyFloat.mul PyFloat.hundred n) d; Return (Some q))
        None
  | _, _ => None
  end.

(** [None if hX is None or hY is None else hX - hY] *)
Definition diff (hX hY : option float) : option float :=
  match hX, hY with
  | Some x, Some y => Some (PyFloat.sub x y)
  | _, _ => None
  end.

(** The local helper [base_norm], closed over [hAxis] and [self.axis_value]:
    [(v_height / hAxis) * float(self.axis_value)]. *)
Definition base_norm (hAxis : option float) (axis_value : float)
    (v_height : option float) : result (option float) :=
  match v_height, hAxis with
  | Some v, Some s =>
      q ← PyFloat.truediv v s; Return (Some (PyFloat.mul q axis_value))
  | _, _ => Return None
  end.

(** [float(base_y) if base_y is not None else None] *)
Definition float_opt (y : option Z) : result (option float) :=
  match y with
  | Some b => f ← PyFloat.of_int b; Return (Some f)
  | None => Return None
  end.

(** The body of [compute_metrics] once the five coordinates are read. *)
Definition metrics_of_points (baseline control A B axis_pt : option (Z * Z))
    (axis_value : float) : result Metrics :=
  let base_y := snd <$> baseline in
  let axis_y := snd <$> axis_pt in
  hA ← height_of base_y A;
  hB ← height_of base_y B;
  hC ← height_of base_y control;
  let '(scale, auto_used) := auto_scale (axis_span base_y axis_y) hA hB hC in
  let hAxis := Some scale in
  m_base ← float_opt base_y;
  bn_C ← base_norm hAxis axis_value hC;
  bn_A ← base_norm hAxis axis_value hA;
  bn_B ← base_norm hAxis axis_value hB;
  Return
    {| height_Baseline_y := m_base;
       height_Control_px := hC;
       height_A_px := hA;
       height_B_px := hB;
       height_Axis_px := hAxis;
       axis_auto_used := auto_used;
       A_as_pct_of_B := pct hA hB;
       B_as_pct_of_A := pct hB hA;
       delta_A_vs_B_pct := pct (diff hA hB) hB;
       delta_B_vs_A_pct := pct (diff hB hA) hA;
       A_as_pct_of_Control := pct hA hC;
       Control_as_pct_of_A := pct hC hA;
       delta_A_vs_Control_pct := pct (diff hA hC) hC;
       delta_Control_vs_A_pct := pct (diff hC hA) hA;
       B_as_pct_of_Control := pct hB hC;
       Control_as_pct_of_B := pct hC hB;
       delta_B_vs_Control_pct := pct (diff hB hC) hC;
       delta_Control_vs_B_pct := pct (diff hC hB) hB;
       BaseNorm_Control := bn_C;
       BaseNorm_A := bn_A;
       BaseNorm_B := bn_B;
       Axis_Value := Some axis_value |}.

Definition compute_metrics (self : AnnotatorApp) : result Metrics :=
  baseline ← point_xy self "Baseline";
  control ← point_xy self "Control";
  A ← point_xy self "A";
  B ← point_xy self "B";
  axis_pt ← point_xy self "Axis";
  metrics_of_points baseline control A B axis_pt (axis_value self).

(** ** Methods that change the application state

    A method takes the state and gives back the state it leaves behind
    together with its outcome: attribute updates made before an exception is
    raised stay in place. *)

Definition method (A : Type) : Type := AnnotatorApp -> result A * AnnotatorApp.

#[global] Instance method_ret : MRet method := fun _ a self => (Return a, self).
#[global] Instance method_bind : MBind method := fun _ _ f m self =>
  match m self with
  | (Return a, self') => f a self'
  | (Raise e, self') => (Raise e, self')
  end.

Definition get_self : method AnnotatorApp := fun self => (Return self, self).
Definition put_self (self' : AnnotatorApp) : method unit := fun _ => (Return tt, self').
Definition lift {A : Type} (r : result A) : method A := fun self => (r, self).

Definition with_points (self : AnnotatorApp) (ps : gmap string Point) : AnnotatorApp :=
  mkApp (image self) (display_scale self) ps (axis_value self)
        (current_mode self) (overlay_items self) (canvas_next self).

Definition with_mode (self : AnnotatorApp) (mode : option string) : AnnotatorApp :=
  mkApp (image self) (display_scale self) (points self) (axis_value self)
        mode (overlay_items self) (canvas_next self).

Definition with_overlay (self : AnnotatorApp) (items : list Z) (next : Z) : AnnotatorApp :=
  mkApp (image self) (display_scale self) (points self) (axis_value self)
        (current_mode self) items next.

(** [set_mode]: enter a point-setting mode, or cancel with [None]. *)
Definition set_mode (mode : option string) : method unit :=
  self ← get_self; put_self (with_mode self mode).

(** One axis of [canvas_to_image_xy]: [int(x / sx) if sx else 0]. *)
Definition unscale (x : Z) (sx : float) : result Z :=
  if PyFloat.truthy sx then
    fx ← PyFloat.of_int x; q ← PyFloat.truediv fx sx; PyFloat.to_int q
  else Return 0.

(** [canvas_to_image_xy]: canvas coordinates to image coordinates, clamped
    to the image bounds. *)
Definition canvas_to_image_xy (self : AnnotatorApp) (x y : Z) : result (Z * Z) :=
  let '(sx, sy) := display_scale self in
  ix ← unscale x sx;
  iy ← unscale y sy;
  match image self with
  | Some (w, h) => Return (Z.max 0 (Z.min (w - 1) ix), Z.max 0 (Z.min (h - 1) iy))
  | None => Return (ix, iy)
  end.

(** One axis of [image_to_canvas_xy]: [int(x * sx)]. *)
Definition rescale (x : Z) (sx : float) : result Z :=
  fx ← PyFloat.of_int x; PyFloat.to_int (PyFloat.mul fx sx).

Definition image_to_canvas_xy (self : AnnotatorApp) (x y : Z) : result (Z * Z) :=
  let '(sx, sy) := display_scale self in
  cx ← rescale x sx;
  cy ← rescale y sy;
  Return (cx, cy).

Definition set_xy (img_xy : option (Z * Z)) (pt : Point) : Point :=
  mkPoint (name pt) img_xy (line_id pt) (dot_id pt) (label_id pt).

Definition set_items (l d t : option Z) (pt : Point) : Point :=
  mkPoint (name pt) (xy pt) l d t.

(** [self.points[n].attr = v]: the point object stored under [n] is updated
    in place; a missing key raises [KeyError]. *)
Definition update_point (n : string) (f : Point -> Point) : method unit :=
  self ← get_self;
  match points self !! n with
  | Some pt => put_self (with_points self (<[n := f pt]> (points self)))
  | None => lift (Raise KeyError)
  end.

(** [draw_point]: forget the canvas items of the point, then draw the guide
    line, the dot and the label, in this order. *)
Definition draw_point (n : string) (img_xy : Z * Z) : method unit :=
  self ← get_self;
  match image self with
  | None => mret tt
  | Some _ =>
      _ ← update_point n (set_items None None None);
      _ ← lift (image_to_canvas_xy self (fst img_xy) (snd img_xy));
      let i := canvas_next self in
      _ ← update_point n (set_items (Some i) (Some (i + 1)) (Some (i + 2)));
      self' ← get_self;
      put_self (with_overlay self' (overlay_items self') (i + 3))
  end.

(** [clear_overlay_text] *)
Definition clear_overlay_text : method unit :=
  self ← get_self; put_self (with_overlay self [] (canvas_next self)).

(** [clear_marks]: remove all point graphics and forget the coordinates. *)
Definition clear_marks : method unit :=
  self ← get_self;
  _ ← put_self (with_points self
                  ((fun pt => set_xy None (set_items None None None pt)) <$> points self));
  clear_overlay_text.

(** [update_metrics_overlay]: erase the panel, recompute the metrics and
    draw the text item, then the background rectangle behind it. *)
Definition update_metrics_overlay : method unit :=
  _ ← clear_overlay_text;
  self ← get_self;
  _ ← lift (compute_metrics self);
  let t := canvas_next self in
  let rect := t + 1 in
  put_self (with_overlay self [rect; t] (t + 2)).

Record Event : Type := mkEvent { ev_x : Z; ev_y : Z }.

(** [on_canvas_click]: handle a click to set the current point. *)
Definition on_canvas_click (event : Event) : method unit :=
  self ← get_self;
  match image self, current_mode self with
  | Some _, Some mode =>
      if bool_decide (mode ∈ POINT_NAMES) then
        img_xy ← lift (canvas_to_image_xy self (ev_x event) (ev_y event));
        _ ← update_point mode (set_xy (Some img_xy));
        _ ← draw_point mode img_xy;
        _ ← set_mode None;
        update_metrics_overlay
      else mret tt
  | _, _ => mret tt
  end.

(** ** Views of the state and of the result *)

(** What the registry holds under a name: nothing when the key is missing,
    else the recorded [xy]. *)
Definition slot (self : AnnotatorApp) (n : string) : option (option (Z * Z)) :=
  xy <$> points self !! n.

(** The coordinate recorded for a name: [None] while the point is unplaced. *)
Definition coord (self : AnnotatorApp) (n : string) : option (Z * Z) :=
  pt ← points self !! n; xy pt.

Definition y_at (self : AnnotatorApp) (n : string) : option Z :=
  snd <$> coord self n.

Definition placed (self : AnnotatorApp) (n : string) : Prop :=
  is_Some (coord self n).

(** The registry holds a point for each of the five names, as [__init__]
    leaves it; no method adds or removes a key. *)
Definition registered (self : AnnotatorApp) : Prop :=
  Forall (fun n => is_Some (points self !! n)) POINT_NAMES.

(** Every recorded [y] is a pixel row: click coordinates are clamped to the
    working image, whose height is far below [2 ^ 52], so that every
    difference of two rows converts to a float without rounding. *)
Definition row_ok (y : option Z) : bool :=
  from_option (fun v => Z.abs v <? 2 ^ 52) true y.

Definition in_range (self : AnnotatorApp) : Prop :=
  Forall (fun n => row_ok (y_at self n) = true) POINT_NAMES.

(** The three compared markers. *)
Inductive marker : Set := MA | MB | MControl.

Definition marker_name (k : marker) : string :=
  match k with
  | MA => "A"
  | MB => "B"
  | MControl => "Control"
  end.

(** [m["height_<X>_px"]] *)
Definition height_px (m : Metrics) (k : marker) : option float :=
  match k with
  | MA => height_A_px m
  | MB => height_B_px m
  | MControl => height_Control_px m
  end.

(** [m["<X>_as_pct_of_<Y>"]]; there is no such key for [X = Y]. *)
Definition as_pct_of (m : Metrics) (X Y : marker) : option float :=
  match X, Y with
  | MA, MB => A_as_pct_of_B m
  | MB, MA => B_as_pct_of_A m
  | MA, MControl => A_as_pct_of_Control m
  | MControl, MA => Control_as_pct_of_A m
  | MB, MControl => B_as_pct_of_Control m
  | MControl, MB => Control_as_pct_of_B m
  | _, _ => None
  end.

(** [m["delta_<X>_vs_<Y>_pct"]] *)
Definition delta_vs (m : Metrics) (X Y : marker) : option float :=
  match X, Y with
  | MA, MB => delta_A_vs_B_pct m
  | MB, MA => delta_B_vs_A_pct m
  | MA, MControl => delta_A_vs_Control_pct m
  | MControl, MA => delta_Control_vs_A_pct m
  | MB, MControl => delta_B_vs_Control_pct m
  | MControl, MB => delta_Control_vs_B_pct m
  | _, _ => None
  end.

(** [m["BaseNorm_<X>"]] *)
Definition base_norm_of (m : Metrics) (k : marker) : option float :=
  match k with
  | MA => BaseNorm_A m
  | MB => BaseNorm_B m
  | MControl => BaseNorm_Control m
  end.

(** ** The quantities in the words of the specification, over integers *)

(** Height of a point: [Baseline.y - P.y], defined when both are placed. *)
Definition spec_height (base_y p_y : option Z) : option Z :=
  match base_y, p_y with
  | Some b, Some y => Some (b - y)
  | _, _ => None
  end.

(** Axis span: the height of the Axis point, a span of 0 being undefined. *)
Definition spec_span (base_y axis_y : option Z) : option Z :=
  match spec_height base_y axis_y with
  | Some 0 => None
  | o => o
  end.

(** The largest absolute height among the defined ones. *)
Definition spec_max_abs (hs : list (option Z)) : option Z :=
  match omap id hs with
  | [] => None
  | h :: t => Some (fold_left Z.max (map Z.abs t) (Z.abs h))
  end.

(** Scale divisor and auto flag: the span if defined, otherwise the largest
    absolute defined height, otherwise 1. *)
Definition spec_divisor (span : option Z) (hs : list (option Z)) : Z * bool :=
  match span with
  | Some s => (s, false)
  | None => (default 1 (spec_max_abs hs), true)
  end.

(** The height of marker [k] in a state, over integers. *)
Definition marker_height (self : AnnotatorApp) (k : marker) : option Z :=
  spec_height (y_at self "Baseline") (y_at self (marker_name k)).

(** The heights in the order in which [compute_metrics] scans them. *)
Definition marker_heights (self : AnnotatorApp) : list (option Z) :=
  [marker_height self MA; marker_height self MB; marker_height self MControl].

(** The span, the divisor and the auto flag of a state, over integers. *)
Definition state_span (self : AnnotatorApp) : option Z :=
  spec_span (y_at self "Baseline") (y_at self "Axis").

Definition state_divisor (self : AnnotatorApp) : Z :=
  fst (spec_divisor (state_span self) (marker_heights self)).

Definition state_auto (self : AnnotatorApp) : bool :=
  snd (spec_divisor (state_span self) (marker_heights self)).

(** What each key of a result holds, in terms of the integer heights and of
    the float operations applied to them. *)
Definition describes (self : AnnotatorApp) (m : Metrics) : Prop :=
  height_Baseline_y m = PyFloat.round_int <$> y_at self "Baseline" /\
  (forall k, height_px m k = PyFloat.round_int <$> marker_height self k) /\
  height_Axis_px m = Some (PyFloat.round_int (state_divisor self)) /\
  axis_auto_used m = state_auto self /\
  (forall X Y, X <> Y -> as_pct_of m X Y = pct (height_px m X) (height_px m Y)) /\
  (forall X Y, X <> Y ->
     delta_vs m X Y = pct (diff (height_px m X) (height_px m Y)) (height_px m Y)) /\
  (forall k, base_norm_of m k =
     (fun h => PyFloat.mul
                 (SFdiv PyFloat.prec PyFloat.emax (PyFloat.round_int h)
                    (PyFloat.round_int (state_divisor self)))
                 (axis_value self)) <$> marker_height self k) /\
  Axis_Value m = Some (axis_value self).

(** ** Example states *)

(** The assignment [self.points[n].xy = p] alone. *)
Definition place (n : string) (p : Z * Z) (self : AnnotatorApp) : AnnotatorApp :=
  snd (update_point n (set_xy (Some p)) self).

(** Choosing a mode with its button, then clicking the canvas at [(x, y)]. *)
Definition click (mode : string) (x y : Z) (self : AnnotatorApp) : AnnotatorApp :=
  snd (on_canvas_click (mkEvent x y) (snd (set_mode (Some mode) self))).

(** A 640 x 480 image shown at scale 1, nothing placed yet. *)
Definition loaded : AnnotatorApp :=
  mkApp (Some (640, 480)) (PyFloat.one, PyFloat.one) (points init)
        PyFloat.hundred None [] 1.

(** Baseline at row 100 and marker A on the same row. *)
Definition flat_A : AnnotatorApp :=
  place "A" (20, 100) (place "Baseline" (0, 100) loaded).

(** Baseline at row 100 and Control on the same row. *)
Definition flat_Control : AnnotatorApp :=
  place "Control" (5, 100) (place "Baseline" (0, 100) loaded).

(** Baseline, A and B all on row 100. *)
Definition flat_AB : AnnotatorApp :=
  place "B" (40, 100) (place "A" (20, 100) (place "Baseline" (0, 100) loaded)).

(** Only the Axis tick is placed. *)
Definition axis_only : AnnotatorApp := place "Axis" (0, 50) loaded.

(** A above the baseline and B below it: heights 30 and -20. *)
Definition below : AnnotatorApp :=
  place "B" (40, 120) (place "A" (20, 70) (place "Baseline" (0, 100) loaded)).

(** A and B at the same height 50. *)
Definition level : AnnotatorApp :=
  place "B" (40, 50) (place "A" (20, 50) (place "Baseline" (0, 100) loaded)).

(** The scenario of the specification: heights 100, 200 and 150. *)
Definition scenario : AnnotatorApp :=
  place "B" (30, 350) (place "A" (20, 300) (place "Control" (10, 400)
    (place "Baseline" (0, 500) loaded))).

(** The scenario with the Axis tick at row 450. *)
Definition scenario_axis : AnnotatorApp := place "Axis" (0, 450) scenario.

(** Heights 3 and 23. *)
Definition small : AnnotatorApp :=
  place "B" (40, 77) (place "A" (20, 97) (place "Baseline" (0, 100) loaded)).

(** The same coordinates as [scenario] in another application state: other
    canvas items, a pending mode, another image and scale, an overlay. *)
Definition scenario_redrawn : AnnotatorApp :=
  mkApp (Some (1920, 1080)) (PyFloat.hundred, PyFloat.one)
        (set_items (Some 7) (Some 8) (Some 9) <$> points scenario)
        PyFloat.hundred (Some "ROI"%string) [12; 11] 13.

(** A loaded image while the mode is the ROI selection. *)
Definition roi_mode : AnnotatorApp := snd (set_mode (Some "ROI"%string) scenario).

(** ** The image life cycle: scaling, loading, resizing and the ROI crop *)

Module PyNum.

(** [a / b] for two [int]s: the correctly rounded quotient.  A zero divisor
    raises [ZeroDivisionError], a quotient too large for a float raises
    [OverflowError]; [0 / b] takes the sign of [b]. *)
Definition int_truediv (a b : Z) : result float :=
  match b, a with
  | Z0, _ => Raise ZeroDivisionError
  | _, Z0 => Return (S754_zero (b <? 0))
  | _, _ =>
      match SFdiv PyFloat.prec PyFloat.emax
              (S754_finite (a <? 0) (Z.to_pos (Z.abs a)) 0)
              (S754_finite (b <? 0) (Z.to_pos (Z.abs b)) 0) with
      | S754_infinity _ => Raise OverflowError
      | f => Return f
      end
  end.

(** [min(a, b)] for two floats: [b] only when it is strictly less. *)
Definition min2 (a b : float) : float := if SFltb b a then b else a.

End PyNum.

Definition with_scale (self : AnnotatorApp) (sc : float * float) : AnnotatorApp :=
  mkApp (image self) sc (points self) (axis_value self)
        (current_mode self) (overlay_items self) (canvas_next self).

Definition with_image (self : AnnotatorApp) (img : option (Z * Z)) : AnnotatorApp :=
  mkApp img (display_scale self) (points self) (axis_value self)
        (current_mode self) (overlay_items self) (canvas_next self).

Definition with_axis_value (self : AnnotatorApp) (v : float) : AnnotatorApp :=
  mkApp (image self) (display_scale self) (points self) v
        (current_mode self) (overlay_items self) (canvas_next self).

(** [set_axis_tick]: the dialog answers with a float, or with [None] when it
    is cancelled; a failing dialog answers with the current value.  An
    answer becomes the axis value and the mode becomes "Axis". *)
Definition set_axis_tick (answer : result (option float)) : method unit :=
  self ← get_self;
  match try_except answer (Some (axis_value self)) with
  | Some val =>
      _ ← put_self (with_axis_value self val);
      set_mode (Some "Axis"%string)
  | None => mret tt
  end.

(** The loop of [reset_canvas_image] over [self.points.items()], which
    yields the five names in the order of [__init__]: every placed point is
    drawn again. *)
Fixpoint redraw_points (names : list string) : method unit :=
  match names with
  | [] => mret tt
  | n :: rest =>
      self ← get_self;
      match coord self n with
      | Some p => _ ← draw_point n p; redraw_points rest
      | None => redraw_points rest
      end
  end.

(** [reset_canvas_image]: fit the working image to the canvas, whose
    [winfo_width()] and [winfo_height()] are [winfo], keep the aspect ratio,
    then draw the image item, the placed points and the overlay again. *)
Definition reset_canvas_image (winfo : Z * Z) : method unit :=
  self ← get_self;
  match image self with
  | None => mret tt
  | Some (img_w, img_h) =>
      let c_w := Z.max (fst winfo) 200 in
      let c_h := Z.max (snd winfo) 200 in
      rw ← lift (PyNum.int_truediv c_w img_w);
      rh ← lift (PyNum.int_truediv c_h img_h);
      let scale := PyNum.min2 rw rh in
      dw ← lift (rescale img_w scale);
      let disp_w := Z.max 1 dw in
      dh ← lift (rescale img_h scale);
      let disp_h := Z.max 1 dh in
      sx ← lift (PyNum.int_truediv disp_w img_w);
      sy ← lift (PyNum.int_truediv disp_h img_h);
      _ ← put_self (with_scale self (sx, sy));
      self' ← get_self;
      _ ← put_self (with_overlay self' (overlay_items self') (canvas_next self' + 1));
      _ ← redraw_points POINT_NAMES;
      update_metrics_overlay
  end.

(** [on_resize] *)
Definition on_resize (winfo : Z * Z) : method unit :=
  self ← get_self;
  match image self with
  | Some _ => reset_canvas_image winfo
  | None => mret tt
  end.

(** [set_image]: assign the working image, reset the canvas view, then clear
    the marks. *)
Definition set_image (img : Z * Z) (winfo : Z * Z) : method unit :=
  self ← get_self;
  _ ← put_self (with_image self (Some img));
  _ ← reset_canvas_image winfo;
  clear_marks.

(** The application state together with what the capture and ROI handlers
    keep: the last full capture (its size) and the ROI drag in progress. *)
Record Session : Type := mkSession {
  app : AnnotatorApp;
  full_capture : option (Z * Z);
  roi_start : option (Z * Z);
  roi_rect_canvas_id : option Z
}.

Definition handler (A : Type) : Type := Session -> result A * Session.

(** A method of the application state run inside a session. *)
Definition on_app {A : Type} (m : method A) : handler A := fun s =>
  (fst (m (app s)),
   mkSession (snd (m (app s))) (full_capture s) (roi_start s) (roi_rect_canvas_id s)).

Definition with_roi (s : Session) (start : option (Z * Z)) (rect : option Z) : Session :=
  mkSession (app s) (full_capture s) start rect.

Definition with_app (s : Session) (a : AnnotatorApp) : Session :=
  mkSession a (full_capture s) (roi_start s) (roi_rect_canvas_id s).

(** [current_mode != "ROI" or self.image is None] *)
Definition roi_idle (self : AnnotatorApp) : bool :=
  negb (bool_decide (current_mode self = Some "ROI"%string)) ||
  bool_decide (image self = None).

(** [open_image], and [capture_all_monitors] alike, once the image is
    obtained: [opened] is its size, or [None] when the dialog is cancelled
    or the image cannot be read. *)
Definition open_image (opened : option (Z * Z)) (winfo : Z * Z) : handler unit := fun s =>
  match opened with
  | None => (Return tt, s)
  | Some img =>
      on_app (set_image img winfo)
        (mkSession (app s) (Some img) (roi_start s) (roi_rect_canvas_id s))
  end.

(** [reset_to_full_capture] *)
Definition reset_to_full_capture (winfo : Z * Z) : handler unit := fun s =>
  match full_capture s with
  | None => (Return tt, s)
  | Some img => on_app (set_image img winfo) s
  end.

(** [start_roi_mode] *)
Definition start_roi_mode : handler unit := fun s =>
  match image (app s) with
  | None => (Return tt, s)
  | Some _ =>
      (Return tt, with_roi (with_app s (with_mode (app s) (Some "ROI"%string))) None None)
  end.

(** [on_roi_press] *)
Definition on_roi_press (event : Event) : handler unit := fun s =>
  if roi_idle (app s) then (Return tt, s)
  else (Return tt, with_roi s (Some (ev_x event, ev_y event)) None).

(** [on_roi_drag]: the first drag step creates the rectangle item. *)
Definition on_roi_drag (event : Event) : handler unit := fun s =>
  if roi_idle (app s) then (Return tt, s)
  else
    match roi_start s, roi_rect_canvas_id s with
    | None, _ => (Return tt, s)
    | Some _, Some _ => (Return tt, s)
    | Some start, None =>
        let i := canvas_next (app s) in
        (Return tt,
         with_roi (with_app s (with_overlay (app s) (overlay_items (app s)) (i + 1)))
           (Some start) (Some i))
    end.

(** The crop box of [on_roi_release] in image space: both corners mapped by
    [canvas_to_image_xy], the first clamped to the last pixel, the second to
    the image size. *)
Definition crop_box (self : AnnotatorApp) (w h x0 y0 x1 y1 : Z) : result (Z * Z * Z * Z) :=
  p0 ← canvas_to_image_xy self x0 y0;
  p1 ← canvas_to_image_xy self x1 y1;
  Return (Z.max 0 (Z.min (w - 1) (fst p0)), Z.max 0 (Z.min (h - 1) (snd p0)),
          Z.max 0 (Z.min w (fst p1)), Z.max 0 (Z.min h (snd p1))).

(** [on_roi_release]: finalize the ROI and crop the working image. *)
Definition on_roi_release (event : Event) (winfo : Z * Z) : handler unit := fun s =>
  if roi_idle (app s) then (Return tt, s)
  else
    match roi_start s, image (app s) with
    | Some (sx0, sy0), Some (w, h) =>
        let s1 := with_app s (with_mode (app s) None) in
        let x0 := Z.min sx0 (ev_x event) in
        let x1 := Z.max sx0 (ev_x event) in
        let y0 := Z.min sy0 (ev_y event) in
        let y1 := Z.max sy0 (ev_y event) in
        if (Z.abs (x1 - x0) <? 4) || (Z.abs (y1 - y0) <? 4) then
          (Return tt, with_roi s1 None None)
        else
          match crop_box (app s1) w h x0 y0 x1 y1 with
          | Raise e => (Raise e, s1)
          | Return (ix0, iy0, ix1, iy1) =>
              if (ix1 <=? ix0) || (iy1 <=? iy0) then
                (Return tt, with_roi s1 None None)
              else
                let cropped := with_image (app s1) (Some (ix1 - ix0, iy1 - iy0)) in
                match (_ ← clear_marks; reset_canvas_image winfo) cropped with
                | (Raise e, a) => (Raise e, with_app s1 a)
                | (Return _, a) => (Return tt, with_roi (with_app s1 a) None None)
                end
          end
    | _, _ => (Return tt, s)
    end.

(** The events of the user interface that reach the handlers above. *)
Inductive UiEvent : Type :=
| EvSetMode (mode : option string)
| EvSetAxisTick (answer : result (option float))
| EvClick (event : Event)
| EvClearMarks
| EvResize (winfo : Z * Z)
| EvOpenImage (opened : option (Z * Z)) (winfo : Z * Z)
| EvResetToFullCapture (winfo : Z * Z)
| EvStartRoi
| EvRoiPress (event : Event)
| EvRoiDrag (event : Event)
| EvRoiRelease (event : Event) (winfo : Z * Z).

(** The handler bound to each event. *)
Definition handle (ev : UiEvent) : handler unit :=
  match ev with
  | EvSetMode mode => on_app (set_mode mode)
  | EvSetAxisTick answer => on_app (set_axis_tick answer)
  | EvClick event => on_app (on_canvas_click event)
  | EvClearMarks => on_app clear_marks
  | EvResize winfo => on_app (on_resize winfo)
  | EvOpenImage opened winfo => open_image opened winfo
  | EvResetToFullCapture winfo => reset_to_full_capture winfo
  | EvStartRoi => start_roi_mode
  | EvRoiPress event => on_roi_press event
  | EvRoiDrag event => on_roi_drag event
  | EvRoiRelease event winfo => on_roi_release event winfo
  end.

(** The session that [__init__] leaves. *)
Definition init_session : Session := mkSession init None None None.

(** ** Comparing two results *)

(** A result with another value under the key [height_Baseline_y]. *)
Definition with_baseline_y (m : Metrics) (b : option float) : Metrics :=
  {| height_Baseline_y := b;
     height_Control_px := height_Control_px m;
     height_A_px := height_A_px m;
     height_B_px := height_B_px m;
     height_Axis_px := height_Axis_px m;
     axis_auto_used := axis_auto_used m;
     A_as_pct_of_B := A_as_pct_of_B m;
     B_as_pct_of_A := B_as_pct_of_A m;
     delta_A_vs_B_pct := delta_A_vs_B_pct m;
     delta_B_vs_A_pct := delta_B_vs_A_pct m;
     A_as_pct_of_Control := A_as_pct_of_Control m;
     Control_as_pct_of_A := Control_as_pct_of_A m;
     delta_A_vs_Control_pct := delta_A_vs_Control_pct m;
     delta_Control_vs_A_pct := delta_Control_vs_A_pct m;
     B_as_pct_of_Control := B_as_pct_of_Control m;
     Control_as_pct_of_B := Control_as_pct_of_B m;
     delta_B_vs_Control_pct := delta_B_vs_Control_pct m;
     delta_Control_vs_B_pct := delta_Control_vs_B_pct m;
     BaseNorm_Control := BaseNorm_Control m;
     BaseNorm_A := BaseNorm_A m;
     BaseNorm_B := BaseNorm_B m;
     Axis_Value := Axis_Value m |}.

(** Two results agree on everything measured in pixels and on every
    pairwise percentage; the Baseline-normalized values are defined for the
    same markers. *)
Definition same_measurements (m m' : Metrics) : Prop :=
  height_Baseline_y m' = height_Baseline_y m /\
  (forall k, height_px m' k = height_px m k) /\
  height_Axis_px m' = height_Axis_px m /\
  axis_auto_used m' = axis_auto_used m /\
  (forall X Y, as_pct_of m' X Y = as_pct_of m X Y /\ delta_vs m' X Y = delta_vs m X Y) /\
  (forall k, is_Some (base_norm_of m' k) <-> is_Some (base_norm_of m k)).

(** ** Sessions *)

(** A method left the marks alone: the same coordinate under every name,
    the same image, calibration value and mode. *)
Definition keeps_marks (s s' : AnnotatorApp) : Prop :=
  (forall n, slot s' n = slot s n) /\ image s' = image s /\
  axis_value s' = axis_value s /\ current_mode s' = current_mode s.

(** The main loop of Tk calls the handler of each event in turn; an
    exception that a handler raises is reported and the loop goes on with
    the state as the handler left it. *)
Fixpoint run (evs : list UiEvent) (s : Session) : Session :=
  match evs with
  | [] => s
  | ev :: rest => run rest (snd (handle ev s))
  end.

(** An image with at least one pixel and at most [2 ^ 52] rows. *)
Definition image_ok (img : option (Z * Z)) : bool :=
  match img with
  | Some (w, h) => (1 <=? w) && (1 <=? h) && (h <=? 2 ^ 52)
  | None => true
  end.

(** Every image that the event brings in is such an image. *)
Definition sized_event (ev : UiEvent) : bool :=
  match ev with
  | EvOpenImage opened _ => image_ok opened
  | _ => true
  end.

(** What the handlers maintain: the five keys, pixel rows in range, and
    images of that size, the full capture included. *)
Definition session_ok (s : Session) : Prop :=
  registered (app s) /\ in_range (app s) /\
  image_ok (image (app s)) = true /\ image_ok (full_capture s) = true.

(** A coordinate is a pixel of the working image. *)
Definition in_image (self : AnnotatorApp) (p : Z * Z) : bool :=
  match image self with
  | Some (w, h) => (0 <=? fst p) && (fst p <? w) && (0 <=? snd p) && (snd p <? h)
  | None => false
  end.

(** Every placed point is a pixel of the working image. *)
Definition inside (self : AnnotatorApp) : Prop :=
  Forall (fun n => from_option (in_image self) true (coord self n) = true) POINT_NAMES.

(** The events whose handler is [set_image] on a new image. *)
Definition loads_image (ev : UiEvent) : bool :=
  match ev with
  | EvOpenImage _ _ | EvResetToFullCapture _ => true
  | _ => false
  end.

(** The events that replace the full capture. *)
Definition opens (ev : UiEvent) : bool :=
  match ev with
  | EvOpenImage (Some _) _ => true
  | _ => false
  end.

(** ** Sessions of ordinary size *)

(** A display scale as [reset_canvas_image] computes it for images and
    canvases below [2 ^ 53] pixels: two positive normal floats. *)
Definition scale_ok (sc : float * float) : Prop :=
  PyFloat.normal false (-105) 160 (fst sc) /\ PyFloat.normal false (-105) 160 (snd sc).

(** Both coordinates are below [2 ^ 53] in absolute value. *)
Definition small_xy (p : Z * Z) : bool :=
  (Z.abs (fst p) <? 2 ^ 53) && (Z.abs (snd p) <? 2 ^ 53).

(** Every recorded coordinate is. *)
Definition coords_small (self : AnnotatorApp) : Prop :=
  Forall (fun n => from_option small_xy true (coord self n) = true) POINT_NAMES.

(** An image of at least one pixel and at most [2 ^ 52] in each direction. *)
Definition image_small (img : option (Z * Z)) : bool :=
  match img with
  | Some (w, h) => (1 <=? w) && (w <=? 2 ^ 52) && (1 <=? h) && (h <=? 2 ^ 52)
  | None => true
  end.

(** The events of a session of ordinary size: images as above, canvas
    sizes and pointer coordinates below [2 ^ 53]. *)
Definition tame_event (ev : UiEvent) : bool :=
  match ev with
  | EvClick e | EvRoiPress e => small_xy (ev_x e, ev_y e)
  | EvRoiRelease e winfo => small_xy (ev_x e, ev_y e) && small_xy winfo
  | EvResize winfo | EvResetToFullCapture winfo => small_xy winfo
  | EvOpenImage opened winfo => image_small opened && small_xy winfo
  | _ => true
  end.

(** What the handlers maintain in such a session. *)
Definition tame_session (s : Session) : Prop :=
  registered (app s) /\ in_range (app s) /\ coords_small (app s) /\
  scale_ok (display_scale (app s)) /\
  image_small (image (app s)) = true /\ image_small (full_capture s) = true /\
  from_option small_xy true (roi_start s) = true.

(** The handlers that draw the overlay panel. *)
Definition draws_overlay (ev : UiEvent) : bool :=
  match ev with
  | EvClick _ | EvResize _ | EvOpenImage _ _ | EvResetToFullCapture _ => true
  | _ => false
  end.

(** The overlay list holds nothing, or the one panel: the background
    rectangle, created after the text, then the text. *)
Definition one_panel (items : list Z) : Prop :=
  items = [] \/ exists t, items = [t + 1; t].

(** * Properties *)

(** ** Integers below 2^53 convert to floats without rounding *)

Module PyFloatFacts.
Import PyFloat.

Lemma digits2_bounds p :
  2 ^ (Zpos (digits2_pos p) - 1) <= Zpos p < 2 ^ Zpos (digits2_pos p).
Proof.
  induction p as [p IH|p IH|]; simpl digits2_pos.
  - rewrite Pos2Z.inj_succ.
    replace (Z.succ (Zpos (digits2_pos p)) - 1) with (Z.succ (Zpos (digits2_pos p) - 1)) by lia.
    rewrite !Z.pow_succ_r by lia. lia.
  - rewrite Pos2Z.inj_succ.
    replace (Z.succ (Zpos (digits2_pos p)) - 1) with (Z.succ (Zpos (digits2_pos p) - 1)) by lia.
    rewrite !Z.pow_succ_r by lia. lia.
  - simpl. lia.
Qed.

Lemma iter_xO_mul p k : Zpos (Pos.iter xO p k) = Zpos p * 2 ^ Zpos k.
Proof.
  induction k as [|k IH] using Pos.peano_ind.
  - simpl. lia.
  - rewrite Pos.iter_succ, Pos2Z.inj_succ, Z.pow_succ_r by lia.
    rewrite Pos2Z.inj_xO, IH. lia.
Qed.

Lemma iter_xO_digits p k :
  digits2_pos (Pos.iter xO p k) = (digits2_pos p + k)%positive.
Proof.
  induction k as [|k IH] using Pos.peano_ind.
  - simpl. lia.
  - rewrite Pos.iter_succ. simpl. rewrite IH. lia.
Qed.

Lemma round_aux_canonical s m e :
  fexp prec emax (Zpos (digits2_pos m) + e) = e -> e <= emax - prec ->
  binary_round_aux prec emax s (Zpos m) e loc_Exact = S754_finite s m e.
Proof.
  intros Hc He. unfold binary_round_aux, shr_fexp. simpl Zdigits2.
  rewrite Hc, Z.sub_diag. simpl. unfold shr_fexp. simpl Zdigits2.
  rewrite Hc, Z.sub_diag. simpl.
  apply Z.leb_le in He. now rewrite He.
Qed.

(** The float of a non-zero integer below 2^53: the mantissa is the
    magnitude shifted up to 53 digits, nothing is rounded away. *)
Lemma normalize_pos p :
  Zpos (digits2_pos p) <= 53 ->
  exists m,
    (forall s, binary_round prec emax s p 0 = S754_finite s m (Zpos (digits2_pos p) - 53)) /\
    Zpos m = Zpos p * 2 ^ (53 - Zpos (digits2_pos p)) /\
    digits2_pos m = 53%positive.
Proof.
  intros Hd. unfold binary_round, shl_align.
  assert (Hf : fexp prec emax (Zpos (digits2_pos p) + 0) = Zpos (digits2_pos p) - 53).
  { unfold fexp, emin, prec, emax. lia. }
  rewrite Hf.
  destruct (Zpos (digits2_pos p) - 53 - 0) as [|k|k] eqn:Ek; try lia.
  - exists p. assert (Hp : Zpos (digits2_pos p) = 53) by lia.
    rewrite Hp. simpl (53 - 53). split; [|split].
    + intros s. apply round_aux_canonical; [|unfold emax, prec; lia].
      rewrite Hp. reflexivity.
    + simpl. lia.
    + congruence.
  - exists (Pos.iter xO p k). split; [|split].
    + intros s. apply round_aux_canonical; [|unfold emax, prec; lia].
      rewrite iter_xO_digits. unfold fexp, emin, prec, emax. lia.
    + rewrite iter_xO_mul. f_equal. f_equal. lia.
    + rewrite iter_xO_digits. lia.
Qed.

Lemma digits_le_53 p : Zpos p < 2 ^ 53 -> Zpos (digits2_pos p) <= 53.
Proof.
  intros Hp. destruct (Z_le_gt_dec (Zpos (digits2_pos p)) 53) as [|Hgt]; [assumption|].
  exfalso. pose proof (digits2_bounds p) as [Hlo _].
  assert (2 ^ 53 <= 2 ^ (Zpos (digits2_pos p) - 1)) by (apply Z.pow_le_mono_r; lia).
  lia.
Qed.

(** Shape of the float of a non-zero integer of magnitude below 2^53. *)
Lemma round_int_shape z :
  z <> 0 -> Z.abs z < 2 ^ 53 ->
  exists m e,
    round_int z = S754_finite (z <? 0) m e /\ round_int (Z.abs z) = S754_finite false m e /\
    e <= 0 /\ Zpos m = Z.abs z * 2 ^ (- e) /\
    2 ^ (e + 52) <= Z.abs z < 2 ^ (e + 53).
Proof.
  intros Hz Hb. destruct z as [|p|p]; [congruence| |].
  - destruct (normalize_pos p) as (m & Hm & Hv & Hd); [apply digits_le_53; exact Hb|].
    exists m, (Zpos (digits2_pos p) - 53). pose proof (digits_le_53 p Hb).
    pose proof (digits2_bounds p).
    unfold round_int. simpl. rewrite Hm. repeat split; try lia.
    + rewrite Hv. f_equal. f_equal. lia.
    + replace (Z.pos (digits2_pos p) - 53 + 52) with (Zpos (digits2_pos p) - 1) by lia. lia.
    + replace (Z.pos (digits2_pos p) - 53 + 53) with (Zpos (digits2_pos p)) by lia. lia.
  - destruct (normalize_pos p) as (m & Hm & Hv & Hd); [apply digits_le_53; exact Hb|].
    exists m, (Zpos (digits2_pos p) - 53). pose proof (digits_le_53 p Hb).
    pose proof (digits2_bounds p).
    unfold round_int. simpl. rewrite !Hm. repeat split; try lia.
    + rewrite Hv. f_equal. f_equal. lia.
    + replace (Z.pos (digits2_pos p) - 53 + 52) with (Zpos (digits2_pos p) - 1) by lia. lia.
    + replace (Z.pos (digits2_pos p) - 53 + 53) with (Zpos (digits2_pos p)) by lia. lia.
Qed.

Lemma of_int_small z : Z.abs z < 2 ^ 53 -> of_int z = Return (round_int z).
Proof.
  intros Hb. unfold of_int. fold (round_int z). destruct (Z.eq_dec z 0) as [->|Hz]; [reflexivity|].
  destruct (round_int_shape z Hz Hb) as (m & e & -> & _). reflexivity.
Qed.

Lemma is_zero_round_int z : Z.abs z < 2 ^ 53 -> is_zero (round_int z) = (z =? 0).
Proof.
  intros Hb. destruct (Z.eq_dec z 0) as [->|Hz]; [reflexivity|].
  destruct (round_int_shape z Hz Hb) as (m & e & -> & _).
  apply Z.eqb_neq in Hz. rewrite Hz. unfold is_zero, eqb, SFeqb. simpl.
  now destruct (z <? 0).
Qed.

Lemma abs_round_int z : Z.abs z < 2 ^ 53 -> abs (round_int z) = round_int (Z.abs z).
Proof.
  intros Hb. destruct (Z.eq_dec z 0) as [->|Hz]; [reflexivity|].
  destruct (round_int_shape z Hz Hb) as (m & e & -> & -> & _). reflexivity.
Qed.

Lemma exact_int_round_int z : Z.abs z < 2 ^ 53 -> exact_int (round_int z) = Some z.
Proof.
  intros Hb. destruct (Z.eq_dec z 0) as [->|Hz]; [reflexivity|].
  destruct (round_int_shape z Hz Hb) as (m & e & -> & _ & He & Hm & _).
  unfold exact_int, is_integer, to_int.
  destruct e as [|k|k]; try lia.
  - simpl in Hm. rewrite Z.shiftl_0_r, Hm. f_equal.
    destruct (Z.ltb_spec z 0); lia.
  - rewrite Z.land_ones by lia. rewrite Z.shiftr_div_pow2 by lia.
    rewrite Hm. simpl (- Z.neg k).
    rewrite Z.mod_mul by (apply Z.pow_nonzero; lia). simpl (0 =? 0).
    rewrite Z.div_mul by (apply Z.pow_nonzero; lia). f_equal.
    destruct (Z.ltb_spec z 0); lia.
Qed.

Lemma compare_round_int a b :
  0 <= a < 2 ^ 53 -> 0 <= b < 2 ^ 53 -> SFcompare (round_int a) (round_int b) = Some (a ?= b).
Proof.
  intros Ha Hb.
  destruct (Z.eq_dec a 0) as [->|Hza]; destruct (Z.eq_dec b 0) as [->|Hzb].
  - reflexivity.
  - destruct (round_int_shape b Hzb) as (m & e & -> & _); [lia|].
    replace (b <? 0) with false by (symmetry; apply Z.ltb_ge; lia).
    assert (Hc : (0 ?= b) = Lt) by (apply Z.compare_lt_iff; lia).
    rewrite Hc. reflexivity.
  - destruct (round_int_shape a Hza) as (m & e & -> & _); [lia|].
    replace (a <? 0) with false by (symmetry; apply Z.ltb_ge; lia).
    assert (Hc : (a ?= 0) = Gt) by (apply Z.compare_gt_iff; lia).
    rewrite Hc. reflexivity.
  - destruct (round_int_shape a Hza) as (ma & ea & -> & _ & Hea & Hma & Hra); [lia|].
    destruct (round_int_shape b Hzb) as (mb & eb & -> & _ & Heb & Hmb & Hrb); [lia|].
    replace (a <? 0) with false by (symmetry; apply Z.ltb_ge; lia).
    replace (b <? 0) with false by (symmetry; apply Z.ltb_ge; lia).
    rewrite !Z.abs_eq in * by lia.
    cbn [SFcompare]. f_equal. destruct (Z.compare_spec ea eb) as [Heq|Hlt|Hgt].
    + subst eb. change (Pos.compare_cont Eq ma mb) with (Zpos ma ?= Zpos mb).
      rewrite Hma, Hmb.
      assert (0 < 2 ^ (- ea)) by (apply Z.pow_pos_nonneg; lia).
      destruct (Z.compare_spec a b) as [->|H1|H1].
      * apply Z.compare_refl.
      * apply Z.compare_lt_iff. nia.
      * apply Z.compare_gt_iff. nia.
    + symmetry. apply Z.compare_lt_iff.
      assert (2 ^ (ea + 53) <= 2 ^ (eb + 52)) by (apply Z.pow_le_mono_r; lia). lia.
    + symmetry. apply Z.compare_gt_iff.
      assert (2 ^ (eb + 53) <= 2 ^ (ea + 52)) by (apply Z.pow_le_mono_r; lia). lia.
Qed.

Lemma gtb_round_int a b :
  0 <= a < 2 ^ 53 -> 0 <= b < 2 ^ 53 -> gtb (round_int a) (round_int b) = (b <? a).
Proof.
  intros Ha Hb. unfold gtb, SFltb. rewrite compare_round_int by assumption.
  unfold Z.ltb. now destruct (b ?= a).
Qed.

Lemma max_from_round_int l : forall x,
  0 <= x < 2 ^ 53 -> Forall (fun y => 0 <= y < 2 ^ 53) l ->
  max_from (round_int x) (map round_int l) = round_int (fold_left Z.max l x).
Proof.
  induction l as [|y l IH]; intros x Hx Hl; [reflexivity|].
  inversion Hl as [|? ? Hy Hl']; subst. unfold max_from in *. simpl.
  rewrite gtb_round_int by assumption.
  destruct (Z.ltb_spec x y).
  - rewrite Z.max_r by lia. now apply IH.
  - rewrite Z.max_l by lia. now apply IH.
Qed.

(** ** Rounding: magnitude and sign of products, differences and quotients *)

Lemma shr_1_half r : 0 <= shr_m r -> shr_m (shr_1 r) = shr_m r / 2.
Proof.
  destruct r as [m r s]. simpl. intros Hm.
  destruct m as [|[p|p|]|p]; simpl; try reflexivity; try lia.
  - rewrite Pos2Z.inj_xI. apply Z.div_unique with 1; lia.
  - rewrite Pos2Z.inj_xO. apply Z.div_unique with 0; lia.
Qed.

Lemma shr_iter n : forall r,
  0 <= shr_m r -> shr_m (SpecFloat.iter_pos shr_1 n r) = shr_m r / 2 ^ Zpos n.
Proof.
  assert (Hnn : forall k r, 0 <= shr_m r -> 0 <= shr_m r / 2 ^ Zpos k).
  { intros k r Hr. apply Z.div_pos; [exact Hr|]. apply Z.pow_pos_nonneg; lia. }
  induction n as [n IH|n IH|]; intros r Hr; cbn [SpecFloat.iter_pos].
  - assert (H1 : 0 <= shr_m (shr_1 r)).
    { rewrite shr_1_half by exact Hr. apply Z.div_pos; lia. }
    rewrite IH; [|rewrite IH by exact H1; now apply Hnn].
    rewrite IH by exact H1. rewrite shr_1_half by exact Hr.
    rewrite !Z.div_div by (try apply Z.pow_pos_nonneg; lia).
    f_equal. rewrite Pos2Z.inj_xI, <- Z.pow_add_r by lia.
    replace (2 * Zpos n + 1) with (1 + (Zpos n + Zpos n)) by lia.
    rewrite (Z.pow_add_r 2 1) by lia. reflexivity.
  - rewrite IH; [|rewrite IH by exact Hr; now apply Hnn].
    rewrite IH by exact Hr.
    rewrite !Z.div_div by (try apply Z.pow_pos_nonneg; lia).
    f_equal. rewrite Pos2Z.inj_xO, <- Z.pow_add_r by lia. f_equal. lia.
  - now rewrite shr_1_half.
Qed.

Lemma Zdigits2_lt m : 0 <= m -> m < 2 ^ Zdigits2 m.
Proof.
  destruct m as [|p|p]; simpl; try lia. intros _. apply digits2_bounds.
Qed.

Lemma Zdigits2_le m k : 0 <= m < 2 ^ k -> 0 <= k -> 0 <= Zdigits2 m <= k.
Proof.
  intros Hm Hk. destruct m as [|p|p]; simpl; try lia.
  pose proof (digits2_bounds p) as [Hlo _]. split; [lia|].
  destruct (Z_le_gt_dec (Zpos (digits2_pos p)) k) as [|Hgt]; [assumption|].
  assert (2 ^ k <= 2 ^ (Zpos (digits2_pos p) - 1)) by (apply Z.pow_le_mono_r; lia).
  lia.
Qed.

(** After the shift to the format's exponent at most 53 digits remain. *)
Lemma shr_fexp_tight m e l :
  0 <= m ->
  0 <= shr_m (fst (shr_fexp prec emax m e l)) < 2 ^ 53 /\
  snd (shr_fexp prec emax m e l) = Z.max e (fexp prec emax (Zdigits2 m + e)).
Proof.
  intros Hm. unfold shr_fexp, shr.
  assert (H0 : shr_m (shr_record_of_loc m l) = m) by (now destruct l as [|[]]).
  pose proof (Zdigits2_lt m Hm) as Hd.
  assert (Hd0 : 0 <= Zdigits2 m) by (destruct m; simpl; lia).
  set (d := Zdigits2 m) in *.
  assert (Hf : d + e - 53 <= fexp prec emax (d + e))
    by (unfold fexp, emin, prec, emax; lia).
  destruct (fexp prec emax (d + e) - e) as [|p|p] eqn:E; cbn [fst snd].
  - rewrite H0. split; [|lia]. split; [lia|].
    apply Z.lt_le_trans with (2 ^ d); [exact Hd|]. apply Z.pow_le_mono_r; lia.
  - split; [|lia]. rewrite shr_iter by (rewrite H0; lia). rewrite H0.
    assert (0 < 2 ^ Zpos p) by (apply Z.pow_pos_nonneg; lia).
    split; [apply Z.div_pos; lia|].
    destruct (Z_le_gt_dec (Zpos p) d) as [Hle|Hgt].
    + apply Z.lt_le_trans with (2 ^ (d - Zpos p)).
      * apply Z.div_lt_upper_bound; [lia|].
        rewrite <- Z.pow_add_r by lia. now replace (Zpos p + (d - Zpos p)) with d by lia.
      * apply Z.pow_le_mono_r; lia.
    + rewrite Z.div_small; [lia|]. split; [lia|].
      apply Z.lt_le_trans with (2 ^ d); [exact Hd|]. apply Z.pow_le_mono_r; lia.
  - rewrite H0. split; [|lia]. split; [lia|].
    apply Z.lt_le_trans with (2 ^ d); [exact Hd|]. apply Z.pow_le_mono_r; lia.
Qed.

Lemma round_nearest_even_range m l : m <= round_nearest_even m l <= m + 1.
Proof. destruct l as [|[]]; simpl; try lia. destruct (Z.even m); lia. Qed.

(** Rounding gives zero or a finite float of at most 53 digits, provided the
    exponent stays in range. *)
Lemma round_aux_within s m e l k :
  0 <= m < 2 ^ k -> 0 <= k ->
  Z.max (Z.max e (e + k - 53)) (-1074) + 1 <= 971 ->
  within (Z.max (Z.max e (e + k - 53)) (-1074) + 1) (binary_round_aux prec emax s m e l).
Proof.
  intros Hm Hk He. unfold binary_round_aux.
  pose proof (shr_fexp_tight m e l ltac:(lia)) as [Hr1 He1].
  destruct (shr_fexp prec emax m e l) as [r1 e1]. cbn [fst snd] in Hr1, He1.
  set (m1 := round_nearest_even (shr_m r1) (loc_of_shr_record r1)).
  pose proof (round_nearest_even_range (shr_m r1) (loc_of_shr_record r1)) as Hm1.
  fold m1 in Hm1.
  pose proof (shr_fexp_tight m1 e1 loc_Exact ltac:(lia)) as [Hr2 He2].
  destruct (shr_fexp prec emax m1 e1 loc_Exact) as [r2 e2]. cbn [fst snd] in Hr2, He2.
  pose proof (Zdigits2_le m k Hm Hk) as Hd.
  assert (H54 : 2 ^ 54 = 2 * 2 ^ 53) by reflexivity.
  pose proof (Zdigits2_le m1 54 ltac:(lia) ltac:(lia)) as Hd1.
  assert (Hb : e2 <= Z.max (Z.max e (e + k - 53)) (-1074) + 1).
  { subst e1 e2. unfold fexp, emin, prec, emax. lia. }
  destruct (shr_m r2) as [|p|p] eqn:Ep; simpl; [exact I| |lia].
  assert (Hle : (e2 <=? emax - prec) = true) by (apply Z.leb_le; unfold emax, prec; lia).
  rewrite Hle. simpl. lia.
Qed.

Lemma within_weaken hi hi' f : within hi f -> hi <= hi' -> within hi' f.
Proof. destruct f; simpl; try tauto. lia. Qed.

Lemma within_finite hi f : within hi f -> is_finite f = true.
Proof. destruct f; simpl; tauto. Qed.

(** The float of a small non-zero integer, as a divisor. *)
Lemma round_int_finite z :
  z <> 0 -> Z.abs z < 2 ^ 53 ->
  exists s m e, round_int z = S754_finite s m e /\ -52 <= e <= 0 /\ Zpos m < 2 ^ 53.
Proof.
  intros Hz Hb. destruct (round_int_shape z Hz Hb) as (m & e & Hr & _ & He & Hm & Hlo & Hhi).
  exists (z <? 0), m, e. split; [exact Hr|].
  assert (He53 : 0 < e + 53).
  { destruct (Z_lt_le_dec 0 (e + 53)) as [|Hneg]; [assumption|].
    destruct (Z.eq_dec (e + 53) 0) as [E0|Hne].
    - rewrite E0 in Hhi. simpl in Hhi. lia.
    - rewrite Z.pow_neg_r in Hhi by lia. lia. }
  split; [lia|]. rewrite Hm.
  replace (2 ^ 53) with (2 ^ (e + 53) * 2 ^ (- e))
    by (rewrite <- Z.pow_add_r by lia; f_equal; lia).
  apply Z.mul_lt_mono_pos_r; [apply Z.pow_pos_nonneg; lia|exact Hhi].
Qed.

Lemma round_int_within z : Z.abs z < 2 ^ 53 -> within 0 (round_int z).
Proof.
  intros Hb. destruct (Z.eq_dec z 0) as [->|Hz]; [exact I|].
  destruct (round_int_finite z Hz Hb) as (s & m & e & -> & He & Hm). simpl. lia.
Qed.

Lemma mul_within a b ha hb :
  within ha a -> within hb b -> Z.max (ha + hb + 53) (-1074) + 1 <= 971 ->
  within (Z.max (ha + hb + 53) (-1074) + 1) (mul a b).
Proof.
  intros Ha Hb Hhi. destruct a as [sa|sa| |sa ma ea], b as [sb|sb| |sb mb eb];
    simpl in Ha, Hb; try contradiction; try exact I.
  unfold mul, SFmul. destruct Ha as [Hma Hea], Hb as [Hmb Heb].
  eapply within_weaken.
  - apply (round_aux_within _ _ _ _ 106); [|lia|lia].
    rewrite Pos2Z.inj_mul. change (2 ^ 106) with (2 ^ 53 * 2 ^ 53). nia.
  - lia.
Qed.

Lemma binary_round_within s p e k :
  Zpos p < 2 ^ k -> 53 <= k ->
  Z.max (Z.max e (e + k - 53)) (-1074) + 1 <= 971 ->
  within (Z.max (Z.max e (e + k - 53)) (-1074) + 1) (binary_round prec emax s p e).
Proof.
  intros Hp Hk Hhi. unfold binary_round, shl_align.
  set (t := fexp prec emax (Zpos (digits2_pos p) + e)).
  assert (Ht : Zpos (digits2_pos p) + e - 53 <= t)
    by (unfold t, fexp, emin, prec, emax; lia).
  destruct (t - e) as [|d|d] eqn:E.
  - apply (round_aux_within _ _ _ _ k); lia.
  - apply (round_aux_within _ _ _ _ k); lia.
  - eapply within_weaken.
    + apply (round_aux_within _ _ _ _ k); [|lia|lia].
      rewrite iter_xO_mul. pose proof (digits2_bounds p) as [_ Hd]. split; [lia|].
      apply Z.lt_le_trans with (2 ^ Zpos (digits2_pos p) * 2 ^ Zpos d).
      * apply Z.mul_lt_mono_pos_r; [apply Z.pow_pos_nonneg; lia|exact Hd].
      * rewrite <- Z.pow_add_r by lia. apply Z.pow_le_mono_r; lia.
    + lia.
Qed.

Lemma shl_align_fst m e e' :
  e' <= e -> Zpos (fst (shl_align m e e')) = Zpos m * 2 ^ (e - e').
Proof.
  intros He. unfold shl_align. destruct (e' - e) as [|d|d] eqn:E; cbn [fst]; try lia.
  - replace (e - e') with 0 by lia. simpl. lia.
  - rewrite iter_xO_mul. f_equal. f_equal. lia.
Qed.

Lemma sub_within x y :
  Z.abs x < 2 ^ 53 -> Z.abs y < 2 ^ 53 ->
  within 54 (sub (round_int x) (round_int y)).
Proof.
  intros Hx Hy.
  destruct (Z.eq_dec x 0) as [->|Hzx]; destruct (Z.eq_dec y 0) as [->|Hzy].
  - exact I.
  - destruct (round_int_finite y Hzy Hy) as (s & m & e & -> & He & Hm). simpl. lia.
  - destruct (round_int_finite x Hzx Hx) as (s & m & e & -> & He & Hm). simpl. lia.
  - destruct (round_int_finite x Hzx Hx) as (sx & mx & ex & -> & Hex & Hmx).
    destruct (round_int_finite y Hzy Hy) as (sy & my & ey & -> & Hey & Hmy).
    unfold sub, SFsub.
    set (ez := Z.min ex ey).
    pose proof (shl_align_fst mx ex ez ltac:(lia)) as Hax.
    pose proof (shl_align_fst my ey ez ltac:(lia)) as Hay.
    set (ax := Zpos (fst (shl_align mx ex ez))) in *.
    set (ay := Zpos (fst (shl_align my ey ez))) in *.
    assert (Hpx : 0 < ax < 2 ^ 105).
    { rewrite Hax. split; [apply Z.mul_pos_pos; [lia|apply Z.pow_pos_nonneg; lia]|].
      change (2 ^ 105) with (2 ^ 53 * 2 ^ 52).
      assert (0 < 2 ^ (ex - ez) <= 2 ^ 52)
        by (split; [apply Z.pow_pos_nonneg; lia|apply Z.pow_le_mono_r; lia]).
      nia. }
    assert (Hpy : 0 < ay < 2 ^ 105).
    { rewrite Hay. split; [apply Z.mul_pos_pos; [lia|apply Z.pow_pos_nonneg; lia]|].
      change (2 ^ 105) with (2 ^ 53 * 2 ^ 52).
      assert (0 < 2 ^ (ey - ez) <= 2 ^ 52)
        by (split; [apply Z.pow_pos_nonneg; lia|apply Z.pow_le_mono_r; lia]).
      nia. }
    assert (H106 : 2 ^ 106 = 2 * 2 ^ 105) by reflexivity.
    assert (HM : Z.abs (cond_Zopp sx ax - cond_Zopp sy ay) < 2 ^ 106)
      by (destruct sx, sy; simpl; lia).
    destruct (cond_Zopp sx ax - cond_Zopp sy ay) as [|p|p]; [exact I| |];
      cbn [binary_normalize]; (eapply within_weaken;
        [apply (binary_round_within _ _ _ 106); [exact HM|lia|lia]|lia]).
Qed.

Lemma div_within a y ha :
  within ha a -> y <> 0 -> Z.abs y < 2 ^ 53 ->
  Z.max (ha + 105) (-1074) + 1 <= 971 ->
  within (Z.max (ha + 105) (-1074) + 1) (SFdiv prec emax a (round_int y)).
Proof.
  intros Ha Hzy Hy Hhi.
  destruct (round_int_finite y Hzy Hy) as (sy & my & ey & -> & Hey & Hmy).
  destruct a as [sa|sa| |sa ma ea]; simpl in Ha; try contradiction; [exact I|].
  destruct Ha as [Hma Hea]. unfold SFdiv, SFdiv_core_binary.
  cbn [Zdigits2].
  pose proof (digits2_bounds ma) as [_ Hda].
  pose proof (Zdigits2_le (Zpos my) 53 ltac:(lia) ltac:(lia)) as Hdy. cbn [Zdigits2] in Hdy.
  set (da := Zpos (digits2_pos ma)) in *. set (dy := Zpos (digits2_pos my)) in *.
  set (e' := Z.min (fexp prec emax (da + ea - (dy + ey))) (ea - ey)).
  assert (He' : ea - ey - e' <= Z.max (53 + dy - da) 0 /\ 0 <= ea - ey - e')
    by (unfold e', fexp, emin, prec, emax; lia).
  set (m' := match ea - ey - e' with
             | Z0 => Zpos ma
             | Zpos _ => Z.shiftl (Zpos ma) (ea - ey - e')
             | Zneg _ => 0
             end).
  assert (Hm' : 0 <= m' < 2 ^ 106).
  { unfold m'. destruct (ea - ey - e') as [|s|s] eqn:Es; [lia| |lia].
    rewrite Z.shiftl_mul_pow2 by lia.
    assert (0 < 2 ^ Zpos s) by (apply Z.pow_pos_nonneg; lia).
    split; [nia|].
    apply Z.lt_le_trans with (2 ^ da * 2 ^ Zpos s).
    - apply Z.mul_lt_mono_pos_r; lia.
    - rewrite <- Z.pow_add_r by lia. apply Z.pow_le_mono_r; lia. }
  destruct (Z.div_eucl m' (Zpos my)) as [q r] eqn:Eq.
  assert (Hq : q = m' / Zpos my) by (unfold Z.div; now rewrite Eq).
  assert (Hqb : 0 <= q < 2 ^ 106).
  { rewrite Hq. split; [apply Z.div_pos; lia|].
    apply Z.le_lt_trans with m'; [|lia].
    apply Z.div_le_upper_bound; [lia|nia]. }
  eapply within_weaken.
  - apply (round_aux_within _ _ _ _ 106); [exact Hqb|lia|].
    unfold e'. lia.
  - unfold e'. lia.
Qed.

(** [100.0 * n / d] and [100.0 * (n1 - n2) / d] over pixel heights are
    finite floats. *)
Lemma pct_finite x y :
  Z.abs x < 2 ^ 53 -> Z.abs y < 2 ^ 53 -> y <> 0 ->
  is_finite (SFdiv prec emax (mul hundred (round_int x)) (round_int y)) = true.
Proof.
  intros Hx Hy Hzy. eapply within_finite, div_within; [|exact Hzy|exact Hy|].
  - apply (mul_within _ _ 0 0); [apply (round_int_within 100); reflexivity| |].
    + now apply round_int_within.
    + lia.
  - lia.
Qed.

Lemma delta_finite x y :
  Z.abs x < 2 ^ 53 -> Z.abs y < 2 ^ 53 -> y <> 0 ->
  is_finite (SFdiv prec emax
               (mul hundred (sub (round_int x) (round_int y))) (round_int y)) = true.
Proof.
  intros Hx Hy Hzy. eapply within_finite, div_within; [|exact Hzy|exact Hy|].
  - apply (mul_within _ _ 0 54); [apply (round_int_within 100); reflexivity| |].
    + now apply sub_within.
    + lia.
  - lia.
Qed.

Lemma Zdigits2_eq m k : 2 ^ (k - 1) <= m < 2 ^ k -> 1 <= k -> Zdigits2 m = k.
Proof.
  intros Hm Hk. assert (0 < 2 ^ (k - 1)) by (apply Z.pow_pos_nonneg; lia).
  destruct m as [|p|p]; try lia. simpl.
  pose proof (digits2_bounds p) as [Hlo Hhi]. set (d := Zpos (digits2_pos p)) in *.
  destruct (Z.lt_trichotomy d k) as [Hlt|[Heq|Hgt]]; [|exact Heq|].
  - assert (2 ^ d <= 2 ^ (k - 1)) by (apply Z.pow_le_mono_r; lia). lia.
  - assert (2 ^ k <= 2 ^ (d - 1)) by (apply Z.pow_le_mono_r; lia). lia.
Qed.

(** Rounding a mantissa of at least 53 digits gives a normal float when the
    exponent stays in the normal range. *)
Lemma round_aux_normal s m e l d :
  2 ^ (d - 1) <= m < 2 ^ d -> 53 <= d ->
  -1074 <= e + d - 53 -> e + d - 52 <= 971 ->
  normal s (e + d - 53) (e + d - 52) (binary_round_aux prec emax s m e l).
Proof.
  intros Hm Hd Hlo Hhi. unfold binary_round_aux.
  assert (Hpos : 0 < 2 ^ (d - 1)) by (apply Z.pow_pos_nonneg; lia).
  pose proof (Zdigits2_eq m d Hm ltac:(lia)) as Hdm.
  assert (Hf : fexp prec emax (d + e) = e + d - 53)
    by (unfold fexp, emin, prec, emax; lia).
  assert (H1 : 2 ^ 52 <= shr_m (fst (shr_fexp prec emax m e l)) < 2 ^ 53 /\
               snd (shr_fexp prec emax m e l) = e + d - 53).
  { pose proof (shr_fexp_tight m e l ltac:(lia)) as [Hr He].
    split; [|rewrite He, Hdm, Hf; lia]. split; [|lia].
    unfold shr_fexp, shr. rewrite Hdm, Hf.
    assert (H0 : shr_m (shr_record_of_loc m l) = m) by (now destruct l as [|[]]).
    destruct (e + d - 53 - e) as [|p|p] eqn:E; cbn [fst]; try lia.
    - rewrite H0. replace d with 53 in Hm by lia. exact (proj1 Hm).
    - rewrite shr_iter by (rewrite H0; lia). rewrite H0.
      apply Z.div_le_lower_bound; [apply Z.pow_pos_nonneg; lia|].
      rewrite <- Z.pow_add_r by lia. replace (Zpos p + 52) with (d - 1) by lia.
      exact (proj1 Hm). }
  destruct (shr_fexp prec emax m e l) as [r1 e1]. cbn [fst snd] in H1.
  destruct H1 as [Hr1 He1].
  set (m1 := round_nearest_even (shr_m r1) (loc_of_shr_record r1)).
  pose proof (round_nearest_even_range (shr_m r1) (loc_of_shr_record r1)) as Hm1.
  fold m1 in Hm1.
  assert (H2 : 2 ^ 52 <= shr_m (fst (shr_fexp prec emax m1 e1 loc_Exact)) < 2 ^ 53 /\
               e1 <= snd (shr_fexp prec emax m1 e1 loc_Exact) <= e1 + 1).
  { destruct (Z.eq_dec m1 (2 ^ 53)) as [E53|Hne].
    - unfold shr_fexp, shr. rewrite E53.
      replace (fexp prec emax (Zdigits2 (2 ^ 53) + e1) - e1) with 1
        by (unfold fexp, emin, prec, emax; simpl Zdigits2; lia).
      cbn [fst snd]. split; [|lia]. vm_compute. split; [discriminate|reflexivity].
    - assert (Hd1 : Zdigits2 m1 = 53) by (apply Zdigits2_eq; [simpl (53 - 1)|]; lia).
      unfold shr_fexp, shr. rewrite Hd1.
      replace (fexp prec emax (53 + e1) - e1) with 0
        by (unfold fexp, emin, prec, emax; lia).
      cbn [fst snd]. simpl. lia. }
  destruct (shr_fexp prec emax m1 e1 loc_Exact) as [r2 e2]. cbn [fst snd] in H2.
  destruct H2 as [Hr2 He2].
  assert (0 < 2 ^ 52) by reflexivity.
  destruct (shr_m r2) as [|p|p] eqn:Ep; try lia.
  assert (Hle : (e2 <=? emax - prec) = true) by (apply Z.leb_le; unfold emax, prec; lia).
  rewrite Hle. simpl. repeat split; lia.
Qed.

Lemma normal_weaken s lo hi lo' hi' f :
  normal s lo hi f -> lo' <= lo -> hi <= hi' -> normal s lo' hi' f.
Proof. destruct f; simpl; try tauto. intros (-> & ? & ?) ? ?. repeat split; lia. Qed.

Lemma round_int_normal z :
  z <> 0 -> Z.abs z < 2 ^ 53 -> normal (z <? 0) (-52) 0 (round_int z).
Proof.
  intros Hz Hb. destruct (round_int_shape z Hz Hb) as (m & e & Hr & _ & He & Hm & Hlo & Hhi).
  destruct (round_int_finite z Hz Hb) as (s' & m' & e' & Hr' & He' & Hm').
  rewrite Hr in Hr'. injection Hr' as <- <- <-. rewrite Hr. simpl.
  split; [reflexivity|]. split; [|lia]. split; [|exact Hm'].
  rewrite Hm. replace (2 ^ 52) with (2 ^ (e + 52) * 2 ^ (- e))
    by (rewrite <- Z.pow_add_r by lia; f_equal; lia).
  apply Z.mul_le_mono_nonneg_r; [apply Z.pow_nonneg; lia|exact Hlo].
Qed.

Lemma binary_round_normal s p e :
  -1074 <= e + Zpos (digits2_pos p) - 53 -> e + Zpos (digits2_pos p) - 52 <= 971 ->
  normal s (e + Zpos (digits2_pos p) - 53) (e + Zpos (digits2_pos p) - 52)
    (binary_round prec emax s p e).
Proof.
  intros Hlo Hhi. unfold binary_round, shl_align.
  pose proof (digits2_bounds p) as Hp. set (d := Zpos (digits2_pos p)) in *.
  replace (fexp prec emax (d + e)) with (d + e - 53)
    by (unfold fexp, emin, prec, emax; lia).
  destruct (d + e - 53 - e) as [|k|k] eqn:E.
  - eapply normal_weaken; [apply (round_aux_normal _ _ _ _ d); try lia| |]; lia.
  - eapply normal_weaken; [apply (round_aux_normal _ _ _ _ d); try lia| |]; lia.
  - eapply normal_weaken; [apply (round_aux_normal _ _ _ _ 53); try lia| |]; try lia.
    rewrite iter_xO_mul. replace (Zpos k) with (53 - d) by lia.
    assert (0 < 2 ^ (53 - d)) by (apply Z.pow_pos_nonneg; lia).
    replace (2 ^ (53 - 1)) with (2 ^ (d - 1) * 2 ^ (53 - d))
      by (rewrite <- Z.pow_add_r by lia; f_equal; lia).
    replace (2 ^ 53) with (2 ^ d * 2 ^ (53 - d))
      by (rewrite <- Z.pow_add_r by lia; f_equal; lia).
    nia.
Qed.

Lemma mul_hundred_normal s lo hi f :
  normal s lo hi f -> -1074 <= lo + 6 -> hi + 8 <= 971 ->
  normal s (lo + 6) (hi + 8) (mul hundred f).
Proof.
  intros Hf Hlo Hhi. destruct f as [| | |s' m e]; simpl in Hf; try contradiction.
  destruct Hf as (-> & Hm & He).
  change hundred with (S754_finite false 7036874417766400 (-46)).
  unfold mul, SFmul. cbn [xorb]. rewrite Pos2Z.inj_mul.
  assert (H104 : 2 ^ 104 <= 7036874417766400 * Zpos m < 2 ^ 106).
  { change (2 ^ 104) with (2 ^ 52 * 2 ^ 52). change (2 ^ 106) with (2 ^ 53 * 2 ^ 53).
    assert (2 ^ 52 <= 7036874417766400 < 2 ^ 53) by (split; [discriminate|reflexivity]).
    nia. }
  destruct (Z_lt_le_dec (7036874417766400 * Zpos m) (2 ^ 105)).
  - eapply normal_weaken; [apply (round_aux_normal _ _ _ _ 105); try lia| |]; try lia.
    all: simpl (105 - 1); lia.
  - eapply normal_weaken; [apply (round_aux_normal _ _ _ _ 106); try lia| |]; try lia.
    all: simpl (106 - 1); lia.
Qed.

Lemma div_normal sa lo hi a y :
  normal sa lo hi a -> y <> 0 -> Z.abs y < 2 ^ 53 ->
  -1074 <= lo - 53 -> hi + 1 <= 971 ->
  normal (xorb sa (y <? 0)) (lo - 53) (hi + 1) (SFdiv prec emax a (round_int y)).
Proof.
  intros Ha Hzy Hy Hlo Hhi.
  pose proof (round_int_normal y Hzy Hy) as Hn.
  destruct (round_int y) as [| | |sy my ey]; simpl in Hn; try contradiction.
  destruct Hn as (-> & Hmy & Hey).
  destruct a as [| | |s' ma ea]; simpl in Ha; try contradiction.
  destruct Ha as (-> & Hma & Hea). unfold SFdiv, SFdiv_core_binary.
  rewrite (Zdigits2_eq (Zpos ma) 53), (Zdigits2_eq (Zpos my) 53)
    by (simpl (53 - 1); lia).
  replace (Z.min (fexp prec emax (53 + ea - (53 + ey))) (ea - ey)) with (ea - ey - 53)
    by (unfold fexp, emin, prec, emax; lia).
  replace (ea - ey - (ea - ey - 53)) with 53 by lia.
  rewrite Z.shiftl_mul_pow2 by lia.
  destruct (Z.div_eucl (Zpos ma * 2 ^ 53) (Zpos my)) as [q r] eqn:Eq.
  assert (Hq : q = (Zpos ma * 2 ^ 53) / Zpos my) by (unfold Z.div; now rewrite Eq).
  assert (Hqb : 2 ^ 52 <= q < 2 ^ 54).
  { rewrite Hq. split.
    - apply Z.div_le_lower_bound; lia.
    - apply Z.div_lt_upper_bound; lia. }
  destruct (Z_lt_le_dec q (2 ^ 53)).
  - eapply normal_weaken; [apply (round_aux_normal _ _ _ _ 53); try lia| |]; try lia.
    all: simpl (53 - 1); lia.
  - eapply normal_weaken; [apply (round_aux_normal _ _ _ _ 54); try lia| |]; try lia.
    all: simpl (54 - 1); lia.
Qed.

Lemma cond_Zopp_aligned z m e ez :
  z <> 0 -> Zpos m = Z.abs z * 2 ^ (- e) -> ez <= e -> e <= 0 ->
  cond_Zopp (z <? 0) (Zpos (fst (shl_align m e ez))) = z * 2 ^ (- ez).
Proof.
  intros Hz Hm Hez He. rewrite shl_align_fst by exact Hez. rewrite Hm.
  rewrite <- Z.mul_assoc, <- Z.pow_add_r by lia.
  replace (- e + (e - ez)) with (- ez) by lia.
  destruct (Z.ltb_spec z 0); simpl; lia.
Qed.

(** The difference of two distinct small integers is a normal float with
    the sign of the integer difference. *)
Lemma sub_normal x y :
  Z.abs x < 2 ^ 53 -> Z.abs y < 2 ^ 53 -> x <> y ->
  normal (x <? y) (-105) 55 (sub (round_int x) (round_int y)).
Proof.
  intros Hx Hy Hxy.
  destruct (Z.eq_dec x 0) as [->|Hzx]; destruct (Z.eq_dec y 0) as [->|Hzy];
    try congruence.
  - pose proof (round_int_normal y Hzy Hy) as Hn.
    destruct (round_int y) as [| | |sy my ey]; simpl in Hn; try contradiction.
    destruct Hn as (-> & Hmy & Hey). simpl. split; [|lia].
    destruct (Z.ltb_spec y 0), (Z.ltb_spec 0 y); simpl; try reflexivity; lia.
  - pose proof (round_int_normal x Hzx Hx) as Hn.
    destruct (round_int x) as [| | |sx mx ex]; simpl in Hn; try contradiction.
    destruct Hn as (-> & Hmx & Hex). simpl. split; [|lia]. reflexivity.
  - destruct (round_int_shape x Hzx Hx) as (mx & ex & Hrx & _ & _ & Hvx & _).
    destruct (round_int_shape y Hzy Hy) as (my & ey & Hry & _ & _ & Hvy & _).
    destruct (round_int_finite x Hzx Hx) as (? & ? & ? & Hrx' & Hex & _).
    destruct (round_int_finite y Hzy Hy) as (? & ? & ? & Hry' & Hey & _).
    rewrite Hrx in Hrx'. rewrite Hry in Hry'.
    injection Hrx' as <- <- <-. injection Hry' as <- <- <-.
    rewrite Hrx, Hry. unfold sub, SFsub. set (ez := Z.min ex ey).
    rewrite (cond_Zopp_aligned x mx ex ez), (cond_Zopp_aligned y my ey ez)
      by (assumption || lia).
    rewrite <- Z.mul_sub_distr_r.
    assert (Hp2 : 0 < 2 ^ (- ez) <= 2 ^ 52)
      by (split; [apply Z.pow_pos_nonneg; lia|apply Z.pow_le_mono_r; lia]).
    assert (HM : 0 < Z.abs ((x - y) * 2 ^ (- ez)) < 2 ^ 106).
    { change (2 ^ 106) with (2 * 2 ^ 53 * 2 ^ 52). rewrite Z.abs_mul.
      rewrite (Z.abs_eq (2 ^ (- ez))) by lia. split; [nia|].
      assert (Z.abs (x - y) < 2 * 2 ^ 53) by lia. nia. }
    assert (Hsign : ((x - y) * 2 ^ (- ez) <? 0) = (x <? y)).
    { destruct (Z.ltb_spec x y), (Z.ltb_spec ((x - y) * 2 ^ (- ez)) 0);
        try reflexivity; nia. }
    destruct ((x - y) * 2 ^ (- ez)) as [|p|p] eqn:EM; [simpl in HM; lia| |];
      cbn [binary_normalize]; rewrite <- Hsign;
      pose proof (Zdigits2_le (Zpos p) 106 ltac:(simpl in HM; lia) ltac:(lia)) as Hd;
      cbn [Zdigits2] in Hd;
      (eapply normal_weaken; [apply binary_round_normal; lia| |]; lia).
Qed.

(** The sign of [100.0 * (x - y) / y] over small integers: positive exactly
    when [x - y] and [y] have the same sign. *)
Lemma delta_positive x y :
  Z.abs x < 2 ^ 53 -> Z.abs y < 2 ^ 53 -> y <> 0 ->
  is_positive (SFdiv prec emax
              (mul hundred (sub (round_int x) (round_int y))) (round_int y)) =
  ((y <? x) && (0 <? y)) || ((x <? y) && (y <? 0)).
Proof.
  intros Hx Hy Hzy. destruct (Z.eq_dec x y) as [->|Hxy].
  - rewrite Z.ltb_irrefl. simpl.
    destruct (round_int_finite y Hzy Hy) as (s & m & e & Hr & _). rewrite Hr.
    unfold sub, SFsub. rewrite Z.min_id.
    replace (cond_Zopp s (Zpos (fst (shl_align m e e))) -
             cond_Zopp s (Zpos (fst (shl_align m e e)))) with 0 by lia.
    reflexivity.
  - pose proof (sub_normal x y Hx Hy Hxy) as Hs.
    apply (mul_hundred_normal _ _ _ _) in Hs; [|lia|lia].
    apply (fun H => div_normal _ _ _ _ y H Hzy Hy) in Hs; [|lia|lia].
    destruct (SFdiv _ _ _ _) as [| | |s m e]; simpl in Hs; try contradiction.
    destruct Hs as (-> & _). unfold is_positive, gtb, SFltb. simpl.
    destruct (Z.ltb_spec x y), (Z.ltb_spec y 0), (Z.ltb_spec y x), (Z.ltb_spec 0 y);
      simpl; try reflexivity; lia.
Qed.

End PyFloatFacts.

(** ** Reading the registry *)

Lemma elem_of_POINT_NAMES n :
  n ∈ POINT_NAMES <->
  n = "Baseline"%string \/ n = "Control"%string \/ n = "A"%string \/
  n = "B"%string \/ n = "Axis"%string.
Proof.
  unfold POINT_NAMES. rewrite !elem_of_cons, elem_of_nil. tauto.
Qed.

Lemma point_xy_registered self n :
  registered self -> n ∈ POINT_NAMES -> point_xy self n = Return (coord self n).
Proof.
  intros Hreg Hn. unfold registered in Hreg. rewrite Forall_forall in Hreg.
  destruct (Hreg n Hn) as [pt Hpt]. unfold point_xy, coord. now rewrite Hpt.
Qed.

Lemma compute_metrics_registered self :
  registered self ->
  compute_metrics self =
  metrics_of_points (coord self "Baseline") (coord self "Control")
    (coord self "A") (coord self "B") (coord self "Axis") (axis_value self).
Proof.
  intros Hreg. unfold compute_metrics.
  rewrite !(point_xy_registered self) by (assumption || (apply elem_of_POINT_NAMES; tauto)).
  reflexivity.
Qed.

Lemma in_range_row self n :
  in_range self -> n ∈ POINT_NAMES -> row_ok (y_at self n) = true.
Proof.
  intros Hr Hn. unfold in_range in Hr. rewrite Forall_forall in Hr. now apply Hr.
Qed.

Lemma marker_name_valid k : marker_name k ∈ POINT_NAMES.
Proof. apply elem_of_POINT_NAMES. destruct k; simpl; tauto. Qed.

(** ** The steps of [compute_metrics] over in-range rows *)

Lemma row_ok_Some y : row_ok (Some y) = true -> Z.abs y < 2 ^ 52.
Proof. unfold row_ok. simpl. apply Z.ltb_lt. Qed.

Lemma spec_height_bound b y h :
  row_ok b = true -> row_ok y = true -> spec_height b y = Some h -> Z.abs h < 2 ^ 53.
Proof.
  destruct b as [b|], y as [y|]; simpl; try discriminate.
  intros Hb Hy [= <-]. apply row_ok_Some in Hb, Hy.
  change (2 ^ 53) with (2 * 2 ^ 52). lia.
Qed.

Lemma height_of_spec b P :
  row_ok b = true -> row_ok (snd <$> P) = true ->
  height_of b P = Return (PyFloat.round_int <$> spec_height b (snd <$> P)).
Proof.
  intros Hb HP. destruct P as [[x y]|]; [|now destruct b].
  destruct b as [b|]; [|reflexivity]. simpl.
  rewrite PyFloatFacts.of_int_small; [reflexivity|].
  eapply spec_height_bound; [exact Hb|exact HP|reflexivity].
Qed.

Lemma float_opt_spec b :
  row_ok b = true -> float_opt b = Return (PyFloat.round_int <$> b).
Proof.
  destruct b as [b|]; [|reflexivity]. intros Hb%row_ok_Some. simpl.
  rewrite PyFloatFacts.of_int_small; [reflexivity|].
  change (2 ^ 53) with (2 * 2 ^ 52). lia.
Qed.

Lemma axis_span_spec b a :
  row_ok b = true -> row_ok a = true ->
  axis_span b a = PyFloat.round_int <$> spec_span b a.
Proof.
  intros Hb Ha. destruct b as [b|], a as [a|]; try reflexivity.
  assert (Hh : Z.abs (b - a) < 2 ^ 53)
    by (eapply spec_height_bound; [exact Hb|exact Ha|reflexivity]).
  unfold axis_span, spec_span. simpl.
  rewrite PyFloatFacts.of_int_small by exact Hh. simpl.
  rewrite PyFloatFacts.is_zero_round_int by exact Hh.
  now destruct (b - a).
Qed.

Lemma spec_span_nonzero b a s : spec_span b a = Some s -> s <> 0.
Proof.
  unfold spec_span. destruct (spec_height b a) as [[| |]|]; congruence.
Qed.

Lemma candidates_round hA hB hC :
  candidates (PyFloat.round_int <$> hA) (PyFloat.round_int <$> hB)
    (PyFloat.round_int <$> hC) =
  map PyFloat.round_int (omap id [hA; hB; hC]).
Proof. now destruct hA, hB, hC. Qed.

Lemma map_abs_round l :
  Forall (fun h => Z.abs h < 2 ^ 53) l ->
  map PyFloat.abs (map PyFloat.round_int l) = map PyFloat.round_int (map Z.abs l).
Proof.
  induction 1 as [|h l Hh _ IH]; [reflexivity|]. simpl.
  now rewrite PyFloatFacts.abs_round_int, IH.
Qed.

Lemma max_abs_round h l :
  Forall (fun h => Z.abs h < 2 ^ 53) (h :: l) ->
  PyFloat.max_from (PyFloat.abs (PyFloat.round_int h))
    (map PyFloat.abs (map PyFloat.round_int l)) =
  PyFloat.round_int (fold_left Z.max (map Z.abs l) (Z.abs h)).
Proof.
  intros Hb. inversion Hb as [|? ? Hh Hl]; subst.
  rewrite PyFloatFacts.abs_round_int, map_abs_round by assumption.
  apply PyFloatFacts.max_from_round_int; [lia|].
  clear -Hl. induction Hl; constructor; [lia|assumption].
Qed.

Lemma auto_scale_spec span hA hB hC :
  Forall (fun h => Z.abs h < 2 ^ 53) (omap id [hA; hB; hC]) ->
  auto_scale (PyFloat.round_int <$> span) (PyFloat.round_int <$> hA)
    (PyFloat.round_int <$> hB) (PyFloat.round_int <$> hC) =
  (PyFloat.round_int (fst (spec_divisor span [hA; hB; hC])),
   snd (spec_divisor span [hA; hB; hC])).
Proof.
  intros Hb. destruct span as [s|]; [reflexivity|].
  unfold auto_scale, spec_divisor, spec_max_abs. cbn [fmap option_fmap option_map].
  rewrite candidates_round.
  destruct (omap id [hA; hB; hC]) as [|h l]; [reflexivity|].
  cbn [map default fst snd]. now rewrite max_abs_round.
Qed.

(** The largest absolute height is at least each defined height. *)
Lemma fold_max_ge l : forall x y, y = x \/ In y l -> y <= fold_left Z.max l x.
Proof.
  induction l as [|z l IH]; intros x y Hy; simpl.
  - destruct Hy as [->|[]]. lia.
  - destruct Hy as [->|[->|Hy]].
    + transitivity (Z.max x z); [lia|]. apply IH. now left.
    + transitivity (Z.max x y); [lia|]. apply IH. now left.
    + apply IH. now right.
Qed.

Lemma spec_max_abs_ge hs h :
  Some h ∈ hs -> exists d, spec_max_abs hs = Some d /\ Z.abs h <= d.
Proof.
  intros Hin. unfold spec_max_abs.
  assert (Hm : In h (omap id hs)).
  { apply list_elem_of_In, list_elem_of_omap. exists (Some h). auto. }
  destruct (omap id hs) as [|h0 l]; [contradiction|].
  eexists. split; [reflexivity|].
  apply fold_max_ge. destruct Hm as [->|Hm]; [now left|right].
  now apply in_map.
Qed.

Lemma spec_max_abs_None hs : spec_max_abs hs = None <-> Forall (fun h => h = None) hs.
Proof.
  unfold spec_max_abs. split.
  - intros H. induction hs as [|[h|] hs IH]; [constructor|discriminate|].
    constructor; [reflexivity|]. apply IH. exact H.
  - induction 1 as [|h hs -> _ IH]; [reflexivity|]. exact IH.
Qed.

(** ** What [compute_metrics] returns, and when it raises *)

Lemma fold_max_bound l : forall x,
  0 <= x < 2 ^ 53 -> Forall (fun h => Z.abs h < 2 ^ 53) l ->
  0 <= fold_left Z.max (map Z.abs l) x < 2 ^ 53.
Proof.
  induction l as [|z l IH]; intros x Hx Hl; simpl; [exact Hx|].
  inversion Hl; subst. apply IH; [lia|assumption].
Qed.

(** The three [base_norm] calls, for a divisor that is not zero. *)
Lemma base_norm_spec d av h :
  Z.abs d < 2 ^ 53 -> d <> 0 ->
  base_norm (Some (PyFloat.round_int d)) av (PyFloat.round_int <$> h) =
  Return ((fun v => PyFloat.mul
                      (SFdiv PyFloat.prec PyFloat.emax (PyFloat.round_int v)
                         (PyFloat.round_int d)) av) <$> h).
Proof.
  intros Hb Hd. destruct h as [v|]; [|reflexivity]. simpl.
  unfold PyFloat.truediv. rewrite PyFloatFacts.is_zero_round_int by exact Hb.
  apply Z.eqb_neq in Hd. now rewrite Hd.
Qed.

(** The same call when the divisor is zero and the height is defined. *)
Lemma base_norm_zero av v :
  base_norm (Some (PyFloat.round_int 0)) av (Some v) = Raise ZeroDivisionError.
Proof. reflexivity. Qed.

(** A divisor of zero only comes from the fallback, and then some height is
    defined. *)
Lemma state_divisor_zero self :
  state_divisor self = 0 ->
  state_auto self = true /\ exists k, is_Some (marker_height self k).
Proof.
  unfold state_divisor, state_auto, spec_divisor.
  destruct (state_span self) as [s|] eqn:Hs; simpl.
  - intros ->. now apply spec_span_nonzero in Hs.
  - intros H0. split; [reflexivity|].
    destruct (spec_max_abs (marker_heights self)) as [d|] eqn:Hm; [|discriminate].
    unfold spec_max_abs, marker_heights in Hm. simpl in Hm.
    destruct (marker_height self MA) eqn:HA; [exists MA; rewrite HA; eauto|].
    destruct (marker_height self MB) eqn:HB; [exists MB; rewrite HB; eauto|].
    destruct (marker_height self MControl) eqn:HC; [exists MControl; rewrite HC; eauto|].
    discriminate.
Qed.

(** The registry of [__init__] holding pixel rows: the shared assumptions of
    the results on [compute_metrics]. *)
Section Engine.

Variable self : AnnotatorApp.
Hypothesis Hreg : registered self.
Hypothesis Hr : in_range self.

Lemma marker_height_bound k h :
  marker_height self k = Some h -> Z.abs h < 2 ^ 53.
Proof.
  apply spec_height_bound; apply in_range_row; trivial.
  - apply elem_of_POINT_NAMES; tauto.
  - apply marker_name_valid.
Qed.

Lemma marker_heights_bound :
  Forall (fun h => Z.abs h < 2 ^ 53) (omap id (marker_heights self)).
Proof.
  apply Forall_forall. intros h Hh.
  apply list_elem_of_omap in Hh as (o & Ho & Hoh). simpl in Hoh. subst o.
  unfold marker_heights in Ho. rewrite !elem_of_cons, elem_of_nil in Ho.
  destruct Ho as [Ho|[Ho|[Ho|[]]]]; symmetry in Ho;
    eapply marker_height_bound; eauto.
Qed.

Lemma state_divisor_bound : Z.abs (state_divisor self) < 2 ^ 53.
Proof.
  unfold state_divisor, spec_divisor, state_span.
  destruct (spec_span _ _) as [s|] eqn:Hs.
  - simpl. unfold spec_span in Hs.
    destruct (spec_height (y_at self "Baseline") (y_at self "Axis")) as [h|] eqn:Hh;
      [|discriminate].
    assert (Z.abs h < 2 ^ 53).
    { eapply spec_height_bound; [| |exact Hh]; apply in_range_row; trivial;
        apply elem_of_POINT_NAMES; tauto. }
    destruct h; congruence.
  - simpl. pose proof marker_heights_bound as Hb.
    unfold spec_max_abs. destruct (omap id (marker_heights self)) as [|h l]; [simpl; lia|].
    simpl. inversion Hb as [|? ? Hh Hl]; subst.
    pose proof (fold_max_bound l (Z.abs h) ltac:(lia) Hl). lia.
Qed.

Lemma compute_metrics_steps :
  compute_metrics self =
  (let hA := PyFloat.round_int <$> marker_height self MA in
   let hB := PyFloat.round_int <$> marker_height self MB in
   let hC := PyFloat.round_int <$> marker_height self MControl in
   let hAxis := Some (PyFloat.round_int (state_divisor self)) in
   bn_C ← base_norm hAxis (axis_value self) hC;
   bn_A ← base_norm hAxis (axis_value self) hA;
   bn_B ← base_norm hAxis (axis_value self) hB;
   Return
     {| height_Baseline_y := PyFloat.round_int <$> y_at self "Baseline";
        height_Control_px := hC;
        height_A_px := hA;
        height_B_px := hB;
        height_Axis_px := hAxis;
        axis_auto_used := state_auto self;
        A_as_pct_of_B := pct hA hB;
        B_as_pct_of_A := pct hB hA;
        delta_A_vs_B_pct := pct (diff hA hB) hB;
        delta_B_vs_A_pct := pct (diff hB hA) hA;
        A_as_pct_of_Control := pct hA hC;
        Control_as_pct_of_A := pct hC hA;
        delta_A_vs_Control_pct := pct (diff hA hC) hC;
        delta_Control_vs_A_pct := pct (diff hC hA) hA;
        B_as_pct_of_Control := pct hB hC;
        Control_as_pct_of_B := pct hC hB;
        delta_B_vs_Control_pct := pct (diff hB hC) hC;
        delta_Control_vs_B_pct := pct (diff hC hB) hB;
        BaseNorm_Control := bn_C;
        BaseNorm_A := bn_A;
        BaseNorm_B := bn_B;
        Axis_Value := Some (axis_value self) |}).
Proof.
  rewrite compute_metrics_registered by exact Hreg.
  assert (HB : row_ok (y_at self "Baseline") = true)
    by (apply in_range_row; trivial; apply elem_of_POINT_NAMES; tauto).
  assert (HX : row_ok (y_at self "Axis") = true)
    by (apply in_range_row; trivial; apply elem_of_POINT_NAMES; tauto).
  pose proof (in_range_row self _ Hr (marker_name_valid MA)) as HA.
  pose proof (in_range_row self _ Hr (marker_name_valid MB)) as HBm.
  pose proof (in_range_row self _ Hr (marker_name_valid MControl)) as HC.
  unfold metrics_of_points.
  change (snd <$> coord self "Baseline") with (y_at self "Baseline").
  change (snd <$> coord self "Axis") with (y_at self "Axis").
  rewrite !height_of_spec by assumption.
  change (snd <$> coord self "A") with (y_at self (marker_name MA)).
  change (snd <$> coord self "B") with (y_at self (marker_name MB)).
  change (snd <$> coord self "Control") with (y_at self (marker_name MControl)).
  fold (marker_height self MA) (marker_height self MB) (marker_height self MControl).
  cbn [mbind result_bind].
  rewrite axis_span_spec by assumption. fold (state_span self).
  rewrite auto_scale_spec by apply marker_heights_bound.
  fold (marker_heights self). fold (state_divisor self) (state_auto self).
  rewrite float_opt_spec by assumption. reflexivity.
Qed.

Lemma compute_metrics_returns :
  state_divisor self <> 0 ->
  exists m, compute_metrics self = Return m /\ describes self m.
Proof.
  intros Hd. rewrite compute_metrics_steps.
  cbv zeta. rewrite !base_norm_spec by (assumption || apply state_divisor_bound).
  cbn [mbind result_bind]. eexists. split; [reflexivity|].
  unfold describes. cbn.
  repeat split; try (intros k; now destruct k);
    intros X Y HXY; destruct X, Y; (congruence || reflexivity).
Qed.

Lemma compute_metrics_raises :
  state_divisor self = 0 ->
  compute_metrics self = Raise ZeroDivisionError.
Proof.
  intros Hd. rewrite compute_metrics_steps.
  destruct (state_divisor_zero self Hd) as [_ [k [h Hk]]].
  rewrite Hd. cbv zeta.
  destruct (marker_height self MControl) as [c|] eqn:HC; [reflexivity|].
  destruct (marker_height self MA) as [a|] eqn:HA; [reflexivity|].
  destruct (marker_height self MB) as [b|] eqn:HB; [reflexivity|].
  destruct k; congruence.
Qed.

Lemma compute_metrics_inv m :
  compute_metrics self = Return m ->
  state_divisor self <> 0 /\ describes self m.
Proof.
  intros Hm. destruct (Z.eq_dec (state_divisor self) 0) as [H0|Hn].
  - rewrite compute_metrics_raises in Hm by assumption. discriminate.
  - split; [exact Hn|].
    destruct (compute_metrics_returns Hn) as (m' & Hm' & Hdesc).
    congruence.
Qed.

End Engine.

(** ** The scenarios of the specification *)

(** Baseline at y=500, Control at 400, A at 300, B at 350, no Axis: heights
    100, 200, 150; divisor 200 (auto); normalized values 50, 100 and 75. *)
Example scenario_metrics :
  exists m,
    compute_metrics scenario = Return m /\
    (height_px m MControl ≫= PyFloat.exact_int) = Some 100 /\
    (height_px m MA ≫= PyFloat.exact_int) = Some 200 /\
    (height_px m MB ≫= PyFloat.exact_int) = Some 150 /\
    (height_Axis_px m ≫= PyFloat.exact_int) = Some 200 /\
    axis_auto_used m = true /\
    (BaseNorm_A m ≫= PyFloat.exact_int) = Some 100 /\
    (BaseNorm_Control m ≫= PyFloat.exact_int) = Some 50 /\
    (BaseNorm_B m ≫= PyFloat.exact_int) = Some 75.
Proof. eexists. split; [vm_compute; reflexivity|]. vm_compute. repeat split. Qed.

(** The same points with the Axis tick at y=450 and calibration value 100:
    span 50, no fallback; normalized values 400 for A and 200 for Control. *)
Example scenario_axis_metrics :
  exists m,
    compute_metrics scenario_axis = Return m /\
    (height_Axis_px m ≫= PyFloat.exact_int) = Some 50 /\
    axis_auto_used m = false /\
    (BaseNorm_A m ≫= PyFloat.exact_int) = Some 400 /\
    (BaseNorm_Control m ≫= PyFloat.exact_int) = Some 200.
Proof. eexists. split; [vm_compute; reflexivity|]. vm_compute. repeat split. Qed.

(** ** The scale divisor (C1, C3, C10) *)

(** C1 (code defect): the claim says that the scale divisor is never zero
    and that no division by zero ever raises.  With Baseline and A placed on
    the same pixel row and no Axis tick, the fallback picks the largest
    absolute height, which is 0.0, and [base_norm] divides by it:
    [compute_metrics] raises [ZeroDivisionError].  The state is reached by
    two clicks, and the second click handler fails with that exception. *)
Theorem C1_zero_divisor_raises :
  auto_scale (axis_span (y_at flat_A "Baseline") (y_at flat_A "Axis"))
    (Some (PyFloat.round_int 0)) None None = (PyFloat.zero, true) /\
  compute_metrics flat_A = Raise ZeroDivisionError /\
  coord (click "A" 20 100 (click "Baseline" 0 100 loaded)) "A" = coord flat_A "A" /\
  coord (click "A" 20 100 (click "Baseline" 0 100 loaded)) "Baseline"
    = coord flat_A "Baseline" /\
  fst (on_canvas_click (mkEvent 20 100)
         (snd (set_mode (Some "A"%string) (click "Baseline" 0 100 loaded))))
    = Raise ZeroDivisionError.
Proof. vm_compute. repeat split. Qed.

(** Closed instances of [registered] and [in_range] are decided by
    evaluation. *)
Ltac by_evaluation :=
  apply Forall_forall; intros ? [->|[->|[->|[->| ->]]]]%elem_of_POINT_NAMES;
  vm_compute; eauto.

Lemma state_span_defined self b a :
  y_at self "Baseline" = Some b -> y_at self "Axis" = Some a -> a <> b ->
  state_divisor self = b - a /\ state_auto self = false.
Proof.
  intros Hb Ha Hne. unfold state_divisor, state_auto, state_span, spec_span.
  rewrite Hb, Ha. simpl. destruct (b - a) eqn:E; try (split; reflexivity). lia.
Qed.

Lemma state_span_undefined self :
  y_at self "Axis" = None \/ y_at self "Baseline" = None \/
  y_at self "Axis" = y_at self "Baseline" ->
  state_divisor self = default 1 (spec_max_abs (marker_heights self)) /\
  state_auto self = true.
Proof.
  intros H. unfold state_divisor, state_auto, state_span, spec_span.
  assert (Hs : match spec_height (y_at self "Baseline") (y_at self "Axis") with
               | Some 0 => None
               | o => o
               end = None).
  { destruct H as [->|[->| ->]].
    - now destruct (y_at self "Baseline").
    - reflexivity.
    - destruct (y_at self "Baseline") as [b|]; [|reflexivity]. simpl.
      now rewrite Z.sub_diag. }
  rewrite Hs. split; reflexivity.
Qed.

(** C3 (amended): for every registry state holding pixel rows: if Baseline
    and Axis are both placed with [Axis.y <> Baseline.y], [compute_metrics]
    returns, its auto flag is false and its divisor is exactly
    [Baseline.y - Axis.y];
    if Axis is unplaced, Baseline is unplaced, or both are on the same row,
    every result has the auto flag set and holds as divisor exactly the
    largest absolute defined height among A, B and Control, or 1.0 when
    none is defined, and there is a result whenever that divisor is not
    zero. *)
Theorem C3_divisor_and_auto_flag self :
  registered self -> in_range self ->
  (forall b a,
     y_at self "Baseline" = Some b -> y_at self "Axis" = Some a -> a <> b ->
     exists m d,
       compute_metrics self = Return m /\ axis_auto_used m = false /\
       height_Axis_px m = Some d /\ PyFloat.exact_int d = Some (b - a)) /\
  (y_at self "Axis" = None \/ y_at self "Baseline" = None \/
   y_at self "Axis" = y_at self "Baseline" ->
   let s := default 1 (spec_max_abs (marker_heights self)) in
   (s <> 0 -> exists m, compute_metrics self = Return m) /\
   (forall m, compute_metrics self = Return m ->
      axis_auto_used m = true /\
      exists d, height_Axis_px m = Some d /\ PyFloat.exact_int d = Some s)).
Proof.
  intros Hreg Hr. split.
  - intros b a Hb Ha Hne.
    destruct (state_span_defined self b a Hb Ha Hne) as [Hd Hauto].
    destruct (compute_metrics_returns self Hreg Hr) as (m & Hm & Hdesc);
      [rewrite Hd; lia|].
    destruct Hdesc as (_ & _ & Hax & Hau & _).
    exists m, (PyFloat.round_int (b - a)). rewrite Hd in Hax.
    repeat split; [exact Hm|congruence|exact Hax|].
    apply PyFloatFacts.exact_int_round_int. rewrite <- Hd.
    now apply state_divisor_bound.
  - intros Hun s. destruct (state_span_undefined self Hun) as [Hd Hauto].
    fold s in Hd. split.
    + intros Hs. destruct (compute_metrics_returns self Hreg Hr) as (m & Hm & _);
        [congruence|eauto].
    + intros m Hm. destruct (compute_metrics_inv self Hreg Hr m Hm) as [_ Hdesc].
      destruct Hdesc as (_ & _ & Hax & Hau & _).
      split; [congruence|]. exists (PyFloat.round_int s).
      split; [congruence|]. apply PyFloatFacts.exact_int_round_int.
      rewrite <- Hd. now apply state_divisor_bound.
Qed.

Lemma C3_divisor_and_auto_flag_witness :
  registered scenario /\ in_range scenario /\
  (y_at scenario "Axis" = None \/ y_at scenario "Baseline" = None \/
   y_at scenario "Axis" = y_at scenario "Baseline") /\
  default 1 (spec_max_abs (marker_heights scenario)) = 200 /\
  exists m, compute_metrics scenario = Return m.
Proof.
  assert (Hreg : registered scenario) by by_evaluation.
  assert (Hr : in_range scenario) by by_evaluation.
  assert (Hun : y_at scenario "Axis" = None \/ y_at scenario "Baseline" = None \/
                y_at scenario "Axis" = y_at scenario "Baseline")
    by (left; vm_compute; reflexivity).
  split; [exact Hreg|]. split; [exact Hr|]. split; [exact Hun|].
  split; [vm_compute; reflexivity|].
  apply (proj2 (C3_divisor_and_auto_flag scenario Hreg Hr) Hun).
  vm_compute. discriminate.
Defined.

(** C3 (as stated) fails when Baseline is unplaced: the Axis tick is placed
    and its row differs from the (missing) Baseline row, yet the auto flag
    is true and the divisor is 1.0. *)
Lemma C3_counterexample :
  ~ (placed axis_only "Axis" /\ y_at axis_only "Axis" <> y_at axis_only "Baseline" ->
     exists m, compute_metrics axis_only = Return m /\ axis_auto_used m = false).
Proof.
  intros H. destruct H as (m & Hm & Hauto).
  - split; [vm_compute; eauto|vm_compute; discriminate].
  - vm_compute in Hm. injection Hm as <-. discriminate Hauto.
Qed.




(** ** Clearing the marks (C7) *)

Lemma clear_marks_state self :
  snd (clear_marks self) =
  with_overlay
    (with_points self
       ((fun pt => set_xy None (set_items None None None pt)) <$> points self))
    [] (canvas_next self).
Proof. reflexivity. Qed.

Lemma clear_marks_coord self n : coord (snd (clear_marks self)) n = None.
Proof.
  rewrite clear_marks_state. unfold coord. cbn [points with_overlay with_points].
  rewrite lookup_fmap. now destruct (points self !! n).
Qed.

Lemma clear_marks_registered self :
  registered self -> registered (snd (clear_marks self)).
Proof.
  unfold registered. rewrite !Forall_forall. intros Hreg n Hn.
  rewrite clear_marks_state. cbn [points with_overlay with_points].
  rewrite lookup_fmap. destruct (Hreg n Hn) as [pt ->]. simpl. eauto.
Qed.

(** C7 (amended): after [clear_marks] has reset every point, [compute_metrics]
    returns a result in which every height and every percentage (pairwise
    and Baseline-normalized) is [None] and the auto flag is true; the
    Baseline-to-Axis span is undefined, and the axis-span key of the result
    holds the fallback divisor 1.0. *)
Theorem C7_compute_after_clear self :
  registered self ->
  exists m,
    compute_metrics (snd (clear_marks self)) = Return m /\
    height_Baseline_y m = None /\
    (forall k, height_px m k = None) /\
    axis_span (y_at (snd (clear_marks self)) "Baseline")
      (y_at (snd (clear_marks self)) "Axis") = None /\
    (forall X Y, as_pct_of m X Y = None /\ delta_vs m X Y = None) /\
    (forall k, base_norm_of m k = None) /\
    axis_auto_used m = true /\
    height_Axis_px m = Some PyFloat.one.
Proof.
  intros Hreg.
  rewrite compute_metrics_registered by (apply clear_marks_registered; exact Hreg).
  unfold y_at. rewrite !clear_marks_coord.
  eexists. split; [reflexivity|]. cbn.
  repeat split; try (intros k; now destruct k); now destruct X, Y.
Qed.

Lemma C7_compute_after_clear_witness :
  registered scenario /\
  exists m,
    compute_metrics (snd (clear_marks scenario)) = Return m /\
    height_Baseline_y m = None /\
    (forall k, height_px m k = None) /\
    axis_span (y_at (snd (clear_marks scenario)) "Baseline")
      (y_at (snd (clear_marks scenario)) "Axis") = None /\
    (forall X Y, as_pct_of m X Y = None /\ delta_vs m X Y = None) /\
    (forall k, base_norm_of m k = None) /\
    axis_auto_used m = true /\
    height_Axis_px m = Some PyFloat.one.
Proof.
  assert (Hreg : registered scenario) by by_evaluation.
  split; [exact Hreg|]. exact (C7_compute_after_clear scenario Hreg).
Defined.

(** C7 (as stated) fails on the axis span of the result: after
    [clear_marks], the key [height_Axis_px] is not [None] but 1.0. *)
Lemma C7_counterexample :
  ~ (exists m, compute_metrics (snd (clear_marks scenario)) = Return m /\
               (forall k, height_px m k = None) /\
               height_Axis_px m = None /\
               axis_auto_used m = true).
Proof.
  intros (m & Hm & _ & Hax & _). vm_compute in Hm. injection Hm as <-.
  discriminate Hax.
Qed.

(** ** Determinism (C8) *)

Lemma point_xy_agree s1 s2 n :
  slot s1 n = slot s2 n -> point_xy s1 n = point_xy s2 n.
Proof.
  unfold slot, point_xy. destruct (points s1 !! n), (points s2 !! n); simpl; congruence.
Qed.

(** C8: [compute_metrics] is a function of the registry contents and of the
    calibration value alone: two application states that record the same
    coordinates under the five names and hold the same axis value give the
    same outcome, identical in every float of every key, whatever else
    differs between them (canvas items, pending mode, image, display scale,
    overlay) and however each state was reached. *)
Theorem C8_compute_depends_on_inputs_only s1 s2 :
  (forall n, n ∈ POINT_NAMES -> slot s1 n = slot s2 n) ->
  axis_value s1 = axis_value s2 ->
  compute_metrics s1 = compute_metrics s2.
Proof.
  intros Hxy Hav. unfold compute_metrics.
  rewrite !(point_xy_agree s1 s2) by (apply Hxy, elem_of_POINT_NAMES; tauto).
  now rewrite Hav.
Qed.

Lemma C8_compute_depends_on_inputs_only_witness :
  (forall n, n ∈ POINT_NAMES -> slot scenario n = slot scenario_redrawn n) /\
  axis_value scenario = axis_value scenario_redrawn /\
  scenario <> scenario_redrawn /\
  compute_metrics scenario = compute_metrics scenario_redrawn.
Proof.
  assert (Hxy : forall n, n ∈ POINT_NAMES -> slot scenario n = slot scenario_redrawn n).
  { intros n [->|[->|[->|[->| ->]]]]%elem_of_POINT_NAMES; vm_compute; reflexivity. }
  split; [exact Hxy|]. split; [reflexivity|]. split; [discriminate|].
  exact (C8_compute_depends_on_inputs_only scenario scenario_redrawn Hxy eq_refl).
Defined.

(** ** Heights (C2) *)

Lemma placed_y_at self n : placed self n <-> is_Some (y_at self n).
Proof.
  unfold placed, y_at. destruct (coord self n); simpl; split; intros [? ?]; eauto;
    discriminate.
Qed.

(** Whenever [compute_metrics] returns, the height keys are as C2 says. *)
Lemma heights_of_result self m k :
  registered self -> in_range self -> compute_metrics self = Return m ->
  (is_Some (height_px m k) <-> placed self "Baseline" /\ placed self (marker_name k)) /\
  (forall b y,
     y_at self "Baseline" = Some b -> y_at self (marker_name k) = Some y ->
     exists h, height_px m k = Some h /\ PyFloat.exact_int h = Some (b - y)).
Proof.
  intros Hreg Hr Hm. destruct (compute_metrics_inv self Hreg Hr m Hm) as [_ Hdesc].
  destruct Hdesc as (_ & Hh & _). rewrite (Hh k), !placed_y_at.
  unfold marker_height. split.
  - destruct (y_at self "Baseline"), (y_at self (marker_name k)); simpl;
      split; try (intros [[? ?] [? ?]]); try (intros [? ?]); eauto; discriminate.
  - intros b y Hb Hy. pose proof (marker_height_bound self Hr k (b - y)) as Hbound.
    unfold marker_height in Hbound. rewrite Hb, Hy in *. simpl.
    eexists. split; [reflexivity|].
    apply PyFloatFacts.exact_int_round_int. now apply Hbound.
Qed.

(** C2 (code defect): the claim says that a height is returned for Control
    as soon as Baseline and Control are placed.  With both on the same pixel
    row, the local [height] is 0.0 as claimed, but no result is returned:
    the zero fallback divisor makes [compute_metrics] raise
    [ZeroDivisionError]. *)
Theorem C2_height_not_returned :
  placed flat_Control "Baseline" /\ placed flat_Control "Control" /\
  height_of (y_at flat_Control "Baseline") (coord flat_Control "Control")
    = Return (Some PyFloat.zero) /\
  compute_metrics flat_Control = Raise ZeroDivisionError.
Proof.
  split; [vm_compute; eauto|]. split; [vm_compute; eauto|].
  split; vm_compute; reflexivity.
Qed.

(** ** Pairwise percentages (C4, C5, C6) *)

Lemma pct_round n y :
  Z.abs y < 2 ^ 53 ->
  pct (Some n) (Some (PyFloat.round_int y)) =
  if y =? 0 then None
  else Some (SFdiv PyFloat.prec PyFloat.emax (PyFloat.mul PyFloat.hundred n)
               (PyFloat.round_int y)).
Proof.
  intros Hy. unfold pct, PyFloat.truediv.
  rewrite PyFloatFacts.is_zero_round_int by exact Hy. now destruct (y =? 0).
Qed.

(** Whenever [compute_metrics] returns, the pairwise keys are as C4 says:
    defined exactly when both heights are and the divisor height is not
    zero, with the values [100.0 * hX / hY] and [100.0 * (hX - hY) / hY]. *)
Lemma percentages_of_result self m X Y :
  registered self -> in_range self -> compute_metrics self = Return m -> X <> Y ->
  match marker_height self X, marker_height self Y with
  | Some x, Some y =>
      if y =? 0 then as_pct_of m X Y = None /\ delta_vs m X Y = None
      else
        as_pct_of m X Y =
          Some (SFdiv PyFloat.prec PyFloat.emax
                  (PyFloat.mul PyFloat.hundred (PyFloat.round_int x))
                  (PyFloat.round_int y)) /\
        delta_vs m X Y =
          Some (SFdiv PyFloat.prec PyFloat.emax
                  (PyFloat.mul PyFloat.hundred
                     (PyFloat.sub (PyFloat.round_int x) (PyFloat.round_int y)))
                  (PyFloat.round_int y))
  | _, _ => as_pct_of m X Y = None /\ delta_vs m X Y = None
  end.
Proof.
  intros Hreg Hr Hm HXY. destruct (compute_metrics_inv self Hreg Hr m Hm) as [_ Hdesc].
  destruct Hdesc as (_ & Hh & _ & _ & Hp & Hd & _).
  rewrite (Hp X Y HXY), (Hd X Y HXY), !Hh.
  destruct (marker_height self X) as [x|] eqn:HX,
           (marker_height self Y) as [y|] eqn:HY; try (split; reflexivity).
  cbn [fmap option_fmap option_map diff].
  rewrite !pct_round by (eapply marker_height_bound; eauto).
  destruct (y =? 0); split; reflexivity.
Qed.

(** C4 (code defect): the claim says that a percentage whose divisor height
    is 0 is undefined and that nothing raises.  With Baseline, A and B on
    the same row both heights are 0: the helper [pct] does give [None], but
    [compute_metrics] raises [ZeroDivisionError] in [base_norm] instead of
    returning it (the defect of C1). *)
Theorem C4_zero_height_divisor_raises :
  marker_height flat_AB MA = Some 0 /\ marker_height flat_AB MB = Some 0 /\
  pct (Some (PyFloat.round_int 0)) (Some (PyFloat.round_int 0)) = None /\
  compute_metrics flat_AB = Raise ZeroDivisionError.
Proof. vm_compute. repeat split. Qed.

(** Whenever [compute_metrics] returns, every defined pairwise key holds a
    finite float: neither an infinity nor NaN. *)
Lemma percentages_finite self m X Y q :
  registered self -> in_range self -> compute_metrics self = Return m -> X <> Y ->
  as_pct_of m X Y = Some q \/ delta_vs m X Y = Some q ->
  PyFloat.is_finite q = true.
Proof.
  intros Hreg Hr Hm HXY Hq.
  pose proof (percentages_of_result self m X Y Hreg Hr Hm HXY) as H.
  destruct (marker_height self X) as [x|] eqn:HX;
    [|destruct H as [H1 H2]; rewrite H1, H2 in Hq; destruct Hq; discriminate].
  destruct (marker_height self Y) as [y|] eqn:HY;
    [|destruct H as [H1 H2]; rewrite H1, H2 in Hq; destruct Hq; discriminate].
  pose proof (marker_height_bound self Hr X x HX) as Hbx.
  pose proof (marker_height_bound self Hr Y y HY) as Hby.
  destruct (Z.eqb_spec y 0) as [->|Hy];
    destruct H as [H1 H2]; rewrite H1, H2 in Hq; destruct Hq as [Hq|Hq];
    try discriminate; injection Hq as <-.
  - now apply PyFloatFacts.pct_finite.
  - now apply PyFloatFacts.delta_finite.
Qed.

(** Whenever [compute_metrics] returns, the sign of a delta is decided by
    the signs of [hX - hY] and of [hY]: above a positive height [hY] the
    delta is positive exactly when [hX > hY]; for a negative [hY] the
    sign is reversed. *)
Lemma delta_sign_of_result self m X Y x y :
  registered self -> in_range self -> compute_metrics self = Return m -> X <> Y ->
  marker_height self X = Some x -> marker_height self Y = Some y -> y <> 0 ->
  exists d, delta_vs m X Y = Some d /\
    PyFloat.is_positive d = ((y <? x) && (0 <? y)) || ((x <? y) && (y <? 0)).
Proof.
  intros Hreg Hr Hm HXY HX HY Hy.
  pose proof (percentages_of_result self m X Y Hreg Hr Hm HXY) as H.
  rewrite HX, HY in H. apply Z.eqb_neq in Hy as Hy'. rewrite Hy' in H.
  destruct H as [_ H]. eexists. split; [exact H|].
  apply PyFloatFacts.delta_positive; [| |exact Hy]; eapply marker_height_bound; eauto.
Qed.

(** C5 (code defect): the claim, like the overlay text "positive means A is
    higher than B", says that a positive delta means the larger height.
    With A above the baseline and B below it the heights are 30 and -20, A
    is the larger, and [delta_A_vs_B_pct] is -250.0: dividing by the signed
    height of B reverses the sign. *)
Theorem C5_delta_sign_below_baseline :
  marker_height below MA = Some 30 /\ marker_height below MB = Some (-20) /\
  exists m d,
    compute_metrics below = Return m /\ delta_vs m MA MB = Some d /\
    PyFloat.is_positive d = false /\ PyFloat.is_negative d = true /\
    PyFloat.exact_int d = Some (-250).
Proof.
  split; [reflexivity|]. split; [reflexivity|].
  eexists. eexists. split; [vm_compute; reflexivity|].
  split; [reflexivity|]. vm_compute. repeat split.
Qed.

Lemma state_divisor_nonzero self k h :
  marker_height self k = Some h -> h <> 0 -> state_divisor self <> 0.
Proof.
  intros Hk Hh. unfold state_divisor, spec_divisor.
  destruct (state_span self) as [s|] eqn:Hs; simpl.
  - eapply spec_span_nonzero; exact Hs.
  - destruct (spec_max_abs_ge (marker_heights self) h) as (d & -> & Hd).
    + rewrite <- Hk. unfold marker_heights. destruct k; set_solver.
    + simpl. lia.
Qed.

(** C6 (amended): for two defined heights that are both not zero,
    [compute_metrics] returns, and swapping X and Y swaps numerator and
    divisor: [X_as_pct_of_Y] is [100.0 * hX / hY] and [Y_as_pct_of_X] is
    [100.0 * hY / hX].  The two values differ for some heights (200 and 150
    give 133.33... and 75.0), so the metrics are not commutative, and their
    float product is not always exactly 10000.0 (heights 3 and 23). *)
Theorem C6_swapped_percentages :
  (forall self X Y hX hY,
     registered self -> in_range self -> X <> Y ->
     marker_height self X = Some hX -> marker_height self Y = Some hY ->
     hX <> 0 -> hY <> 0 ->
     exists m,
       compute_metrics self = Return m /\
       as_pct_of m X Y =
         Some (SFdiv PyFloat.prec PyFloat.emax
                 (PyFloat.mul PyFloat.hundred (PyFloat.round_int hX))
                 (PyFloat.round_int hY)) /\
       as_pct_of m Y X =
         Some (SFdiv PyFloat.prec PyFloat.emax
                 (PyFloat.mul PyFloat.hundred (PyFloat.round_int hY))
                 (PyFloat.round_int hX))) /\
  (exists m, compute_metrics scenario = Return m /\
             as_pct_of m MA MB <> as_pct_of m MB MA) /\
  (exists m p q, compute_metrics small = Return m /\
                 as_pct_of m MA MB = Some p /\ as_pct_of m MB MA = Some q /\
                 PyFloat.eqb (PyFloat.mul p q) (PyFloat.round_int 10000) = false).
Proof.
  split; [|split].
  - intros self X Y hX hY Hreg Hr HXY HX HY HnX HnY.
    destruct (compute_metrics_returns self Hreg Hr) as (m & Hm & _);
      [eapply state_divisor_nonzero; eauto|].
    exists m. split; [exact Hm|].
    pose proof (percentages_of_result self m X Y Hreg Hr Hm HXY) as H1.
    pose proof (percentages_of_result self m Y X Hreg Hr Hm (not_eq_sym HXY)) as H2.
    rewrite HX, HY in H1, H2.
    apply Z.eqb_neq in HnX, HnY. rewrite HnY in H1. rewrite HnX in H2.
    split; [apply H1|apply H2].
  - eexists. split; [vm_compute; reflexivity|]. vm_compute. discriminate.
  - eexists. eexists. eexists. split; [vm_compute; reflexivity|].
    split; [reflexivity|]. split; [reflexivity|]. vm_compute. reflexivity.
Qed.

Lemma C6_swapped_percentages_witness :
  registered scenario /\ in_range scenario /\ MA <> MB /\
  marker_height scenario MA = Some 200 /\ marker_height scenario MB = Some 150 /\
  exists m,
    compute_metrics scenario = Return m /\
    as_pct_of m MA MB =
      Some (SFdiv PyFloat.prec PyFloat.emax
              (PyFloat.mul PyFloat.hundred (PyFloat.round_int 200))
              (PyFloat.round_int 150)) /\
    as_pct_of m MB MA =
      Some (SFdiv PyFloat.prec PyFloat.emax
              (PyFloat.mul PyFloat.hundred (PyFloat.round_int 150))
              (PyFloat.round_int 200)).
Proof.
  assert (Hreg : registered scenario) by by_evaluation.
  assert (Hr : in_range scenario) by by_evaluation.
  assert (HAB : MA <> MB) by discriminate.
  split; [exact Hreg|]. split; [exact Hr|]. split; [exact HAB|].
  split; [reflexivity|]. split; [reflexivity|].
  apply (proj1 C6_swapped_percentages scenario MA MB 200 150 Hreg Hr HAB);
    [reflexivity|reflexivity|lia|lia].
Defined.

(** C6 (as stated) fails for equal heights: with A and B both 50 pixels
    above the baseline, [A_as_pct_of_B] and [B_as_pct_of_A] are the same
    float, 100.0. *)
Lemma C6_counterexample :
  marker_height level MA = Some 50 /\ marker_height level MB = Some 50 /\
  ~ (forall m, compute_metrics level = Return m ->
               as_pct_of m MA MB <> as_pct_of m MB MA).
Proof.
  split; [reflexivity|]. split; [reflexivity|].
  intros H. destruct (compute_metrics level) as [m|e] eqn:Hm;
    [|vm_compute in Hm; discriminate Hm].
  apply (H m eq_refl). vm_compute in Hm. injection Hm as <-. reflexivity.
Qed.

(** ** Placing a point (C9) *)

Lemma run_bind {A B : Type} (m : method A) (f : A -> method B) self :
  (m ≫= f) self =
  match m self with
  | (Return a, self') => f a self'
  | (Raise e, self') => (Raise e, self')
  end.
Proof. reflexivity. Qed.

Lemma run_get {B : Type} (f : AnnotatorApp -> method B) self :
  (get_self ≫= f) self = f self self.
Proof. reflexivity. Qed.

Lemma coord_slot self n : coord self n = slot self n ≫= id.
Proof. unfold coord, slot. now destruct (points self !! n). Qed.

Lemma registered_slot self :
  registered self <-> forall n, n ∈ POINT_NAMES -> is_Some (slot self n).
Proof.
  unfold registered, slot. rewrite Forall_forall.
  split; intros H n Hn; specialize (H n Hn).
  - destruct H as [pt ->]. simpl. eauto.
  - destruct (points self !! n); [eauto|]. destruct H as [? H]. discriminate H.
Qed.

(** Updates of a point that leave its [xy] alone. *)
Lemma update_point_keeps n f self n' :
  (forall pt, xy (f pt) = xy pt) ->
  slot (snd (update_point n f self)) n' = slot self n'.
Proof.
  intros Hf. unfold update_point. rewrite run_get.
  destruct (points self !! n) as [pt|] eqn:Hn; [|reflexivity].
  unfold slot. cbn [put_self snd points with_points].
  destruct (decide (n = n')) as [<-|Hne].
  - rewrite lookup_insert_eq, Hn. simpl. now rewrite Hf.
  - now rewrite lookup_insert_ne.
Qed.

(** The assignment [self.points[n].xy = p]. *)
Lemma update_point_sets n p self n' :
  is_Some (points self !! n) ->
  fst (update_point n (set_xy (Some p)) self) = Return tt /\
  slot (snd (update_point n (set_xy (Some p)) self)) n' =
    if decide (n' = n) then Some (Some p) else slot self n'.
Proof.
  intros [pt Hn]. unfold update_point. rewrite run_get, Hn.
  unfold slot. cbn [put_self fst snd points with_points]. split; [reflexivity|].
  destruct (decide (n' = n)) as [->|Hne].
  - now rewrite lookup_insert_eq.
  - now rewrite lookup_insert_ne.
Qed.

Lemma draw_point_keeps n p self n' :
  slot (snd (draw_point n p self)) n' = slot self n'.
Proof.
  unfold draw_point. rewrite run_get.
  destruct (image self) as [sz|]; [|reflexivity].
  pose proof (update_point_keeps n (set_items None None None) self n'
                (fun _ => eq_refl)) as H1.
  rewrite run_bind.
  destruct (update_point n (set_items None None None) self) as [[[]|e] s1];
    [|exact H1].
  rewrite run_bind. unfold lift at 1.
  destruct (image_to_canvas_xy self p.1 p.2) as [c|e]; [|exact H1].
  set (i := canvas_next self).
  pose proof (update_point_keeps n
                (set_items (Some i) (Some (i + 1)) (Some (i + 2))) s1 n'
                (fun _ => eq_refl)) as H2.
  rewrite run_bind.
  destruct (update_point n _ s1) as [[[]|e] s2]; simpl in *; [|congruence].
  change (slot (with_overlay s2 (overlay_items s2) (i + 3)) n') with (slot s2 n').
  congruence.
Qed.

Lemma update_metrics_overlay_keeps self n' :
  slot (snd (update_metrics_overlay self)) n' = slot self n'.
Proof.
  unfold update_metrics_overlay, clear_overlay_text.
  rewrite run_bind, run_get. cbn [put_self]. rewrite run_get, run_bind.
  unfold lift. now destruct (compute_metrics _).
Qed.

(** What a click leaves in the registry, in every case. *)
Lemma on_canvas_click_slot self ev n' :
  slot (snd (on_canvas_click ev self)) n' =
  match image self, current_mode self with
  | Some _, Some n =>
      if bool_decide (n ∈ POINT_NAMES) then
        match canvas_to_image_xy self (ev_x ev) (ev_y ev), points self !! n with
        | Return p, Some _ => if decide (n' = n) then Some (Some p) else slot self n'
        | _, _ => slot self n'
        end
      else slot self n'
  | _, _ => slot self n'
  end.
Proof.
  unfold on_canvas_click. rewrite run_get.
  destruct (image self) as [sz|]; [|reflexivity].
  destruct (current_mode self) as [n|]; [|reflexivity].
  destruct (bool_decide (n ∈ POINT_NAMES)); [|reflexivity].
  rewrite run_bind. unfold lift at 1.
  destruct (canvas_to_image_xy self (ev_x ev) (ev_y ev)) as [p|e]; [|reflexivity].
  rewrite run_bind.
  destruct (points self !! n) as [pt|] eqn:Hn.
  - destruct (update_point_sets n p self n') as [Hup Hc]; [rewrite Hn; eauto|].
    destruct (update_point n (set_xy (Some p)) self) as [r s1].
    cbn [fst snd] in Hup, Hc. subst r. rewrite <- Hc.
    pose proof (draw_point_keeps n p s1 n') as Hd.
    rewrite run_bind.
    destruct (draw_point n p s1) as [[[]|e] s2]; [|exact Hd].
    cbn [snd] in Hd. rewrite <- Hd.
    unfold set_mode. rewrite run_bind, run_get. cbn [put_self].
    apply (update_metrics_overlay_keeps (with_mode s2 None) n').
  - unfold update_point. rewrite run_get, Hn. reflexivity.
Qed.

(** C9 (amended): there is no [InvalidNameError].  A click while no image is
    loaded, or while the current mode is not one of the five point names
    (no mode, "ROI", any other string), is ignored: [on_canvas_click]
    returns normally and leaves the whole state, hence every coordinate,
    unchanged.  A click while the mode is one of the five names and an image
    is loaded records the clicked image coordinate for exactly that point:
    no other point's coordinate is modified. *)
Theorem C9_click_sets_only_the_current_point :
  (forall self ev,
     image self = None \/ current_mode self = None \/
     (exists n, current_mode self = Some n /\ n ∉ POINT_NAMES) ->
     on_canvas_click ev self = (Return tt, self)) /\
  (forall self ev n p,
     registered self -> is_Some (image self) ->
     current_mode self = Some n -> n ∈ POINT_NAMES ->
     canvas_to_image_xy self (ev_x ev) (ev_y ev) = Return p ->
     coord (snd (on_canvas_click ev self)) n = Some p /\
     forall n', n' <> n -> coord (snd (on_canvas_click ev self)) n' = coord self n').
Proof.
  split.
  - intros self ev H. unfold on_canvas_click. rewrite run_get.
    destruct (image self) as [sz|]; [|reflexivity].
    destruct (current_mode self) as [mode|]; [|reflexivity].
    destruct H as [H|[H|(n & [= ->] & Hn)]]; try discriminate.
    now rewrite bool_decide_eq_false_2.
  - intros self ev n p Hreg [sz Himg] Hmode Hn Hp.
    assert (Hpt : is_Some (points self !! n)).
    { unfold registered in Hreg. rewrite Forall_forall in Hreg. now apply Hreg. }
    destruct Hpt as [pt Hpt].
    assert (Hall : forall n', slot (snd (on_canvas_click ev self)) n' =
                              if decide (n' = n) then Some (Some p) else slot self n').
    { intros n'. rewrite on_canvas_click_slot, Himg, Hmode, Hp, Hpt.
      now rewrite bool_decide_eq_true_2. }
    split.
    + rewrite coord_slot, Hall. now rewrite decide_True.
    + intros n' Hne. rewrite !coord_slot, Hall. now rewrite decide_False.
Qed.

Lemma C9_click_sets_only_the_current_point_witness :
  let self := snd (set_mode (Some "Control"%string) scenario) in
  let ev := mkEvent 10 200 in
  registered self /\ is_Some (image self) /\
  current_mode self = Some "Control"%string /\ ("Control"%string ∈ POINT_NAMES) /\
  canvas_to_image_xy self (ev_x ev) (ev_y ev) = Return (10, 200) /\
  coord (snd (on_canvas_click ev self)) "Control" = Some (10, 200) /\
  forall n', n' <> "Control"%string ->
    coord (snd (on_canvas_click ev self)) n' = coord self n'.
Proof.
  intros self ev.
  assert (Hreg : registered self) by by_evaluation.
  assert (Himg : is_Some (image self)) by (vm_compute; eauto).
  assert (Hmode : current_mode self = Some "Control"%string) by reflexivity.
  assert (Hn : "Control"%string ∈ POINT_NAMES) by (apply elem_of_POINT_NAMES; tauto).
  assert (Hp : canvas_to_image_xy self (ev_x ev) (ev_y ev) = Return (10, 200))
    by (vm_compute; reflexivity).
  split; [exact Hreg|]. split; [exact Himg|]. split; [exact Hmode|].
  split; [exact Hn|]. split; [exact Hp|].
  exact (proj2 C9_click_sets_only_the_current_point self ev "Control"%string (10, 200)
           Hreg Himg Hmode Hn Hp).
Defined.

(** C9 (as stated) fails: with the mode "ROI", which is not a point name,
    the click does not fail with an error, it returns normally. *)
Lemma C9_counterexample :
  current_mode roi_mode = Some "ROI"%string /\ ("ROI"%string ∉ POINT_NAMES) /\
  ~ (exists e, fst (on_canvas_click (mkEvent 10 10) roi_mode) = Raise e).
Proof.
  split; [reflexivity|]. split.
  - rewrite elem_of_POINT_NAMES. intros [H|[H|[H|[H|H]]]]; discriminate H.
  - intros [e He]. vm_compute in He. discriminate He.
Qed.

(** ** The hypotheses are invariants of the handlers *)

(** Each coordinate produced by [canvas_to_image_xy] lies inside the image. *)
Lemma canvas_to_image_xy_clamped self x y w h p :
  image self = Some (w, h) -> 1 <= w -> 1 <= h ->
  canvas_to_image_xy self x y = Return p ->
  0 <= fst p <= w - 1 /\ 0 <= snd p <= h - 1.
Proof.
  intros Himg Hw Hh. unfold canvas_to_image_xy. rewrite Himg.
  destruct (display_scale self) as [sx sy].
  destruct (unscale x sx) as [ix|]; [|discriminate].
  destruct (unscale y sy) as [iy|]; [|discriminate].
  cbn [mbind result_bind]. intros [= <-]. simpl. lia.
Qed.

Lemma on_canvas_click_registered self ev :
  registered self -> registered (snd (on_canvas_click ev self)).
Proof.
  rewrite !registered_slot. intros Hreg n' Hn'.
  rewrite on_canvas_click_slot. specialize (Hreg n' Hn').
  repeat case_match; eauto.
Qed.

(** With an image of at most [2 ^ 52] rows, clicks keep every row in range. *)
Lemma on_canvas_click_in_range self ev :
  (forall w h, image self = Some (w, h) -> 1 <= w /\ 1 <= h <= 2 ^ 52) ->
  in_range self -> in_range (snd (on_canvas_click ev self)).
Proof.
  intros Himg Hr. unfold in_range in *. rewrite Forall_forall in *.
  intros n' Hn'. specialize (Hr n' Hn'). unfold y_at in *.
  rewrite coord_slot in *. rewrite on_canvas_click_slot.
  destruct (image self) as [[w h]|] eqn:Hi; [|exact Hr].
  destruct (current_mode self) as [n|]; [|exact Hr].
  destruct (bool_decide (n ∈ POINT_NAMES)); [|exact Hr].
  destruct (canvas_to_image_xy self (ev_x ev) (ev_y ev)) as [p|e] eqn:Hp; [|exact Hr].
  destruct (points self !! n); [|exact Hr].
  destruct (decide (n' = n)); [|exact Hr].
  destruct (Himg w h eq_refl) as [Hw Hh].
  destruct (canvas_to_image_xy_clamped self _ _ w h p Hi Hw ltac:(lia) Hp) as [_ Hy].
  unfold row_ok. simpl. apply Z.ltb_lt. lia.
Qed.

Lemma init_registered : registered init.
Proof. by_evaluation. Qed.

Lemma clear_marks_in_range self : in_range (snd (clear_marks self)).
Proof.
  unfold in_range. apply Forall_forall. intros n _.
  unfold y_at. now rewrite clear_marks_coord.
Qed.

(** * Further properties of the handlers *)

(** ** Outcome of [compute_metrics] *)

Lemma fold_max_zero l : forall x,
  0 <= x -> (fold_left Z.max (map Z.abs l) x = 0 <-> x = 0 /\ Forall (fun h => h = 0) l).
Proof.
  induction l as [|z l IH]; intros x Hx; simpl.
  - split; [intros ->; auto|tauto].
  - rewrite IH by lia. split.
    + intros [Hm Hl]. split; [lia|]. constructor; [lia|exact Hl].
    + intros [-> Hl]. inversion Hl; subst. split; [reflexivity|assumption].
Qed.

Lemma spec_max_abs_zero hs :
  spec_max_abs hs = Some 0 <->
  (exists h, Some h ∈ hs) /\ (forall h, Some h ∈ hs -> h = 0).
Proof.
  unfold spec_max_abs.
  assert (Hin : forall h, Some h ∈ hs <-> h ∈ omap id hs).
  { intros h. rewrite list_elem_of_omap. split.
    - intros H. exists (Some h). auto.
    - intros (o & Ho & Hoh). simpl in Hoh. now subst o. }
  destruct (omap id hs) as [|h0 l] eqn:E.
  - split; [discriminate|]. intros [[h Hh] _]. apply Hin in Hh.
    now apply elem_of_nil in Hh.
  - split.
    + intros [= Hm]. apply fold_max_zero in Hm as [H0 Hl]; [|lia]. split.
      * exists h0. apply Hin. left.
      * intros h Hh. apply Hin in Hh. apply elem_of_cons in Hh as [->|Hh]; [lia|].
        rewrite Forall_forall in Hl. apply Hl. exact Hh.
    + intros [_ Hall]. f_equal. apply fold_max_zero; [lia|]. split.
      * rewrite (Hall h0); [reflexivity|]. apply Hin. left.
      * apply Forall_forall. intros h Hh. apply Hall, Hin. now right.
Qed.

(** The divisor is zero exactly when there is no usable span, some marker
    has a height, and every such height is zero. *)
Lemma state_divisor_zero_iff self :
  state_divisor self = 0 <->
  state_span self = None /\
  (exists k, is_Some (marker_height self k)) /\
  (forall k h, marker_height self k = Some h -> h = 0).
Proof.
  unfold state_divisor, spec_divisor.
  destruct (state_span self) as [s|] eqn:Hs; cbn [fst].
  - split; [|intros [[=] _]]. intros ->. now apply spec_span_nonzero in Hs.
  - assert (Hm : default 1 (spec_max_abs (marker_heights self)) = 0 <->
                 spec_max_abs (marker_heights self) = Some 0).
    { destruct (spec_max_abs (marker_heights self)); simpl; split; congruence. }
    rewrite Hm, spec_max_abs_zero. unfold marker_heights.
    split.
    + intros [[h Hh] Hall]. split; [reflexivity|]. split.
      * rewrite !elem_of_cons, elem_of_nil in Hh.
        destruct Hh as [Hh|[Hh|[Hh|[]]]]; eexists; rewrite <- Hh; eauto.
      * intros k h' Hk. apply Hall. rewrite <- Hk, !elem_of_cons. destruct k; auto.
    + intros (_ & [k [h Hk]] & Hall). split.
      * exists h. rewrite <- Hk, !elem_of_cons. destruct k; auto.
      * intros h' Hh. rewrite !elem_of_cons, elem_of_nil in Hh.
        destruct Hh as [Hh|[Hh|[Hh|[]]]]; symmetry in Hh; eapply Hall; eauto.
Qed.

(** X1: for a registry holding pixel rows, [compute_metrics] either returns
    a result or raises [ZeroDivisionError], never another exception; it
    raises exactly when there is no usable Baseline-to-Axis span, at least
    one of A, B, Control has a height, and every such height is zero. *)
Theorem X1_compute_metrics_outcome self :
  registered self -> in_range self ->
  let degenerate :=
    state_span self = None /\
    (exists k, is_Some (marker_height self k)) /\
    (forall k h, marker_height self k = Some h -> h = 0) in
  (degenerate -> compute_metrics self = Raise ZeroDivisionError) /\
  (~ degenerate -> exists m, compute_metrics self = Return m) /\
  (forall e, compute_metrics self = Raise e -> e = ZeroDivisionError /\ degenerate).
Proof.
  intros Hreg Hr degenerate.
  assert (Hiff : state_divisor self = 0 <-> degenerate) by apply state_divisor_zero_iff.
  split; [|split].
  - intros Hd. apply compute_metrics_raises; tauto.
  - intros Hnd. destruct (compute_metrics_returns self Hreg Hr) as (m & Hm & _);
      [tauto|eauto].
  - intros e He. destruct (Z.eq_dec (state_divisor self) 0) as [H0|Hn].
    + rewrite compute_metrics_raises in He by assumption.
      split; [congruence|tauto].
    + destruct (compute_metrics_returns self Hreg Hr Hn) as (m & Hm & _). congruence.
Qed.

Lemma X1_compute_metrics_outcome_witness :
  registered flat_AB /\ in_range flat_AB /\
  compute_metrics flat_AB = Raise ZeroDivisionError.
Proof.
  assert (Hreg : registered flat_AB) by by_evaluation.
  assert (Hr : in_range flat_AB) by by_evaluation.
  split; [exact Hreg|]. split; [exact Hr|].
  apply (proj1 (X1_compute_metrics_outcome flat_AB Hreg Hr)).
  split; [reflexivity|]. split.
  - exists MA. vm_compute. eauto.
  - intros [] h; vm_compute; congruence.
Defined.

(** ** Mapping a click into the image *)

(** X2: with a working image of positive size, every coordinate that
    [canvas_to_image_xy] returns is a pixel of the image, wherever the click
    was and whatever the display scale is. *)
Theorem X2_canvas_to_image_xy_inside self x y w h p :
  image self = Some (w, h) -> 1 <= w -> 1 <= h ->
  canvas_to_image_xy self x y = Return p ->
  0 <= fst p < w /\ 0 <= snd p < h.
Proof.
  intros Himg Hw Hh Hp.
  destruct (canvas_to_image_xy_clamped self x y w h p Himg Hw Hh Hp). lia.
Qed.

Lemma X2_canvas_to_image_xy_inside_witness :
  image loaded = Some (640, 480) /\ 1 <= 640 /\ 1 <= 480 /\
  canvas_to_image_xy loaded 5000 (-7) = Return (639, 0) /\
  0 <= 639 < 640 /\ 0 <= 0 < 480.
Proof.
  assert (Hp : canvas_to_image_xy loaded 5000 (-7) = Return (639, 0))
    by (vm_compute; reflexivity).
  split; [reflexivity|]. split; [lia|]. split; [lia|]. split; [exact Hp|].
  exact (X2_canvas_to_image_xy_inside loaded 5000 (-7) 640 480 (639, 0)
           eq_refl ltac:(lia) ltac:(lia) Hp).
Defined.

(** ** What the metrics depend on *)

Lemma height_of_rows b P Q :
  snd <$> P = snd <$> Q -> height_of b P = height_of b Q.
Proof. destruct P as [[]|], Q as [[]|]; simpl; congruence. Qed.

Lemma metrics_of_points_rows b1 c1 A1 B1 x1 b2 c2 A2 B2 x2 av :
  snd <$> b1 = snd <$> b2 -> snd <$> c1 = snd <$> c2 ->
  snd <$> A1 = snd <$> A2 -> snd <$> B1 = snd <$> B2 -> snd <$> x1 = snd <$> x2 ->
  metrics_of_points b1 c1 A1 B1 x1 av = metrics_of_points b2 c2 A2 B2 x2 av.
Proof.
  intros Hb Hc HA HB Hx. unfold metrics_of_points. rewrite Hb, Hx.
  now rewrite (height_of_rows _ A1 A2 HA), (height_of_rows _ B1 B2 HB),
    (height_of_rows _ c1 c2 Hc).
Qed.

(** X3: [compute_metrics] never looks at an x coordinate: two registries
    that record the same rows under the five names, with the same axis
    value, give the same outcome. *)
Theorem X3_compute_metrics_ignores_x s1 s2 :
  registered s1 -> registered s2 ->
  (forall n, n ∈ POINT_NAMES -> y_at s1 n = y_at s2 n) ->
  axis_value s1 = axis_value s2 ->
  compute_metrics s1 = compute_metrics s2.
Proof.
  intros H1 H2 Hy Hav. rewrite !compute_metrics_registered by assumption.
  rewrite Hav. apply metrics_of_points_rows; apply Hy, elem_of_POINT_NAMES; tauto.
Qed.

Lemma X3_compute_metrics_ignores_x_witness :
  let s2 := place "A" (600, 300) scenario in
  registered scenario /\ registered s2 /\
  (forall n, n ∈ POINT_NAMES -> y_at scenario n = y_at s2 n) /\
  axis_value scenario = axis_value s2 /\
  coord scenario "A" <> coord s2 "A" /\
  compute_metrics scenario = compute_metrics s2.
Proof.
  intros s2.
  assert (H1 : registered scenario) by by_evaluation.
  assert (H2 : registered s2) by by_evaluation.
  assert (Hy : forall n, n ∈ POINT_NAMES -> y_at scenario n = y_at s2 n).
  { intros n [->|[->|[->|[->| ->]]]]%elem_of_POINT_NAMES; vm_compute; reflexivity. }
  split; [exact H1|]. split; [exact H2|]. split; [exact Hy|].
  split; [reflexivity|]. split; [vm_compute; discriminate|].
  exact (X3_compute_metrics_ignores_x scenario s2 H1 H2 Hy eq_refl).
Defined.

(** A shift of every recorded row by the same amount. *)
Lemma spec_height_shift d b y :
  spec_height (Z.add d <$> b) (Z.add d <$> y) = spec_height b y.
Proof. destruct b, y; simpl; try reflexivity. f_equal. lia. Qed.

(** X4: the metrics depend on the rows only through their differences.  When
    every recorded row of a second registry is the row of the first one
    shifted by the same [d], both give the same outcome, and a returned
    result differs at most under the key [height_Baseline_y]. *)
Theorem X4_compute_metrics_shift s1 s2 d :
  registered s1 -> in_range s1 -> registered s2 -> in_range s2 ->
  (forall n, n ∈ POINT_NAMES -> y_at s2 n = Z.add d <$> y_at s1 n) ->
  axis_value s1 = axis_value s2 ->
  compute_metrics s2 =
  m ← compute_metrics s1;
  Return (with_baseline_y m (PyFloat.round_int <$> y_at s2 "Baseline")).
Proof.
  intros Hg1 Hr1 Hg2 Hr2 Hy Hav.
  assert (Hh : forall k, marker_height s2 k = marker_height s1 k).
  { intros k. unfold marker_height.
    rewrite (Hy "Baseline"%string), (Hy (marker_name k)).
    - apply spec_height_shift.
    - apply marker_name_valid.
    - apply elem_of_POINT_NAMES; tauto. }
  assert (Hs : state_span s2 = state_span s1).
  { unfold state_span, spec_span.
    rewrite (Hy "Baseline"%string), (Hy "Axis"%string)
      by (apply elem_of_POINT_NAMES; tauto).
    now rewrite spec_height_shift. }
  assert (Hd : state_divisor s2 = state_divisor s1 /\ state_auto s2 = state_auto s1).
  { unfold state_divisor, state_auto, marker_heights. now rewrite Hs, !Hh. }
  destruct Hd as [Hd Ha].
  rewrite (compute_metrics_steps s2 Hg2 Hr2), (compute_metrics_steps s1 Hg1 Hr1).
  cbv zeta. rewrite !Hh, Hd, Ha, <- Hav.
  destruct (base_norm _ _ (PyFloat.round_int <$> marker_height s1 MControl)); [|reflexivity].
  destruct (base_norm _ _ (PyFloat.round_int <$> marker_height s1 MA)); [|reflexivity].
  destruct (base_norm _ _ (PyFloat.round_int <$> marker_height s1 MB)); reflexivity.
Qed.

Lemma X4_compute_metrics_shift_witness :
  let s2 := place "B" (40, 82) (place "A" (20, 102) (place "Baseline" (0, 105) loaded)) in
  registered small /\ in_range small /\ registered s2 /\ in_range s2 /\
  (forall n, n ∈ POINT_NAMES -> y_at s2 n = Z.add 5 <$> y_at small n) /\
  axis_value small = axis_value s2 /\
  compute_metrics s2 =
  m ← compute_metrics small;
  Return (with_baseline_y m (PyFloat.round_int <$> y_at s2 "Baseline")).
Proof.
  intros s2.
  assert (H1 : registered small) by by_evaluation.
  assert (R1 : in_range small) by by_evaluation.
  assert (H2 : registered s2) by by_evaluation.
  assert (R2 : in_range s2) by by_evaluation.
  assert (Hy : forall n, n ∈ POINT_NAMES -> y_at s2 n = Z.add 5 <$> y_at small n).
  { intros n [->|[->|[->|[->| ->]]]]%elem_of_POINT_NAMES; vm_compute; reflexivity. }
  split; [exact H1|]. split; [exact R1|]. split; [exact H2|]. split; [exact R2|].
  split; [exact Hy|]. split; [reflexivity|].
  exact (X4_compute_metrics_shift small s2 5 H1 R1 H2 R2 Hy eq_refl).
Defined.

(** ** Calibration *)

Lemma base_norm_axis_value hAxis av av' v :
  match base_norm hAxis av v with
  | Raise e => base_norm hAxis av' v = Raise e
  | Return r => exists r', base_norm hAxis av' v = Return r' /\ (is_Some r' <-> is_Some r)
  end.
Proof.
  unfold base_norm. destruct v as [v|], hAxis as [s|]; try (eexists; split; [reflexivity|tauto]).
  destruct (PyFloat.truediv v s); cbn [mbind result_bind]; [|reflexivity].
  eexists. split; [reflexivity|]. split; eauto.
Qed.

(** The calibration value reaches the result only through the
    Baseline-normalized values and the key [Axis_Value]. *)
Lemma metrics_of_points_axis_value b c A B x av av' :
  match metrics_of_points b c A B x av with
  | Raise e => metrics_of_points b c A B x av' = Raise e
  | Return m =>
      exists m', metrics_of_points b c A B x av' = Return m' /\
                 same_measurements m m' /\ Axis_Value m' = Some av'
  end.
Proof.
  unfold metrics_of_points.
  destruct (height_of (snd <$> b) A) as [hA|]; [|reflexivity].
  destruct (height_of (snd <$> b) B) as [hB|]; [|reflexivity].
  destruct (height_of (snd <$> b) c) as [hC|]; [|reflexivity].
  cbn [mbind result_bind].
  destruct (auto_scale _ hA hB hC) as [scale auto].
  destruct (float_opt (snd <$> b)) as [fb|]; [|reflexivity].
  cbn [mbind result_bind].
  pose proof (base_norm_axis_value (Some scale) av av' hC) as HC.
  destruct (base_norm (Some scale) av hC) as [bC|]; [|now rewrite HC].
  destruct HC as (bC' & -> & HC).
  pose proof (base_norm_axis_value (Some scale) av av' hA) as HA.
  destruct (base_norm (Some scale) av hA) as [bA|]; [|now rewrite HA].
  destruct HA as (bA' & -> & HA).
  pose proof (base_norm_axis_value (Some scale) av av' hB) as HB.
  destruct (base_norm (Some scale) av hB) as [bB|]; [|now rewrite HB].
  destruct HB as (bB' & -> & HB).
  cbn [mbind result_bind]. eexists. split; [reflexivity|].
  split; [|reflexivity]. unfold same_measurements. cbn.
  split; [reflexivity|]. split; [intros k; now destruct k|].
  split; [reflexivity|]. split; [reflexivity|].
  split; [intros X Y; now destruct X, Y|]. intros k; now destruct k.
Qed.

(** X5: [set_axis_tick] never raises and touches neither the registry nor
    the image, whatever the dialog answers; the calibration it stores
    changes the outcome of [compute_metrics] in the Baseline-normalized
    values and in [Axis_Value] only: an exception stays the same exception,
    and a result keeps every height, the divisor, the auto flag and every
    pairwise percentage. *)
Theorem X5_set_axis_tick_recalibrates answer self :
  let s' := snd (set_axis_tick answer self) in
  fst (set_axis_tick answer self) = Return tt /\
  points s' = points self /\ image s' = image self /\
  match compute_metrics self with
  | Raise e => compute_metrics s' = Raise e
  | Return m =>
      exists m', compute_metrics s' = Return m' /\
                 same_measurements m m' /\ Axis_Value m' = Some (axis_value s')
  end.
Proof.
  intros s'.
  assert (Hgen : forall s2, points s2 = points self ->
    match compute_metrics self with
    | Raise e => compute_metrics s2 = Raise e
    | Return m =>
        exists m', compute_metrics s2 = Return m' /\
                   same_measurements m m' /\ Axis_Value m' = Some (axis_value s2)
    end).
  { intros s2 Hp. unfold compute_metrics.
    assert (Hxy : forall n, point_xy s2 n = point_xy self n)
      by (intros n; unfold point_xy; now rewrite Hp).
    rewrite !Hxy.
    destruct (point_xy self "Baseline") as [b|]; [|reflexivity].
    destruct (point_xy self "Control") as [c|]; [|reflexivity].
    destruct (point_xy self "A") as [A|]; [|reflexivity].
    destruct (point_xy self "B") as [B|]; [|reflexivity].
    destruct (point_xy self "Axis") as [x|]; [|reflexivity].
    cbn [mbind result_bind].
    apply (metrics_of_points_axis_value b c A B x (axis_value self) (axis_value s2)). }
  assert (Hst : fst (set_axis_tick answer self) = Return tt /\
                points s' = points self /\ image s' = image self).
  { subst s'. unfold set_axis_tick. rewrite run_get.
    destruct (try_except answer (Some (axis_value self))); repeat split. }
  destruct Hst as (Hr & Hp & Hi).
  split; [exact Hr|]. split; [exact Hp|]. split; [exact Hi|]. apply Hgen, Hp.
Qed.

Lemma X5_set_axis_tick_recalibrates_witness :
  let s' := snd (set_axis_tick (Return (Some (PyFloat.round_int 50))) small) in
  current_mode s' = Some "Axis"%string /\
  axis_value s' = PyFloat.round_int 50 /\
  points s' = points small /\
  exists m m', compute_metrics small = Return m /\ compute_metrics s' = Return m' /\
               same_measurements m m' /\ BaseNorm_A m' <> BaseNorm_A m.
Proof.
  intros s'.
  pose proof (X5_set_axis_tick_recalibrates (Return (Some (PyFloat.round_int 50))) small)
    as (_ & Hp & _ & H).
  fold s' in Hp, H.
  split; [reflexivity|]. split; [reflexivity|]. split; [exact Hp|].
  destruct (compute_metrics small) as [m|] eqn:Hm; [|vm_compute in Hm; discriminate Hm].
  destruct H as (m' & Hm' & Hs & _). exists m, m'.
  split; [reflexivity|]. split; [exact Hm'|]. split; [exact Hs|].
  vm_compute in Hm. injection Hm as <-.
  vm_compute in Hm'. injection Hm' as <-. vm_compute. discriminate.
Defined.

(** ** Internal consistency of a result *)

(** X6: in every result that [compute_metrics] returns, the percentages are
    functions of the heights reported in the same result: a Baseline-normalized
    value is defined exactly for the markers that have a height, and a
    pairwise percentage or delta of X against Y exactly when both heights are
    defined and that of Y is not zero. *)
Theorem X6_result_defined_keys self m :
  compute_metrics self = Return m ->
  (forall k, is_Some (base_norm_of m k) <-> is_Some (height_px m k)) /\
  (forall X Y, X <> Y ->
     as_pct_of m X Y = pct (height_px m X) (height_px m Y) /\
     delta_vs m X Y = pct (diff (height_px m X) (height_px m Y)) (height_px m Y) /\
     (is_Some (as_pct_of m X Y) <->
      exists hx hy, height_px m X = Some hx /\ height_px m Y = Some hy /\
                    PyFloat.is_zero hy = false) /\
     (is_Some (as_pct_of m X Y) <-> is_Some (delta_vs m X Y))).
Proof.
  intros Hm.
  assert (Hpct : forall n d, is_Some (pct n d) <->
            exists hn hd, n = Some hn /\ d = Some hd /\ PyFloat.is_zero hd = false).
  { intros n d. unfold pct. destruct n as [n|], d as [d|];
      try (split; [intros [? [=]]|intros (? & ? & ? & ? & ?); discriminate]).
    unfold PyFloat.truediv. destruct (PyFloat.is_zero d) eqn:Hz; simpl.
    - split; [intros [? [=]]|intros (? & ? & _ & [= <-] & ?); congruence].
    - split; eauto 6. }
  revert Hm. unfold compute_metrics.
  destruct (point_xy self "Baseline") as [b|]; [|discriminate].
  destruct (point_xy self "Control") as [c|]; [|discriminate].
  destruct (point_xy self "A") as [A|]; [|discriminate].
  destruct (point_xy self "B") as [B|]; [|discriminate].
  destruct (point_xy self "Axis") as [x|]; [|discriminate].
  cbn [mbind result_bind]. unfold metrics_of_points.
  destruct (height_of (snd <$> b) A) as [hA|]; [|discriminate].
  destruct (height_of (snd <$> b) B) as [hB|]; [|discriminate].
  destruct (height_of (snd <$> b) c) as [hC|]; [|discriminate].
  cbn [mbind result_bind].
  destruct (auto_scale _ hA hB hC) as [scale auto].
  destruct (float_opt (snd <$> b)) as [fb|]; [|discriminate].
  cbn [mbind result_bind].
  assert (Hbn : forall h r, base_norm (Some scale) (axis_value self) h = Return r ->
                            (is_Some r <-> is_Some h)).
  { intros h r. unfold base_norm. destruct h as [v|].
    - destruct (PyFloat.truediv v scale); [|discriminate].
      cbn [mbind result_bind]. intros [= <-]. split; eauto.
    - intros [= <-]. tauto. }
  destruct (base_norm (Some scale) (axis_value self) hC) as [bC|] eqn:EC; [|discriminate].
  destruct (base_norm (Some scale) (axis_value self) hA) as [bA|] eqn:EA; [|discriminate].
  destruct (base_norm (Some scale) (axis_value self) hB) as [bB|] eqn:EB; [|discriminate].
  cbn [mbind result_bind]. intros [= <-].
  split.
  - intros k. destruct k; cbn [base_norm_of height_px BaseNorm_A BaseNorm_B
      BaseNorm_Control height_A_px height_B_px height_Control_px]; eauto.
  - intros X Y Hne.
    assert (Hd : forall n d, is_Some (pct n d) <-> is_Some (pct (diff n d) d)).
    { intros n d. rewrite !Hpct. unfold diff. destruct n as [n|], d as [d|].
      - split; intros (? & ? & _ & [= <-] & ?); eauto 6.
      - split; intros (? & ? & ? & ? & ?); discriminate.
      - split; intros (? & ? & ? & ? & ?); discriminate.
      - split; intros (? & ? & ? & ? & ?); discriminate. }
    destruct X, Y; try congruence;
      cbn [as_pct_of delta_vs height_px A_as_pct_of_B B_as_pct_of_A
           delta_A_vs_B_pct delta_B_vs_A_pct A_as_pct_of_Control Control_as_pct_of_A
           delta_A_vs_Control_pct delta_Control_vs_A_pct B_as_pct_of_Control
           Control_as_pct_of_B delta_B_vs_Control_pct delta_Control_vs_B_pct
           height_A_px height_B_px height_Control_px];
      (split; [reflexivity|]); (split; [reflexivity|]); (split; [apply Hpct|apply Hd]).
Qed.

Lemma X6_result_defined_keys_witness :
  exists m, compute_metrics small = Return m /\
    (forall k, is_Some (base_norm_of m k) <-> is_Some (height_px m k)).
Proof.
  eexists. split; [vm_compute; reflexivity|].
  refine (proj1 (X6_result_defined_keys small _ _)). vm_compute. reflexivity.
Defined.

(** ** Methods that leave the marks alone *)

Lemma keeps_marks_refl s : keeps_marks s s.
Proof. unfold keeps_marks. tauto. Qed.

Lemma keeps_marks_trans s1 s2 s3 :
  keeps_marks s1 s2 -> keeps_marks s2 s3 -> keeps_marks s1 s3.
Proof.
  unfold keeps_marks. intros (H1 & H2 & H3 & H4) (K1 & K2 & K3 & K4).
  split; [intros n; now rewrite K1|]. split; [congruence|]. split; congruence.
Qed.

Lemma keeps_marks_compute s s' :
  keeps_marks s s' -> compute_metrics s' = compute_metrics s.
Proof.
  intros (Hs & _ & Hav & _). unfold compute_metrics.
  rewrite !(point_xy_agree s' s) by apply Hs. now rewrite Hav.
Qed.

Lemma update_point_items n l d t self :
  keeps_marks self (snd (update_point n (set_items l d t) self)).
Proof.
  split; [intros n'; now apply update_point_keeps|].
  unfold update_point. rewrite run_get.
  destruct (points self !! n); repeat split.
Qed.

Lemma draw_point_marks n p self : keeps_marks self (snd (draw_point n p self)).
Proof.
  unfold draw_point. rewrite run_get.
  destruct (image self) as [sz|] eqn:Hi; [|apply keeps_marks_refl].
  pose proof (update_point_items n None None None self) as H1.
  rewrite run_bind.
  destruct (update_point n (set_items None None None) self) as [[[]|e] s1];
    [|exact H1].
  cbn [snd] in H1. rewrite run_bind. unfold lift at 1.
  destruct (image_to_canvas_xy self p.1 p.2) as [c|e]; [|exact H1].
  set (i := canvas_next self).
  pose proof (update_point_items n (Some i) (Some (i + 1)) (Some (i + 2)) s1) as H2.
  rewrite run_bind.
  destruct (update_point n _ s1) as [[[]|e] s2]; cbn [snd] in H2 |- *;
    [|eapply keeps_marks_trans; eassumption].
  rewrite run_get. cbn [put_self snd].
  eapply keeps_marks_trans; [exact H1|]. eapply keeps_marks_trans; [exact H2|].
  repeat split.
Qed.

Lemma update_metrics_overlay_marks self :
  keeps_marks self (snd (update_metrics_overlay self)).
Proof.
  unfold update_metrics_overlay, clear_overlay_text.
  rewrite run_bind, run_get. cbn [put_self]. rewrite run_get, run_bind.
  unfold lift. destruct (compute_metrics _); repeat split.
Qed.

Lemma redraw_points_marks names : forall self,
  keeps_marks self (snd (redraw_points names self)).
Proof.
  induction names as [|n rest IH]; intros self; cbn [redraw_points].
  - apply keeps_marks_refl.
  - rewrite run_get. destruct (coord self n) as [p|]; [|apply IH].
    rewrite run_bind. pose proof (draw_point_marks n p self) as Hd.
    destruct (draw_point n p self) as [[[]|e] s1]; cbn [snd] in Hd; [|exact Hd].
    eapply keeps_marks_trans; [exact Hd|apply IH].
Qed.

Lemma reset_canvas_image_marks winfo self :
  keeps_marks self (snd (reset_canvas_image winfo self)).
Proof.
  unfold reset_canvas_image. rewrite run_get.
  destruct (image self) as [[img_w img_h]|]; [|apply keeps_marks_refl].
  rewrite run_bind. unfold lift at 1.
  destruct (PyNum.int_truediv _ img_w) as [rw|]; [|apply keeps_marks_refl].
  rewrite run_bind. unfold lift at 1.
  destruct (PyNum.int_truediv _ img_h) as [rh|]; [|apply keeps_marks_refl].
  rewrite run_bind. unfold lift at 1.
  destruct (rescale img_w _) as [dw|]; [|apply keeps_marks_refl].
  rewrite run_bind. unfold lift at 1.
  destruct (rescale img_h _) as [dh|]; [|apply keeps_marks_refl].
  rewrite run_bind. unfold lift at 1.
  destruct (PyNum.int_truediv _ img_w) as [sx|]; [|apply keeps_marks_refl].
  rewrite run_bind. unfold lift at 1.
  destruct (PyNum.int_truediv _ img_h) as [sy|]; [|apply keeps_marks_refl].
  rewrite run_bind. cbn [put_self]. rewrite run_get, run_bind. cbn [put_self].
  set (s0 := with_overlay _ _ _).
  assert (H0 : keeps_marks self s0) by (subst s0; repeat split).
  rewrite run_bind. pose proof (redraw_points_marks POINT_NAMES s0) as H1.
  destruct (redraw_points POINT_NAMES s0) as [[[]|e] s1]; cbn [snd] in H1 |- *;
    [|exact (keeps_marks_trans _ _ _ H0 H1)].
  eapply keeps_marks_trans; [exact H0|]. eapply keeps_marks_trans; [exact H1|].
  apply update_metrics_overlay_marks.
Qed.

(** ** Clearing and placing marks *)

(** X7: [clear_marks] always returns; it keeps the keys of the registry and
    the name of each point, resets every coordinate and every canvas item
    id, empties the overlay, leaves image, scale, calibration and mode
    alone, and clearing twice is the same as clearing once. *)
Theorem X7_clear_marks_forgets self :
  let s' := snd (clear_marks self) in
  fst (clear_marks self) = Return tt /\
  (forall n, is_Some (points s' !! n) <-> is_Some (points self !! n)) /\
  (forall n pt, points self !! n = Some pt ->
     points s' !! n = Some (mkPoint (name pt) None None None None)) /\
  overlay_items s' = [] /\
  (image s' = image self /\ display_scale s' = display_scale self /\
   axis_value s' = axis_value self /\ current_mode s' = current_mode self) /\
  clear_marks s' = (Return tt, s').
Proof.
  intros s'.
  assert (Hl : forall n, points s' !! n =
                 (fun pt => mkPoint (name pt) None None None None) <$> points self !! n).
  { intros n. subst s'. rewrite clear_marks_state.
    cbn [points with_overlay with_points]. now rewrite lookup_fmap. }
  split; [reflexivity|]. split; [|split; [|split; [|split]]].
  - intros n. rewrite Hl. now rewrite fmap_is_Some.
  - intros n pt Hn. now rewrite Hl, Hn.
  - reflexivity.
  - repeat split.
  - change (clear_marks s') with (@Return unit tt, snd (clear_marks s')).
    f_equal. rewrite clear_marks_state. subst s'. rewrite clear_marks_state.
    unfold with_overlay, with_points.
    cbn [image display_scale points axis_value current_mode overlay_items canvas_next].
    f_equal. apply map_eq. intros n. rewrite !lookup_fmap.
    now destruct (points self !! n).
Qed.

Lemma X7_clear_marks_forgets_witness :
  let s' := snd (clear_marks scenario) in
  coord scenario "A" = Some (20, 300) /\
  points s' !! "A"%string = Some (mkPoint "A" None None None None) /\
  clear_marks s' = (Return tt, s').
Proof.
  intros s'.
  pose proof (X7_clear_marks_forgets scenario) as (_ & _ & Hpt & _ & _ & Hidem).
  fold s' in Hpt, Hidem.
  split; [reflexivity|]. split; [|exact Hidem].
  apply (Hpt "A"%string (mkPoint "A" (Some (20, 300)) None None None)).
  vm_compute. reflexivity.
Defined.

Lemma on_canvas_click_ignored ev self :
  current_mode self = None -> on_canvas_click ev self = (Return tt, self).
Proof.
  intros Hm. unfold on_canvas_click. rewrite run_get, Hm.
  now destruct (image self).
Qed.

(** An accepted click, step by step. *)
Lemma on_canvas_click_run ev self sz n :
  image self = Some sz -> current_mode self = Some n -> n ∈ POINT_NAMES ->
  on_canvas_click ev self =
  match canvas_to_image_xy self (ev_x ev) (ev_y ev) with
  | Raise e => (Raise e, self)
  | Return p =>
      match update_point n (set_xy (Some p)) self with
      | (Raise e, s1) => (Raise e, s1)
      | (Return _, s1) =>
          match draw_point n p s1 with
          | (Raise e, s2) => (Raise e, s2)
          | (Return _, s2) => update_metrics_overlay (with_mode s2 None)
          end
      end
  end.
Proof.
  intros Hi Hm Hn. unfold on_canvas_click. rewrite run_get, Hi, Hm.
  rewrite bool_decide_eq_true_2 by exact Hn.
  rewrite run_bind. unfold lift at 1.
  destruct (canvas_to_image_xy self (ev_x ev) (ev_y ev)) as [p|e]; [|reflexivity].
  rewrite run_bind. destruct (update_point n (set_xy (Some p)) self) as [[[]|e] s1];
    [|reflexivity].
  rewrite run_bind. destruct (draw_point n p s1) as [[[]|e] s2]; [|reflexivity].
  reflexivity.
Qed.

(** X8: placement is one-shot.  After a click that returned normally,
    another click does nothing until a mode is chosen again: either the
    first click was ignored and so is the second, or it placed its point
    and left no mode. *)
Theorem X8_click_is_one_shot self ev ev' :
  fst (on_canvas_click ev self) = Return tt ->
  on_canvas_click ev' (snd (on_canvas_click ev self)) =
    (Return tt, snd (on_canvas_click ev self)).
Proof.
  intros Hr.
  destruct (current_mode self) as [n|] eqn:Hm;
    [|rewrite (on_canvas_click_ignored ev self Hm); now apply on_canvas_click_ignored].
  destruct (image self) as [sz|] eqn:Hi.
  2:{ assert (Hs : on_canvas_click ev self = (Return tt, self))
        by (unfold on_canvas_click; now rewrite run_get, Hi).
      rewrite Hs. cbn [snd]. unfold on_canvas_click. now rewrite run_get, Hi. }
  destruct (decide (n ∈ POINT_NAMES)) as [Hn|Hn].
  2:{ assert (Hs : forall e, on_canvas_click e self = (Return tt, self)).
      { intros e. unfold on_canvas_click. rewrite run_get, Hi, Hm.
        now rewrite bool_decide_eq_false_2. }
      now rewrite !Hs. }
  apply on_canvas_click_ignored. revert Hr.
  rewrite (on_canvas_click_run ev self sz n Hi Hm Hn).
  destruct (canvas_to_image_xy self (ev_x ev) (ev_y ev)) as [p|e]; [|discriminate].
  destruct (update_point n (set_xy (Some p)) self) as [[[]|e] s1]; [|discriminate].
  destruct (draw_point n p s1) as [[[]|e] s2]; [|discriminate].
  intros _. now destruct (update_metrics_overlay_marks (with_mode s2 None)) as (_ & _ & _ & ->).
Qed.

Lemma X8_click_is_one_shot_witness :
  let self := snd (set_mode (Some "A"%string) scenario) in
  fst (on_canvas_click (mkEvent 20 310) self) = Return tt /\
  coord (snd (on_canvas_click (mkEvent 20 310) self)) "A" = Some (20, 310) /\
  on_canvas_click (mkEvent 25 90) (snd (on_canvas_click (mkEvent 20 310) self)) =
    (Return tt, snd (on_canvas_click (mkEvent 20 310) self)).
Proof.
  intros self.
  assert (Hr : fst (on_canvas_click (mkEvent 20 310) self) = Return tt)
    by (vm_compute; reflexivity).
  split; [exact Hr|]. split; [vm_compute; reflexivity|].
  exact (X8_click_is_one_shot self (mkEvent 20 310) (mkEvent 25 90) Hr).
Defined.

Lemma update_point_run n f self pt :
  points self !! n = Some pt ->
  update_point n f self = (Return tt, with_points self (<[n := f pt]> (points self))).
Proof. intros Hn. unfold update_point. now rewrite run_get, Hn. Qed.

Lemma draw_point_returns n p c self :
  is_Some (points self !! n) ->
  image_to_canvas_xy self (fst p) (snd p) = Return c ->
  fst (draw_point n p self) = Return tt.
Proof.
  intros [pt Hn] Hc. unfold draw_point. rewrite run_get.
  destruct (image self); [|reflexivity].
  rewrite run_bind, (update_point_run n _ self pt Hn).
  rewrite run_bind. unfold lift at 1. rewrite Hc.
  rewrite run_bind. erewrite update_point_run; [reflexivity|].
  cbn [points with_points]. apply lookup_insert_eq.
Qed.

Lemma update_metrics_overlay_outcome self :
  fst (update_metrics_overlay self) = (_ ← compute_metrics self; Return tt).
Proof.
  unfold update_metrics_overlay, clear_overlay_text.
  rewrite run_bind, run_get. cbn [put_self]. rewrite run_get, run_bind.
  unfold lift.
  change (compute_metrics (with_overlay self [] (canvas_next self)))
    with (compute_metrics self).
  now destruct (compute_metrics self).
Qed.

(** X9: an accepted click whose coordinates convert updates the registry
    before it draws the panel: the point is recorded and the mode is reset,
    and the click returns or raises exactly as [compute_metrics] does on
    the registry it leaves.  A click that makes the divisor zero therefore
    raises although its point stays recorded. *)
Theorem X9_click_outcome self ev n p c :
  registered self -> is_Some (image self) ->
  current_mode self = Some n -> n ∈ POINT_NAMES ->
  canvas_to_image_xy self (ev_x ev) (ev_y ev) = Return p ->
  image_to_canvas_xy self (fst p) (snd p) = Return c ->
  let r := on_canvas_click ev self in
  coord (snd r) n = Some p /\ current_mode (snd r) = None /\
  fst r = (_ ← compute_metrics (snd r); Return tt).
Proof.
  intros Hreg [sz Hi] Hm Hn Hp Hc r.
  assert (Hpt : is_Some (points self !! n)).
  { unfold registered in Hreg. rewrite Forall_forall in Hreg. now apply Hreg. }
  destruct Hpt as [pt Hpt].
  assert (Hco : coord (snd r) n = Some p).
  { subst r. rewrite coord_slot, on_canvas_click_slot, Hi, Hm, Hp, Hpt.
    rewrite bool_decide_eq_true_2 by exact Hn. now rewrite decide_True. }
  split; [exact Hco|]. clear Hco. subst r.
  rewrite (on_canvas_click_run ev self sz n Hi Hm Hn), Hp.
  rewrite (update_point_run n _ self pt Hpt).
  set (s1 := with_points self _).
  assert (Hd : fst (draw_point n p s1) = Return tt).
  { apply (draw_point_returns n p c); [|exact Hc].
    subst s1. cbn [points with_points]. rewrite lookup_insert_eq. eauto. }
  destruct (draw_point n p s1) as [[[]|e] s2]; [|discriminate Hd].
  set (s3 := with_mode s2 None).
  destruct (update_metrics_overlay_marks s3) as (_ & _ & _ & Hmode).
  split; [exact Hmode|].
  rewrite update_metrics_overlay_outcome.
  now rewrite (keeps_marks_compute s3 _ (update_metrics_overlay_marks s3)).
Qed.

Lemma X9_click_outcome_witness :
  let self := snd (set_mode (Some "A"%string) (place "Baseline" (0, 100) loaded)) in
  let r := on_canvas_click (mkEvent 20 100) self in
  registered self /\ is_Some (image self) /\
  current_mode self = Some "A"%string /\ ("A"%string ∈ POINT_NAMES) /\
  canvas_to_image_xy self 20 100 = Return (20, 100) /\
  image_to_canvas_xy self 20 100 = Return (20, 100) /\
  fst r = Raise ZeroDivisionError /\
  coord (snd r) "A" = Some (20, 100) /\ current_mode (snd r) = None /\
  fst r = (_ ← compute_metrics (snd r); Return tt).
Proof.
  intros self r.
  assert (Hreg : registered self) by by_evaluation.
  assert (Himg : is_Some (image self)) by (vm_compute; eauto).
  assert (Hn : "A"%string ∈ POINT_NAMES) by (apply elem_of_POINT_NAMES; tauto).
  assert (Hp : canvas_to_image_xy self 20 100 = Return (20, 100)) by (vm_compute; reflexivity).
  assert (Hc : image_to_canvas_xy self 20 100 = Return (20, 100)) by (vm_compute; reflexivity).
  split; [exact Hreg|]. split; [exact Himg|]. split; [reflexivity|].
  split; [exact Hn|]. split; [exact Hp|]. split; [exact Hc|].
  split; [vm_compute; reflexivity|].
  exact (X9_click_outcome self (mkEvent 20 100) "A"%string (20, 100) (20, 100)
           Hreg Himg eq_refl Hn Hp Hc).
Defined.

(** ** Resizing and loading *)

(** [reset_canvas_image] ends with the overlay: it returns only if
    [compute_metrics] does. *)
Lemma reset_canvas_image_returns winfo self :
  is_Some (image self) -> fst (reset_canvas_image winfo self) = Return tt ->
  exists m, compute_metrics self = Return m.
Proof.
  intros [[img_w img_h] Hi]. unfold reset_canvas_image. rewrite run_get, Hi.
  rewrite run_bind. unfold lift at 1.
  destruct (PyNum.int_truediv _ img_w) as [rw|]; [|discriminate].
  rewrite run_bind. unfold lift at 1.
  destruct (PyNum.int_truediv _ img_h) as [rh|]; [|discriminate].
  rewrite run_bind. unfold lift at 1.
  destruct (rescale img_w _) as [dw|]; [|discriminate].
  rewrite run_bind. unfold lift at 1.
  destruct (rescale img_h _) as [dh|]; [|discriminate].
  rewrite run_bind. unfold lift at 1.
  destruct (PyNum.int_truediv _ img_w) as [sx|]; [|discriminate].
  rewrite run_bind. unfold lift at 1.
  destruct (PyNum.int_truediv _ img_h) as [sy|]; [|discriminate].
  rewrite run_bind. cbn [put_self]. rewrite run_get, run_bind. cbn [put_self].
  set (s0 := with_overlay _ _ _).
  assert (H0 : keeps_marks self s0) by (subst s0; repeat split).
  rewrite run_bind. pose proof (redraw_points_marks POINT_NAMES s0) as H1.
  destruct (redraw_points POINT_NAMES s0) as [[[]|e] s1]; cbn [snd] in H1;
    [|discriminate].
  rewrite update_metrics_overlay_outcome.
  rewrite (keeps_marks_compute _ _ (keeps_marks_trans _ _ _ H0 H1)).
  destruct (compute_metrics self) as [m|]; [eauto|discriminate].
Qed.

(** X10: resizing the canvas changes the display scale and the canvas
    items only: whether it returns or raises, it leaves every coordinate,
    the image, the calibration value and the mode as they were, so that
    [compute_metrics] gives the same outcome afterwards; and with an image
    loaded it returns only if [compute_metrics] returns. *)
Theorem X10_resize_keeps_marks winfo self :
  keeps_marks self (snd (on_resize winfo self)) /\
  compute_metrics (snd (on_resize winfo self)) = compute_metrics self /\
  (is_Some (image self) -> fst (on_resize winfo self) = Return tt ->
   exists m, compute_metrics self = Return m).
Proof.
  assert (Hk : keeps_marks self (snd (on_resize winfo self))).
  { unfold on_resize. rewrite run_get.
    destruct (image self); [apply reset_canvas_image_marks|apply keeps_marks_refl]. }
  split; [exact Hk|]. split; [now apply keeps_marks_compute|].
  intros Hi. unfold on_resize. rewrite run_get.
  destruct (image self) eqn:E; [|now destruct Hi].
  apply reset_canvas_image_returns. rewrite E. eauto.
Qed.

Lemma X10_resize_keeps_marks_witness :
  is_Some (image scenario) /\ fst (on_resize (800, 600) scenario) = Return tt /\
  display_scale (snd (on_resize (800, 600) scenario)) <> display_scale scenario /\
  exists m, compute_metrics scenario = Return m.
Proof.
  assert (Hi : is_Some (image scenario)) by (vm_compute; eauto).
  assert (Hr : fst (on_resize (800, 600) scenario) = Return tt) by (vm_compute; reflexivity).
  split; [exact Hi|]. split; [exact Hr|]. split; [vm_compute; discriminate|].
  exact (proj2 (proj2 (X10_resize_keeps_marks (800, 600) scenario)) Hi Hr).
Defined.

(** X11: [set_image] clears the marks last.  It always installs the new
    image and keeps calibration and mode.  When it returns, every
    coordinate is forgotten and the overlay is empty, and the registry it
    started from was one on which [compute_metrics] returns.  When it
    raises, which it does whenever [compute_metrics] raises on the old
    marks, every coordinate recorded on the previous image is still in the
    registry, under the new image. *)
Theorem X11_set_image_outcome img winfo self :
  let r := set_image img winfo self in
  image (snd r) = Some img /\
  axis_value (snd r) = axis_value self /\ current_mode (snd r) = current_mode self /\
  match fst r with
  | Return _ =>
      (forall n, coord (snd r) n = None) /\ overlay_items (snd r) = [] /\
      exists m, compute_metrics self = Return m
  | Raise _ => forall n, slot (snd r) n = slot self n
  end.
Proof.
  intros r. subst r. unfold set_image. rewrite run_get, run_bind. cbn [put_self].
  set (s0 := with_image self (Some img)).
  assert (H0 : (forall n, slot s0 n = slot self n) /\ axis_value s0 = axis_value self /\
               current_mode s0 = current_mode self) by (subst s0; repeat split).
  destruct H0 as (Hs0 & Ha0 & Hm0).
  pose proof (reset_canvas_image_marks winfo s0) as (Hs & Hi & Ha & Hm).
  pose proof (reset_canvas_image_returns winfo s0) as Hret.
  rewrite run_bind.
  destruct (reset_canvas_image winfo s0) as [[[]|e] s1]; cbn [fst snd] in *.
  - split; [exact Hi|].
    split; [transitivity (axis_value s1); [reflexivity|congruence]|].
    split; [transitivity (current_mode s1); [reflexivity|congruence]|].
    split; [apply clear_marks_coord|]. split; [reflexivity|].
    destruct Hret as [m Hm']; [subst s0; cbn; eauto|reflexivity|].
    exists m. rewrite <- Hm'. unfold compute_metrics.
    rewrite !(point_xy_agree s0 self) by apply Hs0. now rewrite Ha0.
  - split; [exact Hi|]. split; [congruence|]. split; [congruence|].
    intros n. now rewrite Hs.
Qed.

Lemma X11_set_image_outcome_witness :
  let r := set_image (64, 48) (800, 600) flat_A in
  compute_metrics flat_A = Raise ZeroDivisionError /\
  fst r = Raise ZeroDivisionError /\
  image (snd r) = Some (64, 48) /\
  coord (snd r) "A" = Some (20, 100) /\
  forall n, slot (snd r) n = slot flat_A n.
Proof.
  intros r.
  assert (Hr : fst r = Raise ZeroDivisionError) by (vm_compute; reflexivity).
  split; [vm_compute; reflexivity|]. split; [exact Hr|].
  split; [vm_compute; reflexivity|]. split; [vm_compute; reflexivity|].
  pose proof (X11_set_image_outcome (64, 48) (800, 600) flat_A) as (_ & _ & _ & H).
  fold r in H. rewrite Hr in H. exact H.
Defined.

(** ** The ROI crop *)

Lemma crop_box_inside self w h x0 y0 x1 y1 ix0 iy0 ix1 iy1 :
  crop_box self w h x0 y0 x1 y1 = Return (ix0, iy0, ix1, iy1) ->
  (ix1 <=? ix0) || (iy1 <=? iy0) = false ->
  1 <= ix1 - ix0 <= w /\ 1 <= iy1 - iy0 <= h.
Proof.
  unfold crop_box.
  destruct (canvas_to_image_xy self x0 y0) as [p0|]; [|discriminate].
  destruct (canvas_to_image_xy self x1 y1) as [p1|]; [|discriminate].
  cbn [mbind result_bind]. intros [= <- <- <- <-].
  rewrite orb_false_iff, !Z.leb_gt. lia.
Qed.

Ltac marks_kept :=
  split; [reflexivity|];
  left; split; [cbn [snd app with_roi with_app with_mode image]; congruence|reflexivity].

(** What a button release in ROI mode leaves: either the image and the marks
    as they were, or a crop of the image with the marks cleared before the
    canvas is redrawn. *)
Lemma on_roi_release_cases ev winfo s :
  let r := on_roi_release ev winfo s in
  full_capture (snd r) = full_capture s /\
  ((image (app (snd r)) = image (app s) /\
    forall n, slot (app (snd r)) n = slot (app s) n) \/
   exists w h w' h',
     image (app s) = Some (w, h) /\ (1 <= w' <= w /\ 1 <= h' <= h) /\
     keeps_marks
       (snd (clear_marks (with_image (with_mode (app s) None) (Some (w', h')))))
       (app (snd r))).
Proof.
  intros r. subst r. unfold on_roi_release.
  destruct (roi_idle (app s)); [marks_kept|].
  destruct (roi_start s) as [[sx0 sy0]|]; [|marks_kept].
  destruct (image (app s)) as [[w h]|] eqn:Hi;
    [|marks_kept].
  destruct (_ || _); [marks_kept|].
  match goal with
  | |- context [crop_box ?a ?w ?h ?x0 ?y0 ?x1 ?y1] =>
      destruct (crop_box a w h x0 y0 x1 y1) as [[[[ix0 iy0] ix1] iy1]|e] eqn:Hc
  end; [|marks_kept].
  destruct ((ix1 <=? ix0) || (iy1 <=? iy0)) eqn:Hv;
    [marks_kept|].
  pose proof (crop_box_inside _ _ _ _ _ _ _ _ _ _ _ Hc Hv) as Hb.
  cbn [app with_app].
  set (cropped := with_image (with_mode (app s) None) (Some (ix1 - ix0, iy1 - iy0))).
  rewrite run_bind.
  change (clear_marks cropped) with (@Return unit tt, snd (clear_marks cropped)).
  cbv iota.
  pose proof (reset_canvas_image_marks winfo (snd (clear_marks cropped))) as Hk.
  destruct (reset_canvas_image winfo (snd (clear_marks cropped))) as [[[]|e] a];
    cbn [snd] in Hk; (split; [reflexivity|]); right;
    exists w, h, (ix1 - ix0), (iy1 - iy0); (split; [reflexivity|]);
    (split; [exact Hb|exact Hk]).
Qed.

(** X12: releasing the button in ROI mode.  Outside ROI mode, or without a
    drag in progress, nothing changes.  Otherwise the mode is reset, and
    the release either leaves the image and all marks as they were (drag
    under 4 pixels, empty box, coordinates that do not convert) or replaces
    the image by a crop that is at least one pixel and at most the image in
    each direction, with every mark forgotten, even when redrawing the
    canvas raises.  The full capture is never touched. *)
Theorem X12_roi_release_crops ev winfo s :
  let r := on_roi_release ev winfo s in
  full_capture (snd r) = full_capture s /\
  (roi_idle (app s) = true \/ roi_start s = None -> r = (Return tt, s)) /\
  (roi_idle (app s) = false -> is_Some (roi_start s) ->
   current_mode (app (snd r)) = None) /\
  ((image (app (snd r)) = image (app s) /\
    forall n, slot (app (snd r)) n = slot (app s) n) \/
   exists w h w' h',
     image (app s) = Some (w, h) /\ image (app (snd r)) = Some (w', h') /\
     1 <= w' <= w /\ 1 <= h' <= h /\
     forall n, coord (app (snd r)) n = None).
Proof.
  intros r. destruct (on_roi_release_cases ev winfo s) as [Hf Hc]. fold r in Hf, Hc.
  split; [exact Hf|]. split; [|split].
  - subst r. unfold on_roi_release. intros [->| ->]; [reflexivity|].
    now destruct (roi_idle (app s)).
  - intros Hidle [[sx0 sy0] Hst].
    assert (Himg : is_Some (image (app s))).
    { unfold roi_idle in Hidle. apply orb_false_iff in Hidle as [_ Hidle].
      apply bool_decide_eq_false in Hidle. destruct (image (app s)); [eauto|congruence]. }
    destruct Himg as [[w h] Hi].
    destruct Hc as [[_ Hs]|(w0 & h0 & w' & h' & _ & _ & Hk)].
    + subst r. unfold on_roi_release. rewrite Hidle, Hst, Hi.
      destruct (_ || _); [reflexivity|].
      match goal with
      | |- context [crop_box ?a ?w ?h ?x0 ?y0 ?x1 ?y1] =>
          destruct (crop_box a w h x0 y0 x1 y1) as [[[[ix0 iy0] ix1] iy1]|e]
      end; [|reflexivity].
      destruct (_ || _); [reflexivity|].
      set (cropped := with_image _ _).
      rewrite run_bind.
      change (clear_marks cropped) with (@Return unit tt, snd (clear_marks cropped)).
      cbv iota.
      destruct (reset_canvas_image_marks winfo (snd (clear_marks cropped)))
        as (_ & _ & _ & Hm).
      destruct (reset_canvas_image winfo (snd (clear_marks cropped))) as [[[]|e] a];
        exact Hm.
    + destruct Hk as (_ & _ & _ & ->). reflexivity.
  - destruct Hc as [Hc|(w & h & w' & h' & Hi & Hb & Hk)]; [left; exact Hc|].
    right. exists w, h, w', h'. destruct Hk as (Hs & Hi' & _).
    split; [exact Hi|]. split; [exact Hi'|]. split; [tauto|]. split; [tauto|].
    intros n. rewrite coord_slot, Hs, <- coord_slot. apply clear_marks_coord.
Qed.

Lemma X12_roi_release_crops_witness :
  let s := mkSession roi_mode (Some (640, 480)) (Some (100, 50)) None in
  let r := on_roi_release (mkEvent 300 250) (800, 600) s in
  roi_idle (app s) = false /\ is_Some (roi_start s) /\
  image (app (snd r)) = Some (200, 200) /\
  current_mode (app (snd r)) = None.
Proof.
  intros s r.
  assert (Hidle : roi_idle (app s) = false) by (vm_compute; reflexivity).
  assert (Hst : is_Some (roi_start s)) by (vm_compute; eauto).
  split; [exact Hidle|]. split; [exact Hst|]. split; [vm_compute; reflexivity|].
  exact (proj1 (proj2 (proj2 (X12_roi_release_crops (mkEvent 300 250) (800, 600) s)))
           Hidle Hst).
Defined.

(** ** Invariants of a session *)

Lemma image_ok_spec img w h :
  image_ok img = true -> img = Some (w, h) -> 1 <= w /\ 1 <= h <= 2 ^ 52.
Proof.
  intros H ->. unfold image_ok in H.
  rewrite !andb_true_iff, !Z.leb_le in H. lia.
Qed.

Lemma slots_registered s s' :
  (forall n, slot s' n = slot s n) -> registered s -> registered s'.
Proof.
  rewrite !registered_slot. intros Hs Hreg n Hn. rewrite Hs. now apply Hreg.
Qed.

Lemma slots_in_range s s' :
  (forall n, slot s' n = slot s n) -> in_range s -> in_range s'.
Proof.
  unfold in_range. rewrite !Forall_forall. intros Hs Hr n Hn.
  unfold y_at. rewrite coord_slot, Hs, <- coord_slot. now apply Hr.
Qed.

Lemma slots_inside s s' :
  (forall n, slot s' n = slot s n) -> image s' = image s -> inside s -> inside s'.
Proof.
  unfold inside. rewrite !Forall_forall. intros Hs Hi Hin n Hn.
  rewrite coord_slot, Hs, <- coord_slot. specialize (Hin n Hn).
  destruct (coord s n); [|reflexivity]. unfold in_image in *. now rewrite Hi.
Qed.

Lemma unplaced_inside s : (forall n, coord s n = None) -> inside s.
Proof.
  intros H. unfold inside. apply Forall_forall. intros n _. now rewrite H.
Qed.

Lemma unplaced_in_range s : (forall n, coord s n = None) -> in_range s.
Proof.
  intros H. unfold in_range. apply Forall_forall. intros n _.
  unfold y_at. now rewrite H.
Qed.

(** What [set_image] leaves: the new image, and either the marks as they
    were (it raised) or the cleared registry (it returned). *)
Lemma set_image_cases img winfo self :
  let r := set_image img winfo self in
  image (snd r) = Some img /\
  ((exists e, fst r = Raise e) /\ (forall n, slot (snd r) n = slot self n) \/
   fst r = Return tt /\
   exists s1, (forall n, slot s1 n = slot self n) /\ snd r = snd (clear_marks s1)).
Proof.
  intros r. subst r. unfold set_image. rewrite run_get, run_bind. cbn [put_self].
  set (s0 := with_image self (Some img)).
  pose proof (reset_canvas_image_marks winfo s0) as (Hs & Hi & _).
  rewrite run_bind.
  destruct (reset_canvas_image winfo s0) as [[[]|e] s1]; cbn [fst snd] in *.
  - split; [exact Hi|]. right. split; [reflexivity|]. exists s1. split; [exact Hs|reflexivity].
  - split; [exact Hi|]. left. split; [eauto|exact Hs].
Qed.

Lemma set_image_ok img winfo self :
  registered self -> in_range self ->
  registered (snd (set_image img winfo self)) /\ in_range (snd (set_image img winfo self)).
Proof.
  intros Hreg Hr.
  destruct (set_image_cases img winfo self) as [_ [[_ Hs]|[_ (s1 & Hs & ->)]]].
  - split; [eapply slots_registered|eapply slots_in_range]; eassumption.
  - split; [|apply clear_marks_in_range].
    apply clear_marks_registered. eapply slots_registered; eassumption.
Qed.

Lemma on_canvas_click_image ev self :
  image (snd (on_canvas_click ev self)) = image self.
Proof.
  destruct (image self) as [sz|] eqn:Hi;
    [|unfold on_canvas_click; now rewrite run_get, Hi].
  destruct (current_mode self) as [n|] eqn:Hm;
    [|now rewrite (on_canvas_click_ignored ev self Hm)].
  destruct (decide (n ∈ POINT_NAMES)) as [Hn|Hn].
  2:{ unfold on_canvas_click. rewrite run_get, Hi, Hm.
      now rewrite bool_decide_eq_false_2. }
  rewrite (on_canvas_click_run ev self sz n Hi Hm Hn).
  destruct (canvas_to_image_xy self (ev_x ev) (ev_y ev)) as [p|e]; [|exact Hi].
  assert (H1 : image (snd (update_point n (set_xy (Some p)) self)) = image self).
  { unfold update_point. rewrite run_get. now destruct (points self !! n). }
  destruct (update_point n (set_xy (Some p)) self) as [[[]|e] s1]; cbn [snd] in H1 |- *;
    [|congruence].
  destruct (draw_point_marks n p s1) as (_ & H2 & _).
  destruct (draw_point n p s1) as [[[]|e] s2]; cbn [snd] in H2 |- *; [|congruence].
  destruct (update_metrics_overlay_marks (with_mode s2 None)) as (_ & H3 & _).
  rewrite H3. cbn [image with_mode]. congruence.
Qed.

(** Every handler maintains the invariant, whether it returns or raises. *)
Lemma handle_session_ok ev s :
  sized_event ev = true -> session_ok s -> session_ok (snd (handle ev s)).
Proof.
  intros Hev (Hreg & Hr & Hi & Hf).
  destruct ev as [mode|answer|event| |winfo|opened winfo|winfo| |event|event|event winfo];
    cbn [handle sized_event] in *.
  - repeat split; assumption.
  - unfold session_ok, on_app. cbn [snd app full_capture].
    assert (Hp : points (snd (set_axis_tick answer (app s))) = points (app s) /\
                 image (snd (set_axis_tick answer (app s))) = image (app s)).
    { unfold set_axis_tick. rewrite run_get.
      destruct (try_except answer _); split; reflexivity. }
    destruct Hp as [Hp Hi'].
    assert (Hs : forall n, slot (snd (set_axis_tick answer (app s))) n = slot (app s) n)
      by (intros n; unfold slot; now rewrite Hp).
    split; [eapply slots_registered; eassumption|].
    split; [eapply slots_in_range; eassumption|]. split; [now rewrite Hi'|assumption].
  - unfold session_ok, on_app. cbn [snd app full_capture].
    split; [now apply on_canvas_click_registered|].
    split; [apply on_canvas_click_in_range;
            [intros w h; now apply image_ok_spec|assumption]|].
    split; [now rewrite on_canvas_click_image|assumption].
  - unfold session_ok, on_app. cbn [snd app full_capture].
    split; [now apply clear_marks_registered|].
    split; [apply clear_marks_in_range|]. split; assumption.
  - unfold session_ok, on_app. cbn [snd app full_capture].
    assert (Hk : keeps_marks (app s) (snd (on_resize winfo (app s)))).
    { unfold on_resize. rewrite run_get.
      destruct (image (app s)); [apply reset_canvas_image_marks|apply keeps_marks_refl]. }
    destruct Hk as (Hs & Hi' & _).
    split; [eapply slots_registered; eassumption|].
    split; [eapply slots_in_range; eassumption|]. split; [now rewrite Hi'|assumption].
  - unfold open_image. destruct opened as [img|]; [|repeat split; assumption].
    unfold session_ok, on_app. cbn [snd app full_capture].
    destruct (set_image_ok img winfo (app s) Hreg Hr) as [H1 H2].
    destruct (set_image_cases img winfo (app s)) as [Hi' _].
    split; [exact H1|]. split; [exact H2|]. split; [now rewrite Hi'|exact Hev].
  - unfold reset_to_full_capture.
    destruct (full_capture s) as [img|] eqn:Hfc; [|repeat split; try assumption; cbn [snd]; now rewrite Hfc].
    unfold session_ok, on_app. cbn [snd app full_capture].
    destruct (set_image_ok img winfo (app s) Hreg Hr) as [H1 H2].
    destruct (set_image_cases img winfo (app s)) as [Hi' _].
    split; [exact H1|]. split; [exact H2|]. split; [now rewrite Hi'|now rewrite Hfc].
  - unfold start_roi_mode.
    destruct (image (app s)) eqn:E; repeat split; try assumption;
      cbn [snd app with_roi with_app with_mode image]; now rewrite E.
  - unfold on_roi_press. destruct (roi_idle (app s)); repeat split; assumption.
  - unfold on_roi_drag. destruct (roi_idle (app s)); [repeat split; assumption|].
    destruct (roi_start s); [|repeat split; assumption].
    destruct (roi_rect_canvas_id s); repeat split; assumption.
  - destruct (on_roi_release_cases event winfo s) as [Hfc Hc].
    unfold session_ok. rewrite Hfc.
    destruct Hc as [[Hi' Hs]|(w & h & w' & h' & Hw & Hb & Hk)].
    + split; [eapply slots_registered; eassumption|].
      split; [eapply slots_in_range; eassumption|]. split; [now rewrite Hi'|assumption].
    + destruct Hk as (Hs & Hi' & _).
      pose proof (image_ok_spec _ w h Hi Hw) as Hwh.
      split; [|split; [|split; [|assumption]]].
      * eapply slots_registered; [exact Hs|]. apply clear_marks_registered.
        exact Hreg.
      * eapply slots_in_range; [exact Hs|]. apply clear_marks_in_range.
      * rewrite Hi'. cbn [image clear_marks]. unfold image_ok.
        change (image (snd (clear_marks (with_image (with_mode (app s) None) (Some (w', h'))))))
          with (Some (w', h')).
        rewrite !andb_true_iff, !Z.leb_le. lia.
Qed.

Lemma run_session_ok evs : forall s,
  forallb sized_event evs = true -> session_ok s -> session_ok (run evs s).
Proof.
  induction evs as [|ev rest IH]; intros s Hev Hs; cbn [run]; [exact Hs|].
  cbn [forallb] in Hev. apply andb_true_iff in Hev as [H1 H2].
  apply IH; [exact H2|]. now apply handle_session_ok.
Qed.

Lemma init_session_ok : session_ok init_session.
Proof.
  split; [apply init_registered|]. split; [by_evaluation|]. split; reflexivity.
Qed.

(** X13: in every state that a session reaches from [__init__], by any
    events whose handlers return or raise, as long as the opened images
    have at most [2 ^ 52] rows: the registry holds the five keys, every
    recorded row is in range, and [compute_metrics] returns a result or
    raises [ZeroDivisionError], no other exception. *)
Theorem X13_session_compute_outcome evs :
  forallb sized_event evs = true ->
  let self := app (run evs init_session) in
  registered self /\ in_range self /\
  ((exists m, compute_metrics self = Return m) \/
   compute_metrics self = Raise ZeroDivisionError).
Proof.
  intros Hev self.
  destruct (run_session_ok evs init_session Hev init_session_ok) as (Hreg & Hr & _).
  fold self in Hreg, Hr. split; [exact Hreg|]. split; [exact Hr|].
  destruct (Z.eq_dec (state_divisor self) 0) as [H0|Hn].
  - right. now apply compute_metrics_raises.
  - left. destruct (compute_metrics_returns self Hreg Hr Hn) as (m & Hm & _). eauto.
Qed.

Lemma X13_session_compute_outcome_witness :
  let evs := [EvOpenImage (Some (640, 480)) (800, 600);
              EvSetMode (Some "Baseline"%string); EvClick (mkEvent 10 100);
              EvSetMode (Some "A"%string); EvClick (mkEvent 20 100)] in
  forallb sized_event evs = true /\
  compute_metrics (app (run evs init_session)) = Raise ZeroDivisionError /\
  registered (app (run evs init_session)) /\ in_range (app (run evs init_session)).
Proof.
  intros evs.
  assert (Hev : forallb sized_event evs = true) by reflexivity.
  split; [exact Hev|]. split; [vm_compute; reflexivity|].
  pose proof (X13_session_compute_outcome evs Hev) as (H1 & H2 & _).
  split; [exact H1|exact H2].
Defined.

Lemma on_canvas_click_inside ev self :
  image_ok (image self) = true -> inside self ->
  inside (snd (on_canvas_click ev self)).
Proof.
  intros Hok Hin. unfold inside in *. rewrite Forall_forall in *.
  intros n' Hn'. specialize (Hin n' Hn'). revert Hin.
  unfold in_image. rewrite on_canvas_click_image.
  rewrite !coord_slot, on_canvas_click_slot.
  destruct (image self) as [[w h]|] eqn:Hi; [|tauto].
  destruct (current_mode self) as [n|]; [|tauto].
  destruct (bool_decide (n ∈ POINT_NAMES)); [|tauto].
  destruct (canvas_to_image_xy self (ev_x ev) (ev_y ev)) as [p|e] eqn:Hp; [|tauto].
  destruct (points self !! n); [|tauto].
  destruct (decide (n' = n)); [|tauto].
  intros _. cbn [mbind option_bind from_option id].
  destruct (image_ok_spec _ w h Hok eq_refl) as [Hw Hh].
  destruct (canvas_to_image_xy_clamped self _ _ w h p Hi Hw ltac:(lia) Hp).
  rewrite !andb_true_iff, !Z.leb_le, !Z.ltb_lt. lia.
Qed.

(** X14: the marks stay on the image.  If every placed point is a pixel of
    the working image, it still is after any event, whether the handler
    returns or raises, with one exception: loading an image (opening one,
    or resetting to the full capture) keeps this only when it returns. *)
Theorem X14_marks_inside_image ev s :
  image_ok (image (app s)) = true -> inside (app s) ->
  (loads_image ev = true -> fst (handle ev s) = Return tt) ->
  inside (app (snd (handle ev s))).
Proof.
  intros Hok Hin Hload.
  destruct ev as [mode|answer|event| |winfo|opened winfo|winfo| |event|event|event winfo];
    cbn [handle loads_image] in *.
  - exact Hin.
  - unfold on_app. cbn [snd app].
    assert (Hp : points (snd (set_axis_tick answer (app s))) = points (app s) /\
                 image (snd (set_axis_tick answer (app s))) = image (app s)).
    { unfold set_axis_tick. rewrite run_get.
      destruct (try_except answer _); split; reflexivity. }
    destruct Hp as [Hp Hi'].
    eapply slots_inside; [|exact Hi'|exact Hin].
    intros n; unfold slot; now rewrite Hp.
  - now apply on_canvas_click_inside.
  - apply unplaced_inside. intros n. apply clear_marks_coord.
  - unfold on_app. cbn [snd app].
    assert (Hk : keeps_marks (app s) (snd (on_resize winfo (app s)))).
    { unfold on_resize. rewrite run_get.
      destruct (image (app s)); [apply reset_canvas_image_marks|apply keeps_marks_refl]. }
    destruct Hk as (Hs & Hi' & _). eapply slots_inside; eassumption.
  - specialize (Hload eq_refl). revert Hload. unfold open_image.
    destruct opened as [img|]; [|intros _; exact Hin].
    unfold on_app. cbn [fst snd app]. intros Hret.
    destruct (set_image_cases img winfo (app s)) as [_ [[[e He] _]|[_ (s1 & _ & ->)]]];
      [congruence|].
    apply unplaced_inside. intros n. apply clear_marks_coord.
  - specialize (Hload eq_refl). revert Hload. unfold reset_to_full_capture.
    destruct (full_capture s) as [img|]; [|intros _; exact Hin].
    unfold on_app. cbn [fst snd app]. intros Hret.
    destruct (set_image_cases img winfo (app s)) as [_ [[[e He] _]|[_ (s1 & _ & ->)]]];
      [congruence|].
    apply unplaced_inside. intros n. apply clear_marks_coord.
  - unfold start_roi_mode. destruct (image (app s)) eqn:E; [|exact Hin].
    eapply slots_inside; [| |exact Hin]; reflexivity.
  - unfold on_roi_press. destruct (roi_idle (app s)); exact Hin.
  - unfold on_roi_drag. destruct (roi_idle (app s)); [exact Hin|].
    destruct (roi_start s); [|exact Hin].
    destruct (roi_rect_canvas_id s); [exact Hin|].
    eapply slots_inside; [| |exact Hin]; reflexivity.
  - destruct (on_roi_release_cases event winfo s) as
      [_ [[Hi' Hs]|(w & h & w' & h' & _ & _ & Hk)]].
    + eapply slots_inside; eassumption.
    + destruct Hk as (Hs & _). apply unplaced_inside. intros n.
      rewrite coord_slot, Hs, <- coord_slot. apply clear_marks_coord.
Qed.

Lemma X14_marks_inside_image_witness :
  let s := mkSession (snd (set_mode (Some "A"%string) small)) None None None in
  let ev := EvClick (mkEvent 5000 (-7)) in
  image_ok (image (app s)) = true /\ inside (app s) /\
  coord (app (snd (handle ev s))) "A" = Some (639, 0) /\
  inside (app (snd (handle ev s))).
Proof.
  intros s ev.
  assert (Hok : image_ok (image (app s)) = true) by reflexivity.
  assert (Hin : inside (app s)) by by_evaluation.
  split; [exact Hok|]. split; [exact Hin|]. split; [vm_compute; reflexivity|].
  apply (X14_marks_inside_image ev s Hok Hin). discriminate.
Defined.

(** The exception of X14 is real: opening a smaller image over a registry
    on which [compute_metrics] raises leaves a mark outside the new image. *)
Example stale_marks_outside_image :
  let s := mkSession flat_A None None None in
  let ev := EvOpenImage (Some (64, 48)) (800, 600) in
  image_ok (image (app s)) = true /\ inside (app s) /\ sized_event ev = true /\
  fst (handle ev s) = Raise ZeroDivisionError /\
  ~ inside (app (snd (handle ev s))).
Proof.
  intros s ev. split; [reflexivity|]. split; [by_evaluation|]. split; [reflexivity|].
  split; [vm_compute; reflexivity|].
  unfold inside. rewrite Forall_forall. intros H.
  specialize (H "A"%string ltac:(apply elem_of_POINT_NAMES; tauto)).
  vm_compute in H. discriminate H.
Qed.

(** ** The full capture *)

Lemma handle_full_capture ev s :
  opens ev = false -> full_capture (snd (handle ev s)) = full_capture s.
Proof.
  destruct ev as [mode|answer|event| |winfo|opened winfo|winfo| |event|event|event winfo];
    cbn [handle opens]; intros Ho; try reflexivity.
  - destruct opened; [discriminate Ho|reflexivity].
  - unfold reset_to_full_capture.
    destruct (full_capture s) eqn:E; [unfold on_app; cbn [snd full_capture]|cbn [snd]];
      congruence.
  - unfold start_roi_mode. now destruct (image (app s)).
  - unfold on_roi_press. now destruct (roi_idle (app s)).
  - unfold on_roi_drag. destruct (roi_idle (app s)); [reflexivity|].
    destruct (roi_start s); [|reflexivity]. now destruct (roi_rect_canvas_id s).
  - apply on_roi_release_cases.
Qed.

Lemma run_full_capture evs : forall s,
  forallb (fun ev => negb (opens ev)) evs = true ->
  full_capture (run evs s) = full_capture s.
Proof.
  induction evs as [|ev rest IH]; intros s Hev; cbn [run]; [reflexivity|].
  cbn [forallb] in Hev. apply andb_true_iff in Hev as [H1 H2].
  rewrite IH by exact H2. apply handle_full_capture. now apply negb_true_iff.
Qed.

(** X15: resetting to the full capture undoes the crops.  After an image
    is opened, whatever events follow short of opening another one (clicks,
    ROI crops, resizes, handlers that raise), the session still holds that
    image as its full capture, and [reset_to_full_capture] makes it the
    working image again. *)
Theorem X15_reset_restores_capture img w0 w1 evs s :
  forallb (fun ev => negb (opens ev)) evs = true ->
  let s1 := run evs (snd (handle (EvOpenImage (Some img) w0) s)) in
  full_capture s1 = Some img /\
  image (app (snd (handle (EvResetToFullCapture w1) s1))) = Some img.
Proof.
  intros Hev s1.
  assert (Hf : full_capture s1 = Some img).
  { subst s1. rewrite run_full_capture by exact Hev. reflexivity. }
  split; [exact Hf|].
  cbn [handle]. unfold reset_to_full_capture. rewrite Hf.
  unfold on_app. cbn [snd app]. apply set_image_cases.
Qed.

Lemma X15_reset_restores_capture_witness :
  let evs := [EvStartRoi; EvRoiPress (mkEvent 100 50); EvRoiDrag (mkEvent 200 100);
              EvRoiRelease (mkEvent 300 250) (800, 600)] in
  let s1 := run evs (snd (handle (EvOpenImage (Some (640, 480)) (640, 480)) init_session)) in
  forallb (fun ev => negb (opens ev)) evs = true /\
  image (app s1) = Some (200, 200) /\
  full_capture s1 = Some (640, 480) /\
  image (app (snd (handle (EvResetToFullCapture (640, 480)) s1))) = Some (640, 480).
Proof.
  intros evs s1.
  assert (Hev : forallb (fun ev => negb (opens ev)) evs = true) by reflexivity.
  split; [exact Hev|]. split; [vm_compute; reflexivity|].
  exact (X15_reset_restores_capture (640, 480) (640, 480) (640, 480) evs init_session Hev).
Defined.

(** * The display scale *)

Module PyNumFacts.
Import PyFloat PyFloatFacts.

Lemma normal_within s lo hi f : normal s lo hi f -> within hi f.
Proof. destruct f; simpl; tauto. Qed.

Lemma normal_truthy s lo hi f : normal s lo hi f -> truthy f = true /\ is_zero f = false.
Proof.
  destruct f as [| | |s' m e]; simpl; try tauto. intros _.
  unfold truthy, is_zero, eqb, SFeqb. simpl. now destruct s'.
Qed.

(** [int(f)] of a finite float returns. *)
Lemma to_int_within hi f :
  within hi f -> 0 <= hi -> exists z, to_int f = Return z /\ Z.abs z < 2 ^ (53 + hi).
Proof.
  intros Hf Hhi.
  assert (H0 : 0 < 2 ^ (53 + hi)) by (apply Z.pow_pos_nonneg; lia).
  destruct f as [s|s| |s m e]; simpl in Hf; try contradiction.
  - exists 0. split; [reflexivity|simpl; lia].
  - destruct Hf as [Hm He]. unfold to_int.
    set (mag := match e with
                | Zneg k => Z.shiftr (Zpos m) (Zpos k)
                | _ => Z.shiftl (Zpos m) e
                end).
    assert (Hmag : 0 <= mag < 2 ^ (53 + hi)).
    { rewrite Z.pow_add_r by lia.
      assert (1 <= 2 ^ hi) by (apply (Z.pow_le_mono_r 2 0 hi); lia).
      unfold mag. destruct e as [|k|k].
      - rewrite Z.shiftl_mul_pow2 by lia. simpl (2 ^ 0). nia.
      - rewrite Z.shiftl_mul_pow2 by lia.
        assert (0 < 2 ^ Zpos k <= 2 ^ hi)
          by (split; [apply Z.pow_pos_nonneg; lia|apply Z.pow_le_mono_r; lia]).
        nia.
      - rewrite Z.shiftr_div_pow2 by lia.
        assert (0 < 2 ^ Zpos k) by (apply Z.pow_pos_nonneg; lia).
        split; [apply Z.div_pos; lia|].
        apply Z.le_lt_trans with (Zpos m); [|nia].
        apply Z.div_le_upper_bound; [lia|nia]. }
    eexists. split; [reflexivity|]. destruct s; lia.
Qed.

(** The quotient of two positive integers, the divisor below [2 ^ 53], is
    a positive normal float. *)
Lemma div_pos_normal pa pb ka :
  Zpos pa < 2 ^ ka -> Zpos pb < 2 ^ 53 -> 1 <= ka <= 1000 ->
  normal false (-105) ka
    (SFdiv prec emax (S754_finite false pa 0) (S754_finite false pb 0)).
Proof.
  intros Ha Hb Hka. unfold SFdiv, SFdiv_core_binary. cbn [Zdigits2 xorb].
  pose proof (digits2_bounds pa) as Hda. pose proof (digits2_bounds pb) as Hdb.
  set (d1 := Zpos (digits2_pos pa)) in *. set (d2 := Zpos (digits2_pos pb)) in *.
  assert (Hd1 : 1 <= d1 <= ka).
  { split; [unfold d1; lia|].
    destruct (Z_le_gt_dec d1 ka) as [|Hgt]; [assumption|].
    assert (2 ^ ka <= 2 ^ (d1 - 1)) by (apply Z.pow_le_mono_r; lia). lia. }
  assert (Hd2 : 1 <= d2 <= 53).
  { split; [unfold d2; lia|].
    destruct (Z_le_gt_dec d2 53) as [|Hgt]; [assumption|].
    assert (2 ^ 53 <= 2 ^ (d2 - 1)) by (apply Z.pow_le_mono_r; lia). lia. }
  set (e' := Z.min (fexp prec emax (d1 + 0 - (d2 + 0))) (0 - 0)).
  assert (He' : e' = Z.min (d1 - d2 - 53) 0)
    by (unfold e', fexp, emin, prec, emax; lia).
  set (s := 0 - 0 - e').
  assert (Hs : s = Z.max (53 + d2 - d1) 0) by (unfold s; lia).
  set (D := d1 + s - d2).
  assert (HD : 53 <= D /\ e' + D = d1 - d2) by (unfold D; lia).
  set (m' := match s with
             | Z0 => Zpos pa
             | Zpos _ => Z.shiftl (Zpos pa) s
             | Zneg _ => 0
             end).
  assert (Hm' : m' = Zpos pa * 2 ^ s).
  { unfold m'. destruct s as [|k|k] eqn:Es; [simpl; lia| |lia].
    now rewrite Z.shiftl_mul_pow2 by lia. }
  assert (E1 : 2 ^ (D - 1) * 2 ^ d2 = 2 ^ (d1 - 1) * 2 ^ s).
  { rewrite <- !Z.pow_add_r by lia. f_equal. unfold D. lia. }
  assert (E2 : 2 ^ d1 * 2 ^ s = 2 ^ (D + 1) * 2 ^ (d2 - 1)).
  { rewrite <- !Z.pow_add_r by lia. f_equal. unfold D. lia. }
  assert (P1 : 0 < 2 ^ s) by (apply Z.pow_pos_nonneg; lia).
  assert (P2 : 0 < 2 ^ (D - 1)) by (apply Z.pow_pos_nonneg; lia).
  assert (P3 : 0 < 2 ^ (D + 1)) by (apply Z.pow_pos_nonneg; lia).
  assert (P4 : 0 < 2 ^ (d2 - 1)) by (apply Z.pow_pos_nonneg; lia).
  assert (P5 : 0 < 2 ^ (d1 - 1)) by (apply Z.pow_pos_nonneg; lia).
  destruct (Z.div_eucl m' (Zpos pb)) as [q r] eqn:Eq.
  assert (Hq : q = m' / Zpos pb) by (unfold Z.div; now rewrite Eq).
  assert (Hqb : 2 ^ (D - 1) <= q < 2 ^ (D + 1)).
  { rewrite Hq, Hm'. split.
    - apply Z.div_le_lower_bound; [lia|]. nia.
    - apply Z.div_lt_upper_bound; [lia|]. nia. }
  assert (E3 : 2 ^ (D + 1) = 2 * 2 ^ D).
  { replace (D + 1) with (Z.succ D) by lia. apply Z.pow_succ_r. lia. }
  assert (E4 : 2 ^ D = 2 * 2 ^ (D - 1)).
  { replace D with (Z.succ (D - 1)) at 1 by lia. apply Z.pow_succ_r. lia. }
  destruct (Z_lt_le_dec q (2 ^ D)).
  - eapply normal_weaken; [apply (round_aux_normal _ _ _ _ D); try lia| |]; lia.
  - eapply normal_weaken; [apply (round_aux_normal _ _ _ _ (D + 1)); try lia| |]; try lia.
    replace (D + 1 - 1) with D by lia. lia.
Qed.

Lemma int_truediv_normal a b ka :
  1 <= a < 2 ^ ka -> 1 <= b < 2 ^ 53 -> 1 <= ka <= 1000 ->
  exists f, PyNum.int_truediv a b = Return f /\ normal false (-105) ka f.
Proof.
  intros Ha Hb Hka. destruct a as [|pa|pa]; try lia. destruct b as [|pb|pb]; try lia.
  pose proof (div_pos_normal pa pb ka ltac:(lia) ltac:(lia) Hka) as Hn.
  change (PyNum.int_truediv (Zpos pa) (Zpos pb))
    with (match SFdiv prec emax (S754_finite false pa 0) (S754_finite false pb 0) with
          | S754_infinity _ => Raise OverflowError
          | f => Return f
          end).
  destruct (SFdiv prec emax (S754_finite false pa 0) (S754_finite false pb 0));
    simpl in Hn; try contradiction.
  eexists. split; [reflexivity|exact Hn].
Qed.

Lemma min2_normal s lo hi a b :
  normal s lo hi a -> normal s lo hi b -> normal s lo hi (PyNum.min2 a b).
Proof. intros Ha Hb. unfold PyNum.min2. now destruct (SFltb b a). Qed.

(** A finite float divided by a normal one is finite when the exponents
    leave room. *)
Lemma div_within_normal a b ha sb lo hi :
  within ha a -> normal sb lo hi b ->
  Z.max (ha - lo + 53) (-1074) + 1 <= 971 ->
  within (Z.max (ha - lo + 53) (-1074) + 1) (SFdiv prec emax a b).
Proof.
  intros Ha Hb Hhi.
  destruct b as [| | |sy my ey]; simpl in Hb; try contradiction.
  destruct Hb as (_ & Hmy & Hey).
  destruct a as [sa|sa| |sa ma ea]; simpl in Ha; try contradiction; [exact I|].
  destruct Ha as [Hma Hea]. unfold SFdiv, SFdiv_core_binary.
  cbn [Zdigits2].
  pose proof (digits2_bounds ma) as [_ Hda].
  pose proof (Zdigits2_le (Zpos my) 53 ltac:(lia) ltac:(lia)) as Hdy. cbn [Zdigits2] in Hdy.
  set (da := Zpos (digits2_pos ma)) in *. set (dy := Zpos (digits2_pos my)) in *.
  set (e' := Z.min (fexp prec emax (da + ea - (dy + ey))) (ea - ey)).
  assert (He' : ea - ey - e' <= Z.max (53 + dy - da) 0 /\ 0 <= ea - ey - e')
    by (unfold e', fexp, emin, prec, emax; lia).
  set (m' := match ea - ey - e' with
             | Z0 => Zpos ma
             | Zpos _ => Z.shiftl (Zpos ma) (ea - ey - e')
             | Zneg _ => 0
             end).
  assert (Hm' : 0 <= m' < 2 ^ 106).
  { unfold m'. destruct (ea - ey - e') as [|s|s] eqn:Es; [lia| |lia].
    rewrite Z.shiftl_mul_pow2 by lia.
    assert (0 < 2 ^ Zpos s) by (apply Z.pow_pos_nonneg; lia).
    split; [nia|].
    apply Z.lt_le_trans with (2 ^ da * 2 ^ Zpos s).
    - apply Z.mul_lt_mono_pos_r; lia.
    - rewrite <- Z.pow_add_r by lia. apply Z.pow_le_mono_r; lia. }
  destruct (Z.div_eucl m' (Zpos my)) as [q r] eqn:Eq.
  assert (Hq : q = m' / Zpos my) by (unfold Z.div; now rewrite Eq).
  assert (Hqb : 0 <= q < 2 ^ 106).
  { rewrite Hq. split; [apply Z.div_pos; lia|].
    apply Z.le_lt_trans with m'; [|lia].
    apply Z.div_le_upper_bound; [lia|nia]. }
  eapply within_weaken.
  - apply (round_aux_within _ _ _ _ 106); [exact Hqb|lia|].
    unfold e'. lia.
  - unfold e'. lia.
Qed.

End PyNumFacts.

Section Scaling.
Import PyFloat PyFloatFacts PyNumFacts.

Lemma small_xy_spec p :
  small_xy p = true <-> Z.abs (fst p) < 2 ^ 53 /\ Z.abs (snd p) < 2 ^ 53.
Proof. unfold small_xy. now rewrite andb_true_iff, !Z.ltb_lt. Qed.

(** [int(x * sx)] returns for a finite scale. *)
Lemma rescale_returns x sx hs :
  Z.abs x < 2 ^ 53 -> within hs sx -> 0 <= hs <= 900 ->
  exists z, rescale x sx = Return z /\ Z.abs z < 2 ^ (107 + hs).
Proof.
  intros Hx Hs Hhs. unfold rescale. rewrite of_int_small by exact Hx.
  cbn [mbind result_bind].
  pose proof (mul_within (round_int x) sx 0 hs (round_int_within x Hx) Hs ltac:(lia)) as Hm.
  replace (Z.max (0 + hs + 53) (-1074) + 1) with (54 + hs) in Hm by lia.
  destruct (to_int_within (54 + hs) _ Hm ltac:(lia)) as (z & Hz & Hb).
  exists z. split; [exact Hz|]. now replace (107 + hs) with (53 + (54 + hs)) by lia.
Qed.

(** [int(x / sx)] returns for a positive normal scale. *)
Lemma unscale_returns x sx :
  Z.abs x < 2 ^ 53 -> normal false (-105) 160 sx -> exists z, unscale x sx = Return z.
Proof.
  intros Hx Hs. unfold unscale.
  destruct (normal_truthy _ _ _ _ Hs) as [-> Hz].
  rewrite of_int_small by exact Hx. cbn [mbind result_bind].
  unfold truediv. rewrite Hz. cbn [mbind result_bind].
  pose proof (div_within_normal (round_int x) sx 0 false (-105) 160
                (round_int_within x Hx) Hs ltac:(lia)) as Hd.
  destruct (to_int_within _ _ Hd ltac:(lia)) as (z & -> & _). eauto.
Qed.

Lemma canvas_to_image_xy_returns self x y :
  scale_ok (display_scale self) -> small_xy (x, y) = true ->
  exists p, canvas_to_image_xy self x y = Return p.
Proof.
  intros [Hsx Hsy] [Hx Hy]%small_xy_spec. unfold canvas_to_image_xy.
  destruct (display_scale self) as [sx sy]. cbn [fst snd] in *.
  destruct (unscale_returns x sx Hx Hsx) as (ix & ->).
  destruct (unscale_returns y sy Hy Hsy) as (iy & ->).
  cbn [mbind result_bind]. destruct (image self) as [[w h]|]; eauto.
Qed.

Lemma image_to_canvas_xy_returns self p :
  scale_ok (display_scale self) -> small_xy p = true ->
  exists c, image_to_canvas_xy self (fst p) (snd p) = Return c.
Proof.
  intros [Hsx Hsy] [Hx Hy]%small_xy_spec. unfold image_to_canvas_xy.
  destruct (display_scale self) as [sx sy]. cbn [fst snd] in *.
  destruct (rescale_returns _ sx 160 Hx (normal_within _ _ _ _ Hsx) ltac:(lia)) as (cx & -> & _).
  destruct (rescale_returns _ sy 160 Hy (normal_within _ _ _ _ Hsy) ltac:(lia)) as (cy & -> & _).
  cbn [mbind result_bind]. eauto.
Qed.

End Scaling.

(** ** Drawing never changes the scale *)

Lemma update_point_scale n f self :
  display_scale (snd (update_point n f self)) = display_scale self.
Proof. unfold update_point. rewrite run_get. now destruct (points self !! n). Qed.

Lemma draw_point_scale n p self :
  display_scale (snd (draw_point n p self)) = display_scale self.
Proof.
  unfold draw_point. rewrite run_get.
  destruct (image self) as [sz|]; [|reflexivity].
  pose proof (update_point_scale n (set_items None None None) self) as H1.
  rewrite run_bind.
  destruct (update_point n (set_items None None None) self) as [[[]|e] s1];
    cbn [snd] in H1 |- *; [|exact H1].
  rewrite run_bind. unfold lift at 1.
  destruct (image_to_canvas_xy self p.1 p.2) as [c|e]; [|exact H1].
  set (i := canvas_next self).
  pose proof (update_point_scale n (set_items (Some i) (Some (i + 1)) (Some (i + 2))) s1) as H2.
  rewrite run_bind.
  destruct (update_point n _ s1) as [[[]|e] s2]; cbn [snd] in H2 |- *; [|congruence].
  rewrite run_get. cbn [put_self snd with_overlay display_scale]. congruence.
Qed.

Lemma update_metrics_overlay_scale self :
  display_scale (snd (update_metrics_overlay self)) = display_scale self.
Proof.
  unfold update_metrics_overlay, clear_overlay_text.
  rewrite run_bind, run_get. cbn [put_self]. rewrite run_get, run_bind.
  unfold lift. now destruct (compute_metrics _).
Qed.

Lemma redraw_points_scale names : forall self,
  display_scale (snd (redraw_points names self)) = display_scale self.
Proof.
  induction names as [|n rest IH]; intros self; cbn [redraw_points]; [reflexivity|].
  rewrite run_get. destruct (coord self n) as [p|]; [|apply IH].
  rewrite run_bind. pose proof (draw_point_scale n p self) as Hd.
  destruct (draw_point n p self) as [[[]|e] s1]; cbn [snd] in Hd |- *; [|exact Hd].
  now rewrite IH.
Qed.

Lemma coords_small_spec self n p :
  coords_small self -> n ∈ POINT_NAMES -> coord self n = Some p -> small_xy p = true.
Proof.
  unfold coords_small. rewrite Forall_forall. intros H Hn Hp.
  specialize (H n Hn). now rewrite Hp in H.
Qed.

Lemma slots_coords_small s s' :
  (forall n, slot s' n = slot s n) -> coords_small s -> coords_small s'.
Proof.
  unfold coords_small. rewrite !Forall_forall. intros Hs Hc n Hn.
  rewrite coord_slot, Hs, <- coord_slot. now apply Hc.
Qed.

Lemma slot_points self n : is_Some (slot self n) <-> is_Some (points self !! n).
Proof. unfold slot. apply fmap_is_Some. Qed.

(** With a registry of the five keys, small coordinates and a scale as
    above, drawing every placed point again returns. *)
Lemma redraw_points_returns names : forall self,
  (forall n, n ∈ names -> n ∈ POINT_NAMES) ->
  registered self -> coords_small self -> scale_ok (display_scale self) ->
  fst (redraw_points names self) = Return tt.
Proof.
  induction names as [|n rest IH]; intros self Hsub Hreg Hc Hsc; cbn [redraw_points];
    [reflexivity|].
  assert (Hn : n ∈ POINT_NAMES) by (apply Hsub; left).
  assert (Hrest : forall n', n' ∈ rest -> n' ∈ POINT_NAMES) by (intros; apply Hsub; now right).
  rewrite run_get. destruct (coord self n) as [p|] eqn:Hp; [|now apply IH].
  assert (Hpt : is_Some (points self !! n)).
  { unfold registered in Hreg. rewrite Forall_forall in Hreg. now apply Hreg. }
  destruct (image_to_canvas_xy_returns self p Hsc (coords_small_spec self n p Hc Hn Hp))
    as [c Hcv].
  pose proof (draw_point_returns n p c self Hpt Hcv) as Hd.
  pose proof (draw_point_marks n p self) as (Hs & _).
  pose proof (draw_point_scale n p self) as Hsc'.
  rewrite run_bind.
  destruct (draw_point n p self) as [[[]|e] s1]; cbn [fst snd] in *; [|discriminate Hd].
  apply IH; [exact Hrest| | |].
  - eapply slots_registered; eassumption.
  - eapply slots_coords_small; eassumption.
  - now rewrite Hsc'.
Qed.

Lemma run_lift {A B : Type} (a : A) (f : A -> method B) self :
  (lift (Return a) ≫= f) self = f a self.
Proof. reflexivity. Qed.

Lemma run_put {B : Type} (s' : AnnotatorApp) (f : unit -> method B) self :
  (put_self s' ≫= f) self = f tt s'.
Proof. reflexivity. Qed.

Section Fit.
Import PyFloat PyFloatFacts PyNumFacts.

(** Fitting an image of ordinary size to a canvas of ordinary size: every
    step of [reset_canvas_image] before the overlay returns, the scale it
    stores is positive, and its outcome is that of [compute_metrics]. *)
Lemma reset_canvas_image_outcome winfo self w h :
  registered self -> coords_small self ->
  image self = Some (w, h) -> image_small (Some (w, h)) = true ->
  small_xy winfo = true ->
  fst (reset_canvas_image winfo self) = (_ ← compute_metrics self; Return tt) /\
  scale_ok (display_scale (snd (reset_canvas_image winfo self))).
Proof.
  intros Hreg Hc Hi Hsz [Hcw Hch]%small_xy_spec.
  unfold image_small in Hsz. rewrite !andb_true_iff, !Z.leb_le in Hsz.
  assert (H52 : 2 ^ 52 < 2 ^ 53) by reflexivity.
  unfold reset_canvas_image. rewrite run_get, Hi.
  destruct (int_truediv_normal (Z.max (fst winfo) 200) w 53) as (rw & -> & Hrw); [lia..|].
  rewrite run_lift.
  destruct (int_truediv_normal (Z.max (snd winfo) 200) h 53) as (rh & -> & Hrh); [lia..|].
  rewrite run_lift.
  pose proof (min2_normal _ _ _ _ _ Hrw Hrh) as Hmin.
  destruct (rescale_returns w _ 53 ltac:(lia) (normal_within _ _ _ _ Hmin) ltac:(lia))
    as (dw & -> & Hdw).
  rewrite run_lift.
  destruct (rescale_returns h _ 53 ltac:(lia) (normal_within _ _ _ _ Hmin) ltac:(lia))
    as (dh & -> & Hdh).
  rewrite run_lift.
  change (107 + 53) with 160 in Hdw, Hdh.
  assert (P160 : 1 < 2 ^ 160) by reflexivity.
  destruct (int_truediv_normal (Z.max 1 dw) w 160) as (sx & -> & Nsx); [lia..|].
  rewrite run_lift.
  destruct (int_truediv_normal (Z.max 1 dh) h 160) as (sy & -> & Nsy); [lia..|].
  rewrite run_lift, run_put, run_get, run_put.
  set (s0 := with_overlay _ _ _).
  assert (H0 : keeps_marks self s0) by (subst s0; repeat split).
  assert (Hsc0 : display_scale s0 = (sx, sy)) by reflexivity.
  assert (Hok0 : scale_ok (display_scale s0)) by (rewrite Hsc0; split; assumption).
  destruct H0 as (Hs0 & H0').
  pose proof (redraw_points_returns POINT_NAMES s0 (fun _ H => H)
                (slots_registered _ _ Hs0 Hreg) (slots_coords_small _ _ Hs0 Hc) Hok0) as Hret.
  pose proof (redraw_points_marks POINT_NAMES s0) as H1.
  pose proof (redraw_points_scale POINT_NAMES s0) as Hsc1.
  rewrite run_bind.
  destruct (redraw_points POINT_NAMES s0) as [[[]|e] s1]; cbn [fst snd] in *;
    [|discriminate Hret].
  split.
  - rewrite update_metrics_overlay_outcome.
    now rewrite (keeps_marks_compute _ _
                   (keeps_marks_trans _ _ _ (conj Hs0 H0') H1)).
  - rewrite update_metrics_overlay_scale. now rewrite Hsc1.
Qed.

End Fit.

(** X16: for an image and a canvas of ordinary size and a registry of
    small coordinates, the fit of the image to the canvas never fails by
    itself: [on_resize] returns or raises exactly as [compute_metrics] does
    on the current registry, and it leaves a display scale of two positive
    normal floats. *)
Theorem X16_resize_outcome winfo self w h :
  registered self -> coords_small self ->
  image self = Some (w, h) -> image_small (Some (w, h)) = true ->
  small_xy winfo = true ->
  fst (on_resize winfo self) = (_ ← compute_metrics self; Return tt) /\
  scale_ok (display_scale (snd (on_resize winfo self))).
Proof.
  intros Hreg Hc Hi Hsz Hw. unfold on_resize. rewrite run_get, Hi.
  now apply (reset_canvas_image_outcome winfo self w h).
Qed.

Lemma X16_resize_outcome_witness :
  registered flat_A /\ coords_small flat_A /\
  image flat_A = Some (640, 480) /\ image_small (Some (640, 480)) = true /\
  small_xy (800, 600) = true /\
  fst (on_resize (800, 600) flat_A) = Raise ZeroDivisionError /\
  scale_ok (display_scale (snd (on_resize (800, 600) flat_A))).
Proof.
  assert (Hreg : registered flat_A) by by_evaluation.
  assert (Hc : coords_small flat_A) by by_evaluation.
  split; [exact Hreg|]. split; [exact Hc|]. split; [reflexivity|].
  split; [reflexivity|]. split; [reflexivity|].
  split; [vm_compute; reflexivity|].
  exact (proj2 (X16_resize_outcome (800, 600) flat_A 640 480 Hreg Hc
                  eq_refl eq_refl eq_refl)).
Defined.

(** ** Sessions of ordinary size *)

Lemma compute_metrics_outcome self :
  registered self -> in_range self ->
  (_ ← compute_metrics self; Return tt) = Return tt \/
  (_ ← compute_metrics self; Return tt) = Raise ZeroDivisionError.
Proof.
  intros Hreg Hr. destruct (Z.eq_dec (state_divisor self) 0) as [H0|Hn].
  - right. now rewrite compute_metrics_raises.
  - left. destruct (compute_metrics_returns self Hreg Hr Hn) as (m & -> & _). reflexivity.
Qed.

Lemma image_small_spec img w h :
  image_small img = true -> img = Some (w, h) ->
  (1 <= w <= 2 ^ 52) /\ (1 <= h <= 2 ^ 52).
Proof.
  intros H ->. unfold image_small in H.
  rewrite !andb_true_iff, !Z.leb_le in H. lia.
Qed.

Lemma on_canvas_click_scale ev self :
  display_scale (snd (on_canvas_click ev self)) = display_scale self.
Proof.
  destruct (image self) as [sz|] eqn:Hi;
    [|unfold on_canvas_click; now rewrite run_get, Hi].
  destruct (current_mode self) as [n|] eqn:Hm;
    [|now rewrite (on_canvas_click_ignored ev self Hm)].
  destruct (decide (n ∈ POINT_NAMES)) as [Hn|Hn].
  2:{ unfold on_canvas_click. rewrite run_get, Hi, Hm.
      now rewrite bool_decide_eq_false_2. }
  rewrite (on_canvas_click_run ev self sz n Hi Hm Hn).
  destruct (canvas_to_image_xy self (ev_x ev) (ev_y ev)) as [p|e]; [|reflexivity].
  pose proof (update_point_scale n (set_xy (Some p)) self) as H1.
  destruct (update_point n (set_xy (Some p)) self) as [[[]|e] s1]; cbn [snd] in H1 |- *;
    [|exact H1].
  pose proof (draw_point_scale n p s1) as H2.
  destruct (draw_point n p s1) as [[[]|e] s2]; cbn [snd] in H2 |- *; [|congruence].
  rewrite update_metrics_overlay_scale. cbn [display_scale with_mode]. congruence.
Qed.

Lemma on_canvas_click_coords_small ev self :
  image_small (image self) = true -> coords_small self ->
  coords_small (snd (on_canvas_click ev self)).
Proof.
  intros Hok Hc. unfold coords_small in *. rewrite Forall_forall in *.
  intros n' Hn'. specialize (Hc n' Hn'). revert Hc.
  rewrite !coord_slot, on_canvas_click_slot.
  destruct (image self) as [[w h]|] eqn:Hi; [|tauto].
  destruct (current_mode self) as [n|]; [|tauto].
  destruct (bool_decide (n ∈ POINT_NAMES)); [|tauto].
  destruct (canvas_to_image_xy self (ev_x ev) (ev_y ev)) as [p|e] eqn:Hp; [|tauto].
  destruct (points self !! n); [|tauto].
  destruct (decide (n' = n)); [|tauto].
  intros _. cbn [mbind option_bind from_option id].
  destruct (image_small_spec _ w h Hok eq_refl) as [Hw Hh].
  destruct (canvas_to_image_xy_clamped self _ _ w h p Hi ltac:(lia) ltac:(lia) Hp).
  apply small_xy_spec. assert (2 ^ 52 < 2 ^ 53) by reflexivity. lia.
Qed.

Lemma image_small_ok img : image_small img = true -> image_ok img = true.
Proof.
  destruct img as [[w h]|]; [|reflexivity]. unfold image_small, image_ok.
  rewrite !andb_true_iff, !Z.leb_le. lia.
Qed.

(** A click in a session of ordinary size returns or raises
    [ZeroDivisionError]. *)
Lemma on_canvas_click_outcome ev self :
  registered self -> in_range self -> scale_ok (display_scale self) ->
  image_small (image self) = true -> small_xy (ev_x ev, ev_y ev) = true ->
  fst (on_canvas_click ev self) = Return tt \/
  fst (on_canvas_click ev self) = Raise ZeroDivisionError.
Proof.
  intros Hreg Hr Hsc Hok Hev.
  pose proof (on_canvas_click_registered self ev Hreg) as Hreg'.
  assert (Hr' : in_range (snd (on_canvas_click ev self))).
  { apply on_canvas_click_in_range; [|exact Hr].
    intros w h Hi. destruct (image_small_spec _ w h Hok Hi). lia. }
  destruct (current_mode self) as [n|] eqn:Hm;
    [|left; now rewrite (on_canvas_click_ignored ev self Hm)].
  destruct (image self) as [[w h]|] eqn:Hi;
    [|left; unfold on_canvas_click; now rewrite run_get, Hi].
  destruct (decide (n ∈ POINT_NAMES)) as [Hn|Hn].
  2:{ left. unfold on_canvas_click. rewrite run_get, Hi, Hm.
      now rewrite bool_decide_eq_false_2. }
  revert Hreg' Hr'. rewrite (on_canvas_click_run ev self (w, h) n Hi Hm Hn).
  destruct (canvas_to_image_xy_returns self _ _ Hsc Hev) as [p Hp]. rewrite Hp.
  assert (Hpt : is_Some (points self !! n)).
  { unfold registered in Hreg. rewrite Forall_forall in Hreg. now apply Hreg. }
  destruct Hpt as [pt Hpt]. rewrite (update_point_run n _ self pt Hpt).
  set (s1 := with_points self _).
  destruct (image_small_spec _ w h Hok eq_refl) as [Hw Hh].
  destruct (canvas_to_image_xy_clamped self _ _ w h p Hi ltac:(lia) ltac:(lia) Hp).
  assert (Hsp : small_xy p = true).
  { apply small_xy_spec. assert (2 ^ 52 < 2 ^ 53) by reflexivity. lia. }
  destruct (image_to_canvas_xy_returns s1 p Hsc Hsp) as [c Hc].
  assert (Hd : fst (draw_point n p s1) = Return tt).
  { apply (draw_point_returns n p c); [|exact Hc].
    subst s1. cbn [points with_points]. rewrite lookup_insert_eq. eauto. }
  destruct (draw_point n p s1) as [[[]|e] s2]; [|discriminate Hd].
  set (s3 := with_mode s2 None). intros Hreg' Hr'.
  rewrite update_metrics_overlay_outcome.
  rewrite <- (keeps_marks_compute s3 _ (update_metrics_overlay_marks s3)).
  now apply compute_metrics_outcome.
Qed.

Lemma unplaced_coords_small s : (forall n, coord s n = None) -> coords_small s.
Proof.
  intros H. unfold coords_small. apply Forall_forall. intros n _. now rewrite H.
Qed.

Lemma compute_after_clear self :
  registered self -> exists m, compute_metrics (snd (clear_marks self)) = Return m.
Proof.
  intros Hreg.
  rewrite compute_metrics_registered by (apply clear_marks_registered; exact Hreg).
  rewrite !clear_marks_coord. eexists. reflexivity.
Qed.

(** Loading an image in a session of ordinary size. *)
Lemma set_image_tame img winfo self :
  registered self -> in_range self -> coords_small self ->
  image_small (Some img) = true -> small_xy winfo = true ->
  let r := set_image img winfo self in
  (fst r = Return tt \/ fst r = Raise ZeroDivisionError) /\
  registered (snd r) /\ in_range (snd r) /\ coords_small (snd r) /\
  scale_ok (display_scale (snd r)) /\ image (snd r) = Some img.
Proof.
  intros Hreg Hr Hc Hsz Hw r. subst r. destruct img as [w h].
  unfold set_image. rewrite run_get, run_put.
  set (s0 := with_image self (Some (w, h))).
  destruct (reset_canvas_image_outcome winfo s0 w h Hreg Hc eq_refl Hsz Hw) as [Hout Hsc].
  pose proof (reset_canvas_image_marks winfo s0) as (Hs & Hi & _).
  pose proof (compute_metrics_outcome s0 Hreg Hr) as Hcm.
  rewrite run_bind.
  destruct (reset_canvas_image winfo s0) as [[[]|e] s1]; cbn [fst snd] in *.
  - split; [left; reflexivity|].
    split; [apply clear_marks_registered; eapply slots_registered; eassumption|].
    split; [apply clear_marks_in_range|].
    split; [apply unplaced_coords_small; intros n; apply clear_marks_coord|].
    split; [exact Hsc|exact Hi].
  - split; [right; destruct Hcm as [Hcm|Hcm]; congruence|].
    split; [eapply slots_registered; eassumption|].
    split; [eapply slots_in_range; eassumption|].
    split; [eapply slots_coords_small; eassumption|].
    split; [exact Hsc|exact Hi].
Qed.

Lemma crop_box_returns self w h x0 y0 x1 y1 :
  scale_ok (display_scale self) -> small_xy (x0, y0) = true -> small_xy (x1, y1) = true ->
  exists b, crop_box self w h x0 y0 x1 y1 = Return b.
Proof.
  intros Hsc H0 H1. unfold crop_box.
  destruct (canvas_to_image_xy_returns self x0 y0 Hsc H0) as [p0 ->].
  destruct (canvas_to_image_xy_returns self x1 y1 Hsc H1) as [p1 ->].
  cbn [mbind result_bind]. eauto.
Qed.

(** The states that differ from a tame one outside the registry, the
    scale and the images. *)
Lemma tame_same_app s a' rs rid :
  tame_session s ->
  points a' = points (app s) -> display_scale a' = display_scale (app s) ->
  image a' = image (app s) -> from_option small_xy true rs = true ->
  tame_session (mkSession a' (full_capture s) rs rid).
Proof.
  intros (Hreg & Hr & Hc & Hsc & Hi & Hf & _) Hp Hd Him Hrs.
  assert (Hs : forall n, slot a' n = slot (app s) n) by (intros n; unfold slot; now rewrite Hp).
  unfold tame_session. cbn [app full_capture roi_start].
  split; [eapply slots_registered; eassumption|].
  split; [eapply slots_in_range; eassumption|].
  split; [eapply slots_coords_small; eassumption|].
  split; [now rewrite Hd|]. split; [now rewrite Him|]. split; assumption.
Qed.

(** Releasing the button in a session of ordinary size never raises. *)
Lemma on_roi_release_tame ev winfo s :
  tame_session s -> small_xy (ev_x ev, ev_y ev) = true -> small_xy winfo = true ->
  fst (on_roi_release ev winfo s) = Return tt /\
  tame_session (snd (on_roi_release ev winfo s)).
Proof.
  intros Ht Hev Hw. pose proof Ht as (Hreg & Hr & Hc & Hsc & Hi & Hf & Hrs).
  assert (Hsame : tame_session s -> tame_session s) by tauto.
  unfold on_roi_release.
  destruct (roi_idle (app s)); [split; [reflexivity|exact Ht]|].
  destruct (roi_start s) as [[sx0 sy0]|] eqn:Hst; [|split; [reflexivity|exact Ht]].
  destruct (image (app s)) as [[w h]|] eqn:Himg; [|split; [reflexivity|exact Ht]].
  assert (Hcancel : tame_session
            (with_roi (with_app s (with_mode (app s) None)) None None)).
  { apply (tame_same_app s (with_mode (app s) None) None None Ht); reflexivity. }
  destruct (_ || _); [split; [reflexivity|exact Hcancel]|].
  apply small_xy_spec in Hrs as [Hx0 Hy0]. cbn [fst snd] in Hx0, Hy0.
  apply small_xy_spec in Hev as [Hx1 Hy1]. cbn [fst snd] in Hx1, Hy1.
  match goal with
  | |- context [crop_box ?a ?w ?h ?x0 ?y0 ?x1 ?y1] =>
      destruct (crop_box_returns a w h x0 y0 x1 y1) as [[[[ix0 iy0] ix1] iy1] Hcb];
        [exact Hsc|apply small_xy_spec; cbn [fst snd]; lia
        |apply small_xy_spec; cbn [fst snd]; lia|rewrite Hcb]
  end.
  destruct ((ix1 <=? ix0) || (iy1 <=? iy0)) eqn:Hv; [split; [reflexivity|exact Hcancel]|].
  pose proof (crop_box_inside _ _ _ _ _ _ _ _ _ _ _ Hcb Hv) as Hb.
  destruct (image_small_spec _ w h Hi eq_refl) as [Hwb Hhb].
  cbn [app with_app].
  set (cropped := with_image (with_mode (app s) None) (Some (ix1 - ix0, iy1 - iy0))).
  rewrite run_bind.
  change (clear_marks cropped) with (@Return unit tt, snd (clear_marks cropped)).
  cbv iota. set (sc := snd (clear_marks cropped)).
  assert (Hregc : registered sc) by (apply clear_marks_registered; exact Hreg).
  assert (Hcc : coords_small sc)
    by (apply unplaced_coords_small; intros n; apply clear_marks_coord).
  assert (Hszc : image_small (Some (ix1 - ix0, iy1 - iy0)) = true).
  { unfold image_small. rewrite !andb_true_iff, !Z.leb_le. lia. }
  destruct (reset_canvas_image_outcome winfo sc _ _ Hregc Hcc eq_refl Hszc Hw)
    as [Hout Hsc'].
  destruct (compute_after_clear cropped Hreg) as [m Hm]. fold sc in Hm.
  rewrite Hm in Hout. cbn [mbind result_bind] in Hout.
  pose proof (reset_canvas_image_marks winfo sc) as (Hs & Him' & _).
  destruct (reset_canvas_image winfo sc) as [[[]|e] a]; cbn [fst snd] in *;
    [|discriminate Hout].
  split; [reflexivity|].
  unfold tame_session. cbn [app full_capture roi_start with_roi with_app].
  split; [eapply slots_registered; eassumption|].
  split; [eapply slots_in_range; [exact Hs|apply clear_marks_in_range]|].
  split; [eapply slots_coords_small; eassumption|].
  split; [exact Hsc'|]. split; [now rewrite Him'|]. split; [exact Hf|reflexivity].
Qed.

(** Every handler keeps a session of ordinary size tame, and raises, if it
    does, [ZeroDivisionError] from the overlay. *)
Lemma handle_tame ev s :
  tame_event ev = true -> tame_session s ->
  tame_session (snd (handle ev s)) /\
  (fst (handle ev s) = Return tt \/
   draws_overlay ev = true /\ fst (handle ev s) = Raise ZeroDivisionError).
Proof.
  intros Hev Ht. pose proof Ht as (Hreg & Hr & Hc & Hsc & Hi & Hf & Hrs).
  destruct ev as [mode|answer|event| |winfo|opened winfo|winfo| |event|event|event winfo];
    cbn [handle tame_event draws_overlay] in *.
  - split; [|left; reflexivity].
    apply (tame_same_app s (with_mode (app s) mode) (roi_start s) _ Ht); auto.
  - unfold on_app. cbn [fst snd].
    assert (Hp : fst (set_axis_tick answer (app s)) = Return tt /\
                 points (snd (set_axis_tick answer (app s))) = points (app s) /\
                 display_scale (snd (set_axis_tick answer (app s))) = display_scale (app s) /\
                 image (snd (set_axis_tick answer (app s))) = image (app s)).
    { unfold set_axis_tick. rewrite run_get.
      destruct (try_except answer _); repeat split. }
    destruct Hp as (Hret & Hp & Hd & Him).
    split; [|left; exact Hret]. now apply tame_same_app.
  - unfold on_app. cbn [fst snd]. split.
    + unfold tame_session. cbn [app full_capture roi_start].
      split; [now apply on_canvas_click_registered|].
      split; [apply on_canvas_click_in_range; [|exact Hr];
              intros w h Him; destruct (image_small_spec _ w h Hi Him); lia|].
      split; [now apply on_canvas_click_coords_small|].
      split; [now rewrite on_canvas_click_scale|].
      split; [now rewrite on_canvas_click_image|]. split; assumption.
    + destruct (on_canvas_click_outcome event (app s) Hreg Hr Hsc Hi Hev); auto.
  - unfold on_app. cbn [fst snd]. split; [|left; reflexivity].
    unfold tame_session. cbn [app full_capture roi_start].
    split; [now apply clear_marks_registered|].
    split; [apply clear_marks_in_range|].
    split; [apply unplaced_coords_small; intros n; apply clear_marks_coord|].
    split; [exact Hsc|]. split; [exact Hi|]. split; assumption.
  - unfold on_app. cbn [fst snd].
    destruct (image (app s)) as [[w h]|] eqn:Him.
    + assert (Hsz : image_small (Some (w, h)) = true) by exact Hi.
      unfold on_resize. rewrite run_get, Him.
      destruct (reset_canvas_image_outcome winfo (app s) w h Hreg Hc Him Hsz Hev)
        as [Hout Hsc'].
      pose proof (reset_canvas_image_marks winfo (app s)) as (Hs & Him' & _).
      split.
      * unfold tame_session. cbn [app full_capture roi_start].
        split; [eapply slots_registered; eassumption|].
        split; [eapply slots_in_range; eassumption|].
        split; [eapply slots_coords_small; eassumption|].
        split; [exact Hsc'|]. split; [now rewrite Him', Him|]. split; assumption.
      * rewrite Hout. destruct (compute_metrics_outcome (app s) Hreg Hr); auto.
    + unfold on_resize. rewrite run_get, Him. split; [|left; reflexivity].
      apply (tame_same_app s (app s) (roi_start s) _ Ht); auto.
  - apply andb_true_iff in Hev as [Hop Hw]. unfold open_image.
    destruct opened as [img|].
    2:{ split; [exact Ht|left; reflexivity]. }
    unfold on_app. cbn [fst snd app full_capture roi_start roi_rect_canvas_id].
    destruct (set_image_tame img winfo (app s) Hreg Hr Hc Hop Hw)
      as (Hout & H1 & H2 & H3 & H4 & H5).
    split; [|destruct Hout; auto].
    unfold tame_session. cbn [app full_capture roi_start].
    split; [exact H1|]. split; [exact H2|]. split; [exact H3|]. split; [exact H4|].
    split; [now rewrite H5|]. split; assumption.
  - unfold reset_to_full_capture.
    destruct (full_capture s) as [img|] eqn:Hfc.
    2:{ split; [|left; reflexivity]. cbn [snd]. exact Ht. }
    unfold on_app. cbn [fst snd app full_capture roi_start roi_rect_canvas_id].
    destruct (set_image_tame img winfo (app s) Hreg Hr Hc Hf Hev)
      as (Hout & H1 & H2 & H3 & H4 & H5).
    split; [|destruct Hout; auto].
    unfold tame_session. cbn [app full_capture roi_start].
    split; [exact H1|]. split; [exact H2|]. split; [exact H3|]. split; [exact H4|].
    split; [now rewrite H5|]. split; [now rewrite Hfc|assumption].
  - split; [|left; unfold start_roi_mode; now destruct (image (app s))].
    unfold start_roi_mode. destruct (image (app s)) eqn:Him; [|exact Ht].
    apply (tame_same_app s (with_mode (app s) (Some "ROI"%string)) None None Ht); auto.
  - split; [|left; unfold on_roi_press; now destruct (roi_idle (app s))].
    unfold on_roi_press. destruct (roi_idle (app s)); [exact Ht|].
    apply (tame_same_app s (app s) (Some (ev_x event, ev_y event)) None Ht); auto.
  - split.
    + unfold on_roi_drag. destruct (roi_idle (app s)); [exact Ht|].
      destruct (roi_start s) as [st|] eqn:Hst; [|exact Ht].
      destruct (roi_rect_canvas_id s); [exact Ht|].
      apply (tame_same_app s _ (Some st) _ Ht); auto.
    + left. unfold on_roi_drag. destruct (roi_idle (app s)); [reflexivity|].
      destruct (roi_start s); [|reflexivity]. now destruct (roi_rect_canvas_id s).
  - apply andb_true_iff in Hev as [He Hw].
    destruct (on_roi_release_tame event winfo s Ht He Hw) as [Hret Ht'].
    split; [exact Ht'|left; exact Hret].
Qed.

Lemma run_tame evs : forall s,
  forallb tame_event evs = true -> tame_session s -> tame_session (run evs s).
Proof.
  induction evs as [|ev rest IH]; intros s Hev Hs; cbn [run]; [exact Hs|].
  cbn [forallb] in Hev. apply andb_true_iff in Hev as [H1 H2].
  apply IH; [exact H2|]. now apply handle_tame.
Qed.

Lemma init_session_tame : tame_session init_session.
Proof.
  split; [apply init_registered|]. split; [by_evaluation|]. split; [by_evaluation|].
  split; [|repeat split].
  assert (H : PyFloat.normal false (-105) 160 PyFloat.one)
    by (vm_compute; repeat split; congruence).
  split; exact H.
Qed.

(** X17: in a session of ordinary size (opened images of 1 to [2 ^ 52]
    pixels in each direction, canvas sizes and pointer coordinates below
    [2 ^ 53]), started by [__init__] and driven by any events, a handler
    either returns or raises [ZeroDivisionError], and only the four
    handlers that draw the overlay panel can raise: a click, a resize,
    opening an image and resetting to the full capture.  Mode buttons, the
    axis dialog, clearing, and the whole ROI selection, crop included,
    always return. *)
Theorem X17_session_exceptions evs ev :
  forallb tame_event evs = true -> tame_event ev = true ->
  let s := run evs init_session in
  fst (handle ev s) = Return tt \/
  draws_overlay ev = true /\ fst (handle ev s) = Raise ZeroDivisionError.
Proof.
  intros Hevs Hev s.
  apply handle_tame; [exact Hev|].
  apply run_tame; [exact Hevs|apply init_session_tame].
Qed.

Lemma X17_session_exceptions_witness :
  let evs := [EvOpenImage (Some (640, 480)) (800, 600);
              EvSetMode (Some "Baseline"%string); EvClick (mkEvent 10 100);
              EvSetMode (Some "A"%string)] in
  let ev := EvClick (mkEvent 20 100) in
  forallb tame_event evs = true /\ tame_event ev = true /\
  fst (handle ev (run evs init_session)) = Raise ZeroDivisionError /\
  (fst (handle ev (run evs init_session)) = Return tt \/
   draws_overlay ev = true /\
   fst (handle ev (run evs init_session)) = Raise ZeroDivisionError).
Proof.
  intros evs ev.
  assert (Hevs : forallb tame_event evs = true) by reflexivity.
  assert (Hev : tame_event ev = true) by reflexivity.
  split; [exact Hevs|]. split; [exact Hev|]. split; [vm_compute; reflexivity|].
  exact (X17_session_exceptions evs ev Hevs Hev).
Defined.

(** ** The overlay panel *)

Lemma update_point_overlay n f self :
  overlay_items (snd (update_point n f self)) = overlay_items self.
Proof. unfold update_point. rewrite run_get. now destruct (points self !! n). Qed.

Lemma draw_point_overlay n p self :
  overlay_items (snd (draw_point n p self)) = overlay_items self.
Proof.
  unfold draw_point. rewrite run_get.
  destruct (image self) as [sz|]; [|reflexivity].
  pose proof (update_point_overlay n (set_items None None None) self) as H1.
  rewrite run_bind.
  destruct (update_point n (set_items None None None) self) as [[[]|e] s1];
    cbn [snd] in H1 |- *; [|exact H1].
  rewrite run_bind. unfold lift at 1.
  destruct (image_to_canvas_xy self p.1 p.2) as [c|e]; [|exact H1].
  set (i := canvas_next self).
  pose proof (update_point_overlay n (set_items (Some i) (Some (i + 1)) (Some (i + 2))) s1) as H2.
  rewrite run_bind.
  destruct (update_point n _ s1) as [[[]|e] s2]; cbn [snd] in H2 |- *; [|congruence].
  rewrite run_get. cbn [put_self snd with_overlay overlay_items]. congruence.
Qed.

Lemma redraw_points_overlay names : forall self,
  overlay_items (snd (redraw_points names self)) = overlay_items self.
Proof.
  induction names as [|n rest IH]; intros self; cbn [redraw_points]; [reflexivity|].
  rewrite run_get. destruct (coord self n) as [p|]; [|apply IH].
  rewrite run_bind. pose proof (draw_point_overlay n p self) as Hd.
  destruct (draw_point n p self) as [[[]|e] s1]; cbn [snd] in Hd |- *; [|exact Hd].
  now rewrite IH.
Qed.

(** [update_metrics_overlay] erases the panel before it computes: the list
    is empty when it raises and holds the new panel when it returns. *)
Lemma update_metrics_overlay_panel self :
  match fst (update_metrics_overlay self) with
  | Return _ => exists t, overlay_items (snd (update_metrics_overlay self)) = [t + 1; t]
  | Raise _ => overlay_items (snd (update_metrics_overlay self)) = []
  end.
Proof.
  unfold update_metrics_overlay, clear_overlay_text.
  rewrite run_bind, run_get. cbn [put_self]. rewrite run_get, run_bind.
  unfold lift. destruct (compute_metrics _); cbn [fst snd put_self with_overlay overlay_items];
    eauto.
Qed.

Lemma update_metrics_overlay_one_panel self :
  one_panel (overlay_items (snd (update_metrics_overlay self))).
Proof.
  pose proof (update_metrics_overlay_panel self) as H. unfold one_panel.
  destruct (fst (update_metrics_overlay self)); eauto.
Qed.

Lemma reset_canvas_image_one_panel winfo self :
  one_panel (overlay_items self) ->
  one_panel (overlay_items (snd (reset_canvas_image winfo self))).
Proof.
  intros Hp. unfold reset_canvas_image. rewrite run_get.
  destruct (image self) as [[img_w img_h]|]; [|exact Hp].
  rewrite run_bind. unfold lift at 1.
  destruct (PyNum.int_truediv _ img_w) as [rw|]; [|exact Hp].
  rewrite run_bind. unfold lift at 1.
  destruct (PyNum.int_truediv _ img_h) as [rh|]; [|exact Hp].
  rewrite run_bind. unfold lift at 1.
  destruct (rescale img_w _) as [dw|]; [|exact Hp].
  rewrite run_bind. unfold lift at 1.
  destruct (rescale img_h _) as [dh|]; [|exact Hp].
  rewrite run_bind. unfold lift at 1.
  destruct (PyNum.int_truediv _ img_w) as [sx|]; [|exact Hp].
  rewrite run_bind. unfold lift at 1.
  destruct (PyNum.int_truediv _ img_h) as [sy|]; [|exact Hp].
  rewrite run_bind. cbn [put_self]. rewrite run_get, run_bind. cbn [put_self].
  set (s0 := with_overlay _ _ _).
  rewrite run_bind. pose proof (redraw_points_overlay POINT_NAMES s0) as H1.
  destruct (redraw_points POINT_NAMES s0) as [[[]|e] s1]; cbn [snd] in H1 |- *.
  - apply update_metrics_overlay_one_panel.
  - rewrite H1. exact Hp.
Qed.

Lemma set_image_one_panel img winfo self :
  one_panel (overlay_items self) ->
  one_panel (overlay_items (snd (set_image img winfo self))).
Proof.
  intros Hp. unfold set_image. rewrite run_get, run_bind. cbn [put_self].
  set (s0 := with_image self (Some img)).
  pose proof (reset_canvas_image_one_panel winfo s0 Hp) as H1.
  rewrite run_bind.
  destruct (reset_canvas_image winfo s0) as [[[]|e] s1]; cbn [snd] in H1 |- *;
    [left; reflexivity|exact H1].
Qed.

Lemma on_canvas_click_one_panel ev self :
  one_panel (overlay_items self) ->
  one_panel (overlay_items (snd (on_canvas_click ev self))).
Proof.
  intros Hp.
  destruct (image self) as [sz|] eqn:Hi;
    [|unfold on_canvas_click; now rewrite run_get, Hi].
  destruct (current_mode self) as [n|] eqn:Hm;
    [|now rewrite (on_canvas_click_ignored ev self Hm)].
  destruct (decide (n ∈ POINT_NAMES)) as [Hn|Hn].
  2:{ unfold on_canvas_click. rewrite run_get, Hi, Hm.
      now rewrite bool_decide_eq_false_2. }
  rewrite (on_canvas_click_run ev self sz n Hi Hm Hn).
  destruct (canvas_to_image_xy self (ev_x ev) (ev_y ev)) as [p|e]; [|exact Hp].
  pose proof (update_point_overlay n (set_xy (Some p)) self) as H1.
  destruct (update_point n (set_xy (Some p)) self) as [[[]|e] s1]; cbn [snd] in H1 |- *;
    [|now rewrite H1].
  pose proof (draw_point_overlay n p s1) as H2.
  destruct (draw_point n p s1) as [[[]|e] s2]; cbn [snd] in H2 |- *;
    [|now rewrite H2, H1].
  apply update_metrics_overlay_one_panel.
Qed.

Lemma handle_one_panel ev s :
  one_panel (overlay_items (app s)) ->
  one_panel (overlay_items (app (snd (handle ev s)))).
Proof.
  intros Hp.
  destruct ev as [mode|answer|event| |winfo|opened winfo|winfo| |event|event|event winfo];
    cbn [handle].
  - exact Hp.
  - unfold on_app. cbn [snd app]. unfold set_axis_tick. rewrite run_get.
    now destruct (try_except answer _).
  - now apply on_canvas_click_one_panel.
  - left. reflexivity.
  - unfold on_app. cbn [snd app]. unfold on_resize. rewrite run_get.
    destruct (image (app s)) eqn:E; [|exact Hp].
    now apply reset_canvas_image_one_panel.
  - unfold open_image. destruct opened as [img|]; [|exact Hp].
    now apply set_image_one_panel.
  - unfold reset_to_full_capture. destruct (full_capture s) as [img|]; [|exact Hp].
    now apply set_image_one_panel.
  - unfold start_roi_mode. now destruct (image (app s)).
  - unfold on_roi_press. now destruct (roi_idle (app s)).
  - unfold on_roi_drag. destruct (roi_idle (app s)); [exact Hp|].
    destruct (roi_start s); [|exact Hp]. now destruct (roi_rect_canvas_id s).
  - unfold on_roi_release.
    destruct (roi_idle (app s)); [exact Hp|].
    destruct (roi_start s) as [[sx0 sy0]|]; [|exact Hp].
    destruct (image (app s)) as [[w h]|]; [|exact Hp].
    destruct (_ || _); [exact Hp|].
    match goal with
    | |- context [crop_box ?a ?w ?h ?x0 ?y0 ?x1 ?y1] =>
        destruct (crop_box a w h x0 y0 x1 y1) as [[[[ix0 iy0] ix1] iy1]|e]
    end; [|exact Hp].
    destruct (_ || _); [exact Hp|].
    cbn [app with_app].
    set (cropped := with_image _ _).
    rewrite run_bind.
    change (clear_marks cropped) with (@Return unit tt, snd (clear_marks cropped)).
    cbv iota.
    assert (H0 : one_panel (overlay_items (snd (clear_marks cropped)))) by (left; reflexivity).
    pose proof (reset_canvas_image_one_panel winfo _ H0) as H1.
    destruct (reset_canvas_image winfo (snd (clear_marks cropped))) as [[[]|e] a];
      exact H1.
Qed.

(** X18: the overlay list never accumulates panels.  In every state that a
    session reaches from [__init__], whatever the events and whether the
    handlers return or raise, the list is empty or holds exactly the
    rectangle and the text of one panel; and [update_metrics_overlay]
    itself leaves the panel when it returns and an empty list when
    [compute_metrics] raises: the old panel is erased before the metrics
    are computed. *)
Theorem X18_overlay_single_panel evs self :
  one_panel (overlay_items (app (run evs init_session))) /\
  match fst (update_metrics_overlay self) with
  | Return _ => exists t, overlay_items (snd (update_metrics_overlay self)) = [t + 1; t]
  | Raise _ => overlay_items (snd (update_metrics_overlay self)) = []
  end.
Proof.
  split; [|apply update_metrics_overlay_panel].
  assert (H : forall s, one_panel (overlay_items (app s)) ->
                        one_panel (overlay_items (app (run evs s)))).
  { induction evs as [|ev rest IH]; intros s Hs; cbn [run]; [exact Hs|].
    apply IH. now apply handle_one_panel. }
  apply H. left. reflexivity.
Qed.

Lemma X18_overlay_single_panel_witness :
  let evs := [EvOpenImage (Some (640, 480)) (640, 480);
              EvSetMode (Some "Baseline"%string); EvClick (mkEvent 10 100);
              EvSetMode (Some "A"%string); EvClick (mkEvent 20 60)] in
  overlay_items (app (run evs init_session)) = [13; 12] /\
  one_panel (overlay_items (app (run evs init_session))) /\
  fst (update_metrics_overlay flat_A) = Raise ZeroDivisionError /\
  overlay_items (snd (update_metrics_overlay flat_A)) = [].
Proof.
  intros evs.
  assert (Hr : fst (update_metrics_overlay flat_A) = Raise ZeroDivisionError)
    by (vm_compute; reflexivity).
  split; [vm_compute; reflexivity|].
  pose proof (X18_overlay_single_panel evs flat_A) as [H1 H2].
  split; [exact H1|]. split; [exact Hr|].
  rewrite Hr in H2. exact H2.
Defined.
